(** * WB tariffs synchronisation service: a shallow embedding and its properties

    The development follows the layout of the TypeScript sources:

    - [JS]          strings as sequences of UTF-16 code units, [trim],
                    [parseInt], template-literal number printing;
    - [Errors]      utils/errors.ts;
    - [Config]      constants/config.ts;
    - [Types]       types/tariffs.ts, the stored row of the migration and
                    utils/metrics.ts' [SyncMetrics];
    - [Eff]         the effect monad: a world (database, metrics collector,
                    clock, trace of observable events) with exceptions;
    - [Validators]  utils/validators.ts;
    - [Retry]       the retry loop that wbApi.ts and googleSheets.ts share;
    - [WBApi]       services/wbApi.ts;
    - [Repository]  repositories/tariffRepository.ts;
    - [Sheets]      services/googleSheets.ts;
    - [Seeds]       postgres/seeds/spreadsheets.js;
    - [Metrics]     utils/metrics.ts;
    - [Sync]        services/tariffSync.ts;
    - [Scheduler]   services/scheduler.ts.

    Everything outside the process (the HTTP endpoint, PostgreSQL, the
    Google Sheets API) is an explicit argument of the function that calls
    it: a description of what the remote side answers.

    The model is followed by the vocabulary of the specification ([Spec]),
    sample data ([Samples]) and the properties: [Normalisation], [Store],
    [DayFacts], [ReadBack], [MetricsFacts], [RetryFacts], [SyncFacts], [PublishAll] and
    [SchedulerFacts]; then what the services leave alone ([Frames]), decimal
    printing and parsing ([NumberFacts]), and further properties by source
    file: [WBApiFacts], [RetryEdges], [StoreInvariants],
    [MetricsInvariants], [SyncRun], [SheetsFacts], [SchedulerDiscipline],
    [SeedsFacts] and [SyncEndToEnd]. *)

From Stdlib Require Import String Ascii.
From Stdlib Require Import ZArith NArith List Bool Arith Lia.
From Stdlib Require Import Permutation Sorting.Sorted QArith.
From Stdlib Require Import DecimalNat DecimalPos.
Import ListNotations.

Set Implicit Arguments.
Close Scope Q_scope.
Local Open Scope list_scope.

(* ===================================================================== *)
(** * JavaScript strings *)
(* ===================================================================== *)

Module JS.

(** A JavaScript string is a sequence of 16-bit code units; [length],
    [substring] and [trim] all work on code units. *)
Definition jsstring : Type := list N.

(** ASCII literals of the source text. *)
Definition js (s : string) : jsstring :=
  List.map N_of_ascii (list_ascii_of_string s).

(** [a === b] on strings. *)
Fixpoint str_eqb (a b : jsstring) : bool :=
  match a, b with
  | [], [] => true
  | x :: a', y :: b' => N.eqb x y && str_eqb a' b'
  | _, _ => false
  end.

(** Truthiness of a string: only the empty string is falsy.  A field that
    is missing from the JSON payload ([undefined]) is falsy too; every use
    of a raw field below starts with this test and so treats a missing
    field like the empty string. *)
Definition truthy (s : jsstring) : bool :=
  match s with [] => false | _ :: _ => true end.

(** ECMAScript WhiteSpace and LineTerminator code points: TAB, LF, VT, FF,
    CR, SP, NBSP, U+1680, U+2000..U+200A, LS, PS, U+202F, U+205F, U+3000,
    U+FEFF. *)
Definition isWhiteSpace (c : N) : bool :=
  existsb (N.eqb c)
    [9; 10; 11; 12; 13; 32; 160; 5760; 8232; 8233; 8239; 8287; 12288; 65279]%N
  || (N.leb 8192 c && N.leb c 8202).

Fixpoint trimStart (s : jsstring) : jsstring :=
  match s with
  | [] => []
  | c :: r => if isWhiteSpace c then trimStart r else s
  end.

Definition trimEnd (s : jsstring) : jsstring := rev (trimStart (rev s)).

(** [String.prototype.trim]. *)
Definition trim (s : jsstring) : jsstring := trimEnd (trimStart s).

(** [s.substring(0, n)] for a non-negative integer [n]. *)
Definition substring0 (n : nat) (s : jsstring) : jsstring := firstn n s.

Definition isDigit (c : N) : bool := N.leb 48 c && N.leb c 57.

Fixpoint digitsPrefix (s : jsstring) : list N :=
  match s with
  | c :: r => if isDigit c then c :: digitsPrefix r else []
  | [] => []
  end.

Definition digitsValue (ds : list N) : Z :=
  fold_left (fun acc d => (acc * 10 + (Z.of_N d - 48))%Z) ds 0%Z.

(** The sign step of [parseInt]: one leading [-] or [+] is consumed. *)
Definition splitSign (s : jsstring) : Z * jsstring :=
  match s with
  | 45%N :: r => ((-1)%Z, r)
  | 43%N :: r => (1%Z, r)
  | _ => (1%Z, s)
  end.

(** [parseInt(s, 10)]: leading white space is skipped, one sign is read,
    then the longest prefix of decimal digits; no digit gives [NaN]
    ([None]).  The numeric value is kept exact.  The engine returns a
    double: that very integer up to 2^53 - 1 in absolute value
    ([Spec.safeInteger]), the nearest double beyond; so the definition is
    the engine's result on digit strings of safe integers only. *)
Definition parseInt10 (s : jsstring) : option Z :=
  let (sign, body) := splitSign (trimStart s) in
  match digitsPrefix body with
  | [] => None
  | ds => Some (sign * digitsValue ds)%Z
  end.

(** Printing of a non-negative integer inside a template literal. *)
Fixpoint uintCodes (d : Decimal.uint) : jsstring :=
  match d with
  | Decimal.Nil => []
  | Decimal.D0 r => 48%N :: uintCodes r
  | Decimal.D1 r => 49%N :: uintCodes r
  | Decimal.D2 r => 50%N :: uintCodes r
  | Decimal.D3 r => 51%N :: uintCodes r
  | Decimal.D4 r => 52%N :: uintCodes r
  | Decimal.D5 r => 53%N :: uintCodes r
  | Decimal.D6 r => 54%N :: uintCodes r
  | Decimal.D7 r => 55%N :: uintCodes r
  | Decimal.D8 r => 56%N :: uintCodes r
  | Decimal.D9 r => 57%N :: uintCodes r
  end.

Definition natToString (n : nat) : jsstring := uintCodes (Nat.to_uint n).

Definition zToString (z : Z) : jsstring :=
  match z with
  | Z0 => [48%N]
  | Zpos p => uintCodes (Pos.to_uint p)
  | Zneg p => 45%N :: uintCodes (Pos.to_uint p)
  end.

(** [arr.slice(start)] for an integer [start]: a negative start counts
    from the end, and is clamped at the beginning. *)
Definition sliceFrom {A : Type} (start : Z) (l : list A) : list A :=
  let len := Z.of_nat (length l) in
  let k := if (start <? 0)%Z then Z.max (len + start) 0 else Z.min start len in
  skipn (Z.to_nat k) l.

(** [arr.slice(i, j)] for natural [i <= j]. *)
Definition slice {A : Type} (i j : nat) (l : list A) : list A :=
  firstn (j - i) (skipn i l).

End JS.

Export JS.

(* ===================================================================== *)
(** * utils/errors.ts *)
(* ===================================================================== *)

Module Errors.

(** The class of a thrown value; [NativeError] stands for whatever a
    library (fetch, knex, googleapis) throws. *)
Inductive ErrorClass : Type :=
  | NativeError
  | AppError
  | WBApiError
  | DatabaseError
  | GoogleSheetsError
  | ValidationError
  | ConfigurationError.

Record Err : Type := mkErr {
  errClass : ErrorClass;
  message : jsstring;
  statusCode : option Z;        (* AppError.statusCode *)
  isOperational : option bool;  (* AppError.isOperational *)
  code : option Z               (* the [code] property of library errors *)
}.

Definition newAppError (msg : jsstring) : Err :=
  mkErr AppError msg (Some 500%Z) (Some true) None.

Definition newWBApiError (msg : jsstring) (status : Z) : Err :=
  mkErr WBApiError (js "WB API Error: " ++ msg) (Some status) (Some true) None.

Definition newDatabaseError (msg : jsstring) : Err :=
  mkErr DatabaseError (js "Database Error: " ++ msg) (Some 500%Z) (Some true) None.

Definition newGoogleSheetsError (msg : jsstring) : Err :=
  mkErr GoogleSheetsError (js "Google Sheets Error: " ++ msg)
        (Some 500%Z) (Some true) None.

Definition newValidationError (msg : jsstring) : Err :=
  mkErr ValidationError (js "Validation Error: " ++ msg)
        (Some 400%Z) (Some true) None.

(** An error raised by a library, with an optional numeric [code]. *)
Definition nativeError (msg : jsstring) (c : option Z) : Err :=
  mkErr NativeError msg None None c.

Definition className (c : ErrorClass) : jsstring :=
  match c with
  | NativeError => js "Error"
  | AppError => js "AppError"
  | WBApiError => js "WBApiError"
  | DatabaseError => js "DatabaseError"
  | GoogleSheetsError => js "GoogleSheetsError"
  | ValidationError => js "ValidationError"
  | ConfigurationError => js "ConfigurationError"
  end.

(** [`${error}`]: Error.prototype.toString. *)
Definition errToString (e : Err) : jsstring :=
  match message e with
  | [] => className (errClass e)
  | m => className (errClass e) ++ js ": " ++ m
  end.

End Errors.

Export Errors.

(* ===================================================================== *)
(** * constants/config.ts *)
(* ===================================================================== *)

Module Config.

Definition API_MAX_RETRIES : nat := 3.
Definition API_RETRY_DELAY : Z := 1000.
Definition API_REQUEST_TIMEOUT : Z := 30000.

Definition SHEETS_SHEET_NAME : jsstring := js "stocks_coefs".
Definition SHEETS_MAX_RETRIES : nat := 3.
Definition SHEETS_RETRY_DELAY : Z := 2000.

Definition MAX_WAREHOUSE_NAME_LENGTH : nat := 255.
Definition MAX_GEO_NAME_LENGTH : nat := 255.

Definition HOURLY_CRON : jsstring := js "0 * * * *".
Definition TIMEZONE : jsstring := js "Europe/Moscow".

End Config.

(* ===================================================================== *)
(** * types/tariffs.ts, the stored row, and the metrics record *)
(* ===================================================================== *)

Module Types.

(** [WBWarehouseTariff]: a raw entry of the remote payload. *)
Record WBWarehouseTariff : Type := mkRaw {
  warehouseName : jsstring;
  geoName : jsstring;
  boxDeliveryBase : jsstring;
  boxDeliveryLiter : jsstring;
  boxDeliveryCoefExpr : jsstring;
  boxDeliveryMarketplaceBase : jsstring;
  boxDeliveryMarketplaceLiter : jsstring;
  boxDeliveryMarketplaceCoefExpr : jsstring;
  boxStorageBase : jsstring;
  boxStorageLiter : jsstring;
  boxStorageCoefExpr : jsstring
}.

(** [BoxTariff] as [transformToDbFormat] builds it.  The optional [id],
    [created_at] and [updated_at] of the interface are never set by the
    transformation; they live on the stored [Row]. *)
Record BoxTariff : Type := mkBoxTariff {
  date : jsstring;
  warehouse_name : jsstring;
  geo_name : option jsstring;
  box_delivery_base : option jsstring;
  box_delivery_liter : option jsstring;
  box_delivery_coef : option Z;
  box_delivery_marketplace_base : option jsstring;
  box_delivery_marketplace_liter : option jsstring;
  box_delivery_marketplace_coef : option Z;
  box_storage_base : option jsstring;
  box_storage_liter : option jsstring;
  box_storage_coef : option Z
}.

(** A row of table [box_tariffs] (migration: unique on date and
    warehouse_name; [created_at] and [updated_at] default to the time of
    insertion).  The serial [id] is read by no query and is left out.
    Column [date] is an SQL date and the text columns are [varchar(255)]
    written as UTF-8; a row of the model shows the date as a text and the
    texts as the strings that were passed.  It shows what PostgreSQL holds
    when the date is the ISO text of the day and every value is one of its
    column's type ([Spec.storable]). *)
Record Row : Type := mkRow {
  row_tariff : BoxTariff;
  created_at : Z;
  updated_at : Z
}.

(** [TariffExportRow]: the eight columns selected for export.  The string
    columns are nullable in the table. *)
Record TariffExportRow : Type := mkExport {
  x_warehouse_name : jsstring;
  x_geo_name : option jsstring;
  x_box_delivery_coef : option Z;
  x_box_delivery_base : option jsstring;
  x_box_delivery_liter : option jsstring;
  x_box_storage_coef : option Z;
  x_box_storage_base : option jsstring;
  x_box_storage_liter : option jsstring
}.

(** [SyncMetrics] of utils/metrics.ts. *)
Record SyncMetrics : Type := mkMetric {
  startTime : Z;
  endTime : option Z;
  duration : option Z;
  fetchedCount : nat;
  savedCount : nat;
  exportedCount : nat;
  success : bool;
  error : option jsstring
}.

(** [MetricsCollector].  [startSync] hands out a reference to an object
    that also sits in the [metrics] array and that callers mutate, so the
    objects live in a store ([objects], addressed by position, never
    shrinking) and the array holds references. *)
Record MetricsCollector : Type := mkCollector {
  objects : list SyncMetrics;
  metrics : list nat
}.

(** The private field [maxHistory], initialised to 100 and never
    assigned. *)
Definition maxHistory : nat := 100.
Arguments maxHistory : simpl never.

Definition newMetricsCollector : MetricsCollector := mkCollector [] [].

End Types.

Export Types.

(* ===================================================================== *)
(** * Effects: world, trace, exceptions *)
(* ===================================================================== *)

Module Eff.

Inductive Level : Type := LvDebug | LvInfo | LvWarn | LvError | LvFatal.

Inductive Logger : Type := LApi | LSheets | LSync | LDatabase | LScheduler.

(** A cell written to a sheet: a string or a number. *)
Inductive Cell : Type := CStr (s : jsstring) | CNum (z : Z).

(** What the process does that can be observed from outside. *)
Inductive Event : Type :=
  | Log (lg : Logger) (lvl : Level) (msg : jsstring) (attached : option Err)
  | Sleep (ms : Z)
  | HttpGet (dateParam : jsstring)
  | SheetsClear (spreadsheetId range : jsstring)
  | SheetsUpdate (spreadsheetId range : jsstring) (values : list (list Cell)).

Record World : Type := mkWorld {
  tariffsTable : list Row;            (* table box_tariffs *)
  spreadsheetsTable : list jsstring;  (* table spreadsheets: spreadsheet_id *)
  collector : MetricsCollector;       (* the metricsCollector singleton *)
  clock : Z;                          (* what Date.now() reads *)
  trace : list Event                  (* oldest first *)
}.

Inductive Outcome (A : Type) : Type :=
  | Return (a : A)
  | Throw (e : Err).
Arguments Return {A} a.
Arguments Throw {A} e.

(** A computation runs in a world and either returns or throws; the world
    it leaves behind is kept in both cases. *)
Definition M (A : Type) : Type := World -> Outcome A * World.

Definition ret {A : Type} (a : A) : M A := fun w => (Return a, w).

Definition throw {A : Type} (e : Err) : M A := fun w => (Throw e, w).

Definition bind {A B : Type} (m : M A) (k : A -> M B) : M B :=
  fun w =>
    match m w with
    | (Return a, w') => k a w'
    | (Throw e, w') => (Throw e, w')
    end.

(** [try { m } catch (e) { h e }]. *)
Definition tryCatch {A : Type} (m : M A) (h : Err -> M A) : M A :=
  fun w =>
    match m w with
    | (Return a, w') => (Return a, w')
    | (Throw e, w') => h e w'
    end.

(** [Promise.allSettled] on one promise: the outcome as a value. *)
Definition settle {A : Type} (m : M A) : M (Outcome A) :=
  fun w => let (o, w') := m w in (Return o, w').

Definition getWorld : M World := fun w => (Return w, w).

Definition modifyWorld (f : World -> World) : M unit :=
  fun w => (Return tt, f w).

(** The world with more events at the end of its trace. *)
Definition record (evs : list Event) (w : World) : World :=
  mkWorld (tariffsTable w) (spreadsheetsTable w) (collector w) (clock w)
          (trace w ++ evs).

Definition emit (e : Event) : M unit := modifyWorld (record [e]).

Definition log (lg : Logger) (lvl : Level) (msg : jsstring) : M unit :=
  emit (Log lg lvl msg None).

Definition logWith (lg : Logger) (lvl : Level) (msg : jsstring) (e : Err)
  : M unit :=
  emit (Log lg lvl msg (Some e)).

(** [Date.now()]. *)
Definition dateNow : M Z := fun w => (Return (clock w), w).

(** [await sleep(ms)]: the timer is recorded and the clock moves on. *)
Definition sleep (ms : Z) : M unit :=
  bind (emit (Sleep ms))
       (fun _ => modifyWorld (fun w =>
          mkWorld (tariffsTable w) (spreadsheetsTable w) (collector w)
                  (clock w + ms)%Z (trace w))).

(** The world with another tariffs table, or another collector. *)
Definition withTable (t : list Row) (w : World) : World :=
  mkWorld t (spreadsheetsTable w) (collector w) (clock w) (trace w).

Definition withCollector (c : MetricsCollector) (w : World) : World :=
  mkWorld (tariffsTable w) (spreadsheetsTable w) c (clock w) (trace w).

Definition setTariffsTable (t : list Row) : M unit :=
  modifyWorld (withTable t).

Definition setCollector (c : MetricsCollector) : M unit :=
  modifyWorld (withCollector c).

(** [arr.map((x, index) => f(x, index))] for an effectful callback that
    may throw: elements are visited in order, the first throw ends it. *)
Fixpoint mapMi {A B : Type} (f : nat -> A -> M B) (i : nat) (l : list A)
  : M (list B) :=
  match l with
  | [] => ret []
  | x :: r =>
      bind (f i x) (fun y =>
      bind (mapMi f (S i) r) (fun ys => ret (y :: ys)))
  end.

Module Notations.
  Notation "x <- m ;; k" := (bind m (fun x => k))
    (at level 61, m at next level, right associativity).
  Notation "m ;;; k" := (bind m (fun _ => k))
    (at level 61, right associativity).
End Notations.

End Eff.

Export Eff.
Import Eff.Notations.

(* ===================================================================== *)
(** * utils/validators.ts *)
(* ===================================================================== *)

Module Validators.

(** [/^\d{4}-\d{2}-\d{2}$/.test(s)]. *)
Definition matchesDateFormat (s : jsstring) : bool :=
  match s with
  | [y1; y2; y3; y4; d1; m1; m2; d2; a1; a2] =>
      forallb isDigit [y1; y2; y3; y4; m1; m2; a1; a2]
      && N.eqb d1 45 && N.eqb d2 45
  | _ => false
  end.

(** [validateDate].  Whether [new Date(date)] is a valid date is decided by
    the engine; [dateParses] is its answer. *)
Definition validateDate (dateParses : jsstring -> bool) (d : jsstring)
  : M unit :=
  if negb (truthy d) then
    throw (newValidationError (js "Date must be a non-empty string"))
  else if negb (matchesDateFormat d) then
    throw (newValidationError
             (js "Invalid date format: " ++ d ++ js ". Expected YYYY-MM-DD"))
  else if negb (dateParses d) then
    throw (newValidationError (js "Invalid date value: " ++ d))
  else ret tt.

(** [validateSpreadsheetId]. *)
Definition validateSpreadsheetId (spreadsheetId : jsstring) : M unit :=
  if negb (truthy spreadsheetId) then
    throw (newValidationError (js "Spreadsheet ID must be a non-empty string"))
  else if List.length (trim spreadsheetId) =? 0 then
    throw (newValidationError (js "Spreadsheet ID cannot be empty"))
  else if List.length spreadsheetId <? 20 then
    throw (newValidationError
             (js "Spreadsheet ID seems too short: " ++ spreadsheetId))
  else ret tt.

(** [validateWarehouseName]. *)
Definition validateWarehouseName (name : jsstring) : M unit :=
  if negb (truthy name) then
    throw (newValidationError (js "Warehouse name must be a non-empty string"))
  else
    let trimmed := trim name in
    if List.length trimmed =? 0 then
      throw (newValidationError (js "Warehouse name cannot be empty"))
    else if Config.MAX_WAREHOUSE_NAME_LENGTH <? List.length trimmed then
      throw (newValidationError
               (js "Warehouse name too long (max "
                ++ natToString Config.MAX_WAREHOUSE_NAME_LENGTH
                ++ js " chars)"))
    else ret tt.

End Validators.

Export Validators.

(* ===================================================================== *)
(** * Retry loop shared by services/wbApi.ts and services/googleSheets.ts *)
(* ===================================================================== *)

Module Retry.

(** Both services contain the same loop,

      for (let attempt = 1; attempt <= this.maxRetries; attempt++) {
        try { <op>; <log success>; return ...; }
        catch (error) {
          lastError = error; logger.warn(<failure message>);
          if (attempt < this.maxRetries) {
            const delay = this.retryDelay * attempt;
            logger.info(`Retrying in ${delay}ms...`); await this.sleep(delay);
          } } }

    which differs only in the operation and in the texts logged.  [remaining]
    is the number of iterations still allowed by the loop test, that is
    [maxRetries + 1 - attempt].  The result is the value returned from
    inside the loop, or [lastError] once the loop test fails. *)
Fixpoint retryLoop {A : Type} (lg : Logger)
    (op : nat -> M A) (onSuccess : A -> M unit)
    (failureText : nat -> Err -> jsstring)
    (maxRetries : nat) (retryDelay : Z)
    (remaining attempt : nat) (lastError : option Err)
  : M (A + option Err) :=
  match remaining with
  | O => ret (inr lastError)
  | S remaining' =>
      r <- settle (a <- op attempt ;; onSuccess a ;;; ret a) ;;
      match r with
      | Return a => ret (inl a)
      | Throw error =>
          log lg LvWarn (failureText attempt error) ;;;
          (if attempt <? maxRetries then
             let delay := (retryDelay * Z.of_nat attempt)%Z in
             log lg LvInfo (js "Retrying in " ++ zToString delay ++ js "ms...") ;;;
             sleep delay
           else ret tt) ;;;
          retryLoop lg op onSuccess failureText maxRetries retryDelay
                    remaining' (S attempt) (Some error)
      end
  end.

(** [`${lastError?.message}`]. *)
Definition lastMessage (lastError : option Err) : jsstring :=
  match lastError with
  | Some e => message e
  | None => js "undefined"
  end.

End Retry.

Export Retry.

(* ===================================================================== *)
(** * services/wbApi.ts *)
(* ===================================================================== *)

Module WBApi.

(** What one HTTP request comes to. *)
Inductive HttpOutcome : Type :=
  | HttpJson (warehouseList : option (list WBWarehouseTariff))
      (* a 2xx answer with a JSON body; [None] when
         [data?.response?.data?.warehouseList] is missing *)
  | HttpStatus (status : Z) (errorText statusText : jsstring)
      (* [!response.ok] *)
  | HttpAborted
      (* the abort controller fired: an error named AbortError *)
  | HttpFailed (msg : jsstring).
      (* fetch, [text()] or [json()] threw something else *)

Record Service : Type := mkService {
  maxRetries : nat;
  retryDelay : Z
}.

Definition defaultService : Service :=
  mkService Config.API_MAX_RETRIES Config.API_RETRY_DELAY.

(** [fetchWithTimeout]. *)
Definition fetchWithTimeout (answer : HttpOutcome) (d : jsstring)
  : M (list WBWarehouseTariff) :=
  emit (HttpGet d) ;;;
  match answer with
  | HttpStatus status errorText statusText =>
      throw (newWBApiError
               (js "HTTP " ++ zToString status ++ js ": "
                ++ (if truthy errorText then errorText else statusText))
               status)
  | HttpJson None =>
      throw (newWBApiError (js "Invalid response structure from WB API") 500)
  | HttpJson (Some l) => ret l
  | HttpAborted =>
      throw (newWBApiError
               (js "Request timeout after "
                ++ zToString Config.API_REQUEST_TIMEOUT ++ js "ms") 408)
  | HttpFailed msg =>
      throw (newWBApiError (js "Network error: " ++ msg) 503)
  end.

(** [fetchBoxTariffs]; [http n] is what the [n]-th request of this call
    comes to. *)
Definition fetchBoxTariffs (svc : Service) (dateParses : jsstring -> bool)
    (http : nat -> HttpOutcome) (d : jsstring)
  : M (list WBWarehouseTariff) :=
  validateDate dateParses d ;;;
  log LApi LvInfo (js "Fetching box tariffs for date: " ++ d) ;;;
  r <- retryLoop LApi
         (fun attempt => fetchWithTimeout (http attempt) d)
         (fun tariffs =>
            log LApi LvInfo
              (js "Successfully fetched " ++ natToString (List.length tariffs)
               ++ js " tariffs for " ++ d))
         (fun attempt lastError =>
            js "Attempt " ++ natToString attempt ++ js "/"
            ++ natToString (maxRetries svc) ++ js " failed for date " ++ d
            ++ js ": " ++ message lastError)
         (maxRetries svc) (retryDelay svc) (maxRetries svc) 1 None ;;
  match r with
  | inl tariffs => ret tariffs
  | inr lastError =>
      let errorMessage :=
        js "Failed to fetch tariffs after " ++ natToString (maxRetries svc)
        ++ js " attempts: " ++ lastMessage lastError in
      log LApi LvError errorMessage ;;;
      throw (newWBApiError errorMessage 503)
  end.

(** [validateAndTrim]. *)
Definition validateAndTrim (value fieldName : jsstring) (maxLength : nat)
  : M jsstring :=
  if negb (truthy value) then
    throw (newValidationError (fieldName ++ js " must be a non-empty string"))
  else
    let trimmed := trim value in
    if List.length trimmed =? 0 then
      throw (newValidationError
               (fieldName ++ js " cannot be empty or whitespace only"))
    else if maxLength <? List.length trimmed then
      log LApi LvWarn
        (fieldName ++ js " exceeds max length (" ++ natToString maxLength
         ++ js "), truncating: " ++ substring0 50 trimmed ++ js "...") ;;;
      ret (substring0 maxLength trimmed)
    else ret trimmed.

(** [parseValue]. *)
Definition parseValue (value : jsstring) : option jsstring :=
  if negb (truthy value) || str_eqb value (js "-") then None
  else Some (trim value).

(** [parseCoefficient]. *)
Definition parseCoefficient (value : jsstring) : M (option Z) :=
  if negb (truthy value) || str_eqb value (js "-") then ret None
  else
    match parseInt10 value with
    | None =>
        log LApi LvWarn (js "Invalid coefficient value, using null: " ++ value) ;;;
        ret None
    | Some parsed => ret (Some parsed)
    end.

(** The callback of [tariffs.map] in [transformToDbFormat]; the properties
    of the object literal are evaluated in the order written. *)
Definition transformOne (d : jsstring) (index : nat)
    (tariff : WBWarehouseTariff) : M BoxTariff :=
  tryCatch
    (wn <- validateAndTrim (warehouseName tariff) (js "warehouseName")
             Config.MAX_WAREHOUSE_NAME_LENGTH ;;
     gn <- (if truthy (geoName tariff)
            then g <- validateAndTrim (geoName tariff) (js "geoName")
                        Config.MAX_GEO_NAME_LENGTH ;;
                 ret (Some g)
            else ret None) ;;
     let db := parseValue (boxDeliveryBase tariff) in
     let dl := parseValue (boxDeliveryLiter tariff) in
     dc <- parseCoefficient (boxDeliveryCoefExpr tariff) ;;
     let mb := parseValue (boxDeliveryMarketplaceBase tariff) in
     let ml := parseValue (boxDeliveryMarketplaceLiter tariff) in
     mc <- parseCoefficient (boxDeliveryMarketplaceCoefExpr tariff) ;;
     let sb := parseValue (boxStorageBase tariff) in
     let sl := parseValue (boxStorageLiter tariff) in
     sc <- parseCoefficient (boxStorageCoefExpr tariff) ;;
     ret (mkBoxTariff d wn gn db dl dc mb ml mc sb sl sc))
    (fun error =>
       logWith LApi LvError
         (js "Failed to transform tariff at index " ++ natToString index
          ++ js ":") error ;;;
       throw error).

(** [transformToDbFormat]. *)
Definition transformToDbFormat (tariffs : list WBWarehouseTariff)
    (d : jsstring) : M (list BoxTariff) :=
  log LApi LvDebug
    (js "Transforming " ++ natToString (List.length tariffs)
     ++ js " tariffs to database format") ;;;
  mapMi (transformOne d) 0 tariffs.

End WBApi.

(* ===================================================================== *)
(** * repositories/tariffRepository.ts *)
(* ===================================================================== *)

Module Repository.

(** What PostgreSQL answers during one call of [upsertTariffs]: each field
    is the error of a failing step, if it fails.  [chunkFails n chunk] is
    about the [n]-th INSERT statement (counted from 0). *)
Record DbFaults : Type := mkDbFaults {
  beginFails : option Err;
  chunkFails : nat -> list BoxTariff -> option Err;
  commitFails : option Err;
  rollbackFails : option Err
}.

Definition noFaults : DbFaults :=
  mkDbFaults None (fun _ _ => None) None None.

Definition chunkSize : nat := 500.

(** The conflict target [onConflict(["date", "warehouse_name"])].  The
    dates are compared as the texts that the rows show: PostgreSQL compares
    the days, which is the same on ISO texts ([DayFacts.sameDayKey_sameKey])
    and differs on other spellings of a day (2025-1-20). *)
Definition sameKey (a b : BoxTariff) : bool :=
  str_eqb (date a) (date b) && str_eqb (warehouse_name a) (warehouse_name b).

(** The [merge] clause: the listed columns take the proposed (EXCLUDED)
    values; the key columns and [created_at] are not listed and stay. *)
Definition mergeRow (now : Z) (old : Row) (excluded : BoxTariff) : Row :=
  mkRow
    (mkBoxTariff
       (date (row_tariff old))
       (warehouse_name (row_tariff old))
       (geo_name excluded)
       (box_delivery_base excluded)
       (box_delivery_liter excluded)
       (box_delivery_coef excluded)
       (box_delivery_marketplace_base excluded)
       (box_delivery_marketplace_liter excluded)
       (box_delivery_marketplace_coef excluded)
       (box_storage_base excluded)
       (box_storage_liter excluded)
       (box_storage_coef excluded))
    (created_at old)
    now.

(** INSERT ... ON CONFLICT (date, warehouse_name) DO UPDATE for one
    proposed row carrying [updated_at = now].  The proposed values are kept
    as they are passed; PostgreSQL holds them unchanged when they are
    [Spec.storable] (a lone surrogate, for one, is written as U+FFFD). *)
Fixpoint upsertRow (now : Z) (t : BoxTariff) (table : list Row) : list Row :=
  match table with
  | [] => [mkRow t now now]
  | r :: rest =>
      if sameKey (row_tariff r) t then mergeRow now r t :: rest
      else r :: upsertRow now t rest
  end.

(** One INSERT statement that goes through. *)
Definition insertChunk (now : Z) (chunk : list BoxTariff) (table : list Row)
  : list Row :=
  fold_left (fun tb t => upsertRow now t tb) chunk table.

(** The chunk loop [for (let i = 0; i < n; i += chunkSize)] on the
    transaction's view [work] of the table.  [fuel] bounds the number of
    iterations; the caller passes the number of rows, which is enough. *)
Fixpoint chunkLoop (faults : DbFaults) (now : Z) (all : list BoxTariff)
    (fuel i : nat) (work : list Row) : M (list Row) :=
  match fuel with
  | O => ret work
  | S fuel' =>
      if i <? List.length all then
        let chunk := slice i (i + chunkSize) all in
        match chunkFails faults (i / chunkSize) chunk with
        | Some e => throw e
        | None =>
            log LDatabase LvDebug
              (js "Processed chunk " ++ natToString (i / chunkSize + 1)
               ++ js "/"
               ++ natToString ((List.length all + (chunkSize - 1)) / chunkSize)) ;;;
            chunkLoop faults now all fuel' (i + chunkSize)
                      (insertChunk now chunk work)
        end
      else ret work
  end.

(** [upsertTariffs].  The statements of the transaction act on its own
    view of the table; the table of the world changes at commit only. *)
Definition upsertTariffs (faults : DbFaults) (tariffs : list BoxTariff)
  : M unit :=
  if List.length tariffs =? 0 then
    log LDatabase LvWarn (js "Attempted to upsert empty tariffs array")
  else
    log LDatabase LvInfo
      (js "Upserting " ++ natToString (List.length tariffs) ++ js " tariffs") ;;;
    now <- dateNow ;;
    match beginFails faults with
    | Some e => throw e
    | None =>
        w <- getWorld ;;
        tryCatch
          (work <- chunkLoop faults now tariffs (List.length tariffs) 0
                     (tariffsTable w) ;;
           match commitFails faults with
           | Some e => throw e
           | None =>
               setTariffsTable work ;;;
               log LDatabase LvInfo
                 (js "Successfully upserted "
                  ++ natToString (List.length tariffs) ++ js " tariffs")
           end)
          (fun error =>
             match rollbackFails faults with
             | Some e => throw e
             | None =>
                 log LDatabase LvError
                   (js "Failed to upsert tariffs: " ++ message error) ;;;
                 throw (newDatabaseError
                          (js "Failed to upsert tariffs: " ++ message error))
             end)
    end.

(** The selected columns. *)
Definition exportRow (r : Row) : TariffExportRow :=
  let t := row_tariff r in
  mkExport (warehouse_name t) (geo_name t) (box_delivery_coef t)
           (box_delivery_base t) (box_delivery_liter t)
           (box_storage_coef t) (box_storage_base t) (box_storage_liter t).

(** Comparison of two rows under
    ORDER BY box_delivery_coef ASC NULLS LAST, warehouse_name ASC.
    [collate a b] says that name [a] sorts before or with [b] in the
    collation of the database. *)
Definition orderLe (collate : jsstring -> jsstring -> bool)
    (a b : TariffExportRow) : bool :=
  match x_box_delivery_coef a, x_box_delivery_coef b with
  | Some x, Some y =>
      (x <? y)%Z || ((x =? y)%Z && collate (x_warehouse_name a) (x_warehouse_name b))
  | Some _, None => true
  | None, Some _ => false
  | None, None => collate (x_warehouse_name a) (x_warehouse_name b)
  end.

Fixpoint insertSorted (le : TariffExportRow -> TariffExportRow -> bool)
    (x : TariffExportRow) (l : list TariffExportRow) : list TariffExportRow :=
  match l with
  | [] => [x]
  | y :: r => if le x y then x :: l else y :: insertSorted le x r
  end.

(** The ORDER BY clause, as an insertion sort. *)
Definition orderBy (le : TariffExportRow -> TariffExportRow -> bool)
    (l : list TariffExportRow) : list TariffExportRow :=
  fold_right (insertSorted le) [] l.

(** The SELECT of [getTariffsByDate] on a table.  [where({ date })] is
    read on the date texts that the rows show: these are the rows of the day
    when [d] and the stored dates are ISO texts ([ReadBack.rows_of_day]). *)
Definition selectByDate (collate : jsstring -> jsstring -> bool)
    (d : jsstring) (table : list Row) : list TariffExportRow :=
  orderBy (orderLe collate)
    (List.map exportRow
       (List.filter (fun r => str_eqb (date (row_tariff r)) d) table)).

(** [getTariffsByDate]; [queryFails] is the error of the query, if any. *)
Definition getTariffsByDate (queryFails : option Err)
    (collate : jsstring -> jsstring -> bool) (d : jsstring)
  : M (list TariffExportRow) :=
  tryCatch
    (log LDatabase LvDebug (js "Fetching tariffs for date: " ++ d) ;;;
     match queryFails with
     | Some e => throw e
     | None =>
         w <- getWorld ;;
         let tariffs := selectByDate collate d (tariffsTable w) in
         log LDatabase LvInfo
           (js "Found " ++ natToString (List.length tariffs)
            ++ js " tariffs for date " ++ d) ;;;
         ret tariffs
     end)
    (fun error =>
       log LDatabase LvError
         (js "Failed to fetch tariffs for date " ++ d ++ js ": "
          ++ message error) ;;;
       throw (newDatabaseError
                (js "Failed to fetch tariffs for date " ++ d ++ js ": "
                 ++ message error))).

(** [getTariffCountByDate]; [queryFails] is the error of the query, if any.
    PostgreSQL counts in bigint, which the driver hands over as a decimal
    string; [parseInt] without a radix reads such a string in base 10, and
    [|| 0] turns [NaN] (and 0) into 0. *)
Definition getTariffCountByDate (queryFails : option Err) (d : jsstring)
  : M Z :=
  tryCatch
    (match queryFails with
     | Some e => throw e
     | None =>
         w <- getWorld ;;
         let result_count :=
           natToString
             (List.length
                (List.filter (fun r => str_eqb (date (row_tariff r)) d)
                             (tariffsTable w))) in
         let count :=
           match parseInt10 result_count with
           | Some n => n
           | None => 0%Z
           end in
         log LDatabase LvDebug
           (js "Found " ++ zToString count ++ js " tariffs for date " ++ d) ;;;
         ret count
     end)
    (fun error =>
       log LDatabase LvError
         (js "Failed to count tariffs for date " ++ d ++ js ": "
          ++ message error) ;;;
       throw (newDatabaseError
                (js "Failed to count tariffs for date " ++ d ++ js ": "
                 ++ message error))).

(** Code-unit lexicographic order, the order of a byte-wise collation on
    names without surrogate pairs. *)
Fixpoint codeUnitLe (a b : jsstring) : bool :=
  match a, b with
  | [], _ => true
  | _ :: _, [] => false
  | x :: a', y :: b' => N.ltb x y || (N.eqb x y && codeUnitLe a' b')
  end.

End Repository.

(* ===================================================================== *)
(** * services/googleSheets.ts *)
(* ===================================================================== *)

Module Sheets.

(** What the Sheets API answers to the two requests of one write: the
    error of [values.clear] and of [values.update], if they fail. *)
Record SheetsOutcome : Type := mkSheetsOutcome {
  clearFails : option Err;
  updateFails : option Err
}.

Definition sheetsOk : SheetsOutcome := mkSheetsOutcome None None.

Record Service : Type := mkService {
  maxRetries : nat;
  retryDelay : Z
}.

Definition defaultService : Service :=
  mkService Config.SHEETS_MAX_RETRIES Config.SHEETS_RETRY_DELAY.

(** The header row (Cyrillic captions, as code units). *)
Definition headers : list Cell :=
  List.map CStr
    [ [1057; 1082; 1083; 1072; 1076]%N;
      [1056; 1077; 1075; 1080; 1086; 1085]%N;
      [1050; 1086; 1101; 1092; 46; 32; 1076; 1086; 1089; 1090; 1072; 1074; 1082; 1080]%N;
      [1044; 1086; 1089; 1090; 1072; 1074; 1082; 1072; 32; 40; 1073; 1072; 1079; 1072; 41]%N;
      [1044; 1086; 1089; 1090; 1072; 1074; 1082; 1072; 32; 40; 1083; 1080; 1090; 1088; 41]%N;
      [1050; 1086; 1101; 1092; 46; 32; 1093; 1088; 1072; 1085; 1077; 1085; 1080; 1103]%N;
      [1061; 1088; 1072; 1085; 1077; 1085; 1080; 1077; 32; 40; 1073; 1072; 1079; 1072; 41]%N;
      [1061; 1088; 1072; 1085; 1077; 1085; 1080; 1077; 32; 40; 1083; 1080; 1090; 1088; 41]%N ].

(** [s || ""] on a nullable string. *)
Definition strOrEmpty (s : option jsstring) : Cell :=
  match s with Some v => CStr v | None => CStr [] end.

(** [n ?? ""] on a nullable number. *)
Definition numOrEmpty (n : option Z) : Cell :=
  match n with Some z => CNum z | None => CStr [] end.

Definition dataRow (t : TariffExportRow) : list Cell :=
  [ CStr (x_warehouse_name t);
    strOrEmpty (x_geo_name t);
    numOrEmpty (x_box_delivery_coef t);
    strOrEmpty (x_box_delivery_base t);
    strOrEmpty (x_box_delivery_liter t);
    numOrEmpty (x_box_storage_coef t);
    strOrEmpty (x_box_storage_base t);
    strOrEmpty (x_box_storage_liter t) ].

(** [updateSpreadsheetInternal]. *)
Definition updateSpreadsheetInternal (answer : SheetsOutcome)
    (spreadsheetId : jsstring) (tariffs : list TariffExportRow) : M unit :=
  let sheetName := Config.SHEETS_SHEET_NAME in
  let values := headers :: List.map dataRow tariffs in
  tryCatch
    (emit (SheetsClear spreadsheetId (sheetName ++ js "!A:H")) ;;;
     match clearFails answer with
     | Some e => throw e
     | None =>
         emit (SheetsUpdate spreadsheetId (sheetName ++ js "!A1") values) ;;;
         match updateFails answer with
         | Some e => throw e
         | None => ret tt
         end
     end)
    (fun error =>
       match code error with
       | Some 404%Z =>
           throw (newGoogleSheetsError
                    (js "Spreadsheet " ++ spreadsheetId
                     ++ js " not found or sheet " ++ [34%N] ++ sheetName
                     ++ [34%N] ++ js " does not exist"))
       | Some 403%Z =>
           throw (newGoogleSheetsError
                    (js "Permission denied for spreadsheet " ++ spreadsheetId
                     ++ js ". Ensure service account has editor access"))
       | _ =>
           throw (newGoogleSheetsError
                    (js "Failed to update spreadsheet: " ++ message error))
       end).

(** [updateSpreadsheet]; [api n] is what the Sheets API answers to the
    [n]-th attempt of this call. *)
Definition updateSpreadsheet (svc : Service) (api : nat -> SheetsOutcome)
    (spreadsheetId : jsstring) (tariffs : list TariffExportRow) : M unit :=
  validateSpreadsheetId spreadsheetId ;;;
  log LSheets LvInfo
    (js "Updating spreadsheet " ++ spreadsheetId ++ js " with "
     ++ natToString (List.length tariffs) ++ js " tariffs") ;;;
  r <- retryLoop LSheets
         (fun attempt =>
            updateSpreadsheetInternal (api attempt) spreadsheetId tariffs)
         (fun _ =>
            log LSheets LvInfo
              (js "Successfully updated spreadsheet " ++ spreadsheetId))
         (fun attempt lastError =>
            js "Attempt " ++ natToString attempt ++ js "/"
            ++ natToString (maxRetries svc) ++ js " failed for spreadsheet "
            ++ spreadsheetId ++ js ": " ++ message lastError)
         (maxRetries svc) (retryDelay svc) (maxRetries svc) 1 None ;;
  match r with
  | inl _ => ret tt
  | inr lastError =>
      let errorMessage :=
        js "Failed to update spreadsheet " ++ spreadsheetId ++ js " after "
        ++ natToString (maxRetries svc) ++ js " attempts: "
        ++ lastMessage lastError in
      log LSheets LvError errorMessage ;;;
      throw (newGoogleSheetsError errorMessage)
  end.

(** [getSpreadsheetIds]; [queryFails] is the error of the query, if any. *)
Definition getSpreadsheetIds (queryFails : option Err) : M (list jsstring) :=
  tryCatch
    (match queryFails with
     | Some e => throw e
     | None =>
         w <- getWorld ;;
         let rows := spreadsheetsTable w in
         log LSheets LvDebug
           (js "Found " ++ natToString (List.length rows)
            ++ js " registered spreadsheets") ;;;
         ret rows
     end)
    (fun error =>
       logWith LSheets LvError
         (js "Failed to fetch spreadsheet IDs from database:") error ;;;
       throw (newGoogleSheetsError
                (js "Failed to fetch spreadsheet IDs: " ++ message error))).

(** [Promise.allSettled(spreadsheetIds.map(id => updateSpreadsheet(id, ..)))].
    The writes share nothing but the trace, so they are run one after the
    other here; the array of results is in the order of the ids either
    way. *)
Fixpoint settleAll (svc : Service) (api : jsstring -> nat -> SheetsOutcome)
    (ids : list jsstring) (tariffs : list TariffExportRow)
  : M (list (Outcome unit)) :=
  match ids with
  | [] => ret []
  | id :: rest =>
      o <- settle (updateSpreadsheet svc (api id) id tariffs) ;;
      os <- settleAll svc api rest tariffs ;;
      ret (o :: os)
  end.

(** The [results.forEach] loop with its two counters. *)
Fixpoint tally (ids : list jsstring) (results : list (Outcome unit))
    (successCount failureCount : nat) : M (nat * nat) :=
  match ids, results with
  | spreadsheetId :: ids', result :: results' =>
      match result with
      | Return _ =>
          log LSheets LvInfo
            ([10003%N] ++ js " Successfully updated spreadsheet: "
             ++ spreadsheetId) ;;;
          tally ids' results' (S successCount) failureCount
      | Throw reason =>
          log LSheets LvError
            ([10007%N] ++ js " Failed to update spreadsheet " ++ spreadsheetId
             ++ js ": " ++ errToString reason) ;;;
          tally ids' results' successCount (S failureCount)
      end
  | _, _ => ret (successCount, failureCount)
  end.

Definition summaryText (successCount failureCount total : nat) : jsstring :=
  js "Spreadsheet update summary: " ++ natToString successCount
  ++ js " successful, " ++ natToString failureCount ++ js " failed out of "
  ++ natToString total ++ js " total".

(** [updateAllSpreadsheets]. *)
Definition updateAllSpreadsheets (svc : Service) (idsQueryFails : option Err)
    (api : jsstring -> nat -> SheetsOutcome) (tariffs : list TariffExportRow)
  : M unit :=
  log LSheets LvInfo
    (js "Starting update for all spreadsheets with "
     ++ natToString (List.length tariffs) ++ js " tariffs") ;;;
  spreadsheetIds <- getSpreadsheetIds idsQueryFails ;;
  if List.length spreadsheetIds =? 0 then
    log LSheets LvWarn (js "No spreadsheets registered in database")
  else
    results <- settleAll svc api spreadsheetIds tariffs ;;
    counts <- tally spreadsheetIds results 0 0 ;;
    let (successCount, failureCount) := counts in
    log LSheets LvInfo
      (summaryText successCount failureCount (List.length spreadsheetIds)) ;;;
    if failureCount =? List.length spreadsheetIds then
      throw (newGoogleSheetsError (js "All spreadsheet updates failed"))
    else ret tt.

End Sheets.

(* ===================================================================== *)
(** * postgres/seeds/spreadsheets.js *)
(* ===================================================================== *)

Module Seeds.





End Seeds.

(* ===================================================================== *)
(** * utils/metrics.ts *)
(* ===================================================================== *)

Module Metrics.

(** Dereferencing a reference that points nowhere does not happen: the
    references in [metrics] are handed out by [startSync]. *)
Definition noMetric : SyncMetrics := mkMetric 0 None None 0 0 0 false None.

Definition deref (c : MetricsCollector) (h : nat) : SyncMetrics :=
  nth h (objects c) noMetric.

(** Assignment to fields of the object behind reference [h]. *)
Fixpoint updateObject (h : nat) (f : SyncMetrics -> SyncMetrics)
    (objs : list SyncMetrics) : list SyncMetrics :=
  match objs, h with
  | [], _ => []
  | m :: rest, O => f m :: rest
  | m :: rest, S h' => m :: updateObject h' f rest
  end.

Definition mutate (h : nat) (f : SyncMetrics -> SyncMetrics)
    (c : MetricsCollector) : MetricsCollector :=
  mkCollector (updateObject h f (objects c)) (metrics c).

(** [startSync]: returns the reference to the new object. *)
Definition startSync (now : Z) (c : MetricsCollector)
  : nat * MetricsCollector :=
  let metric := mkMetric now None None 0 0 0 false None in
  let h := List.length (objects c) in
  let pushed := metrics c ++ [h] in
  let kept :=
    if maxHistory <? List.length pushed then tl pushed else pushed in
  (h, mkCollector (objects c ++ [metric]) kept).

(** [completeSync]. *)
Definition completeSync (now : Z) (h : nat) (ok : bool) (err : option Err)
    (c : MetricsCollector) : MetricsCollector :=
  mutate h
    (fun m =>
       mkMetric (startTime m) (Some now) (Some (now - startTime m)%Z)
                (fetchedCount m) (savedCount m) (exportedCount m) ok
                (match err with
                 | Some e => Some (message e)
                 | None => error m
                 end))
    c.

(** The array [this.metrics], dereferenced. *)
Definition history (c : MetricsCollector) : list SyncMetrics :=
  List.map (deref c) (metrics c).

(** [getRecentMetrics(count)] is [this.metrics.slice(-count)]. *)
Definition getRecentMetrics (count : Z) (c : MetricsCollector)
  : list SyncMetrics :=
  sliceFrom (- count) (history c).

(** [getSuccessRate], over the rationals (the engine computes the same
    quotient in double precision). *)
Definition getSuccessRate (c : MetricsCollector) : Q :=
  if List.length (metrics c) =? 0 then 0%Q
  else
    let successCount := List.length (List.filter success (history c)) in
    ((Z.of_nat successCount # Pos.of_nat (List.length (metrics c))) * 100)%Q.

(** [getAverageDuration]. *)
Definition getAverageDuration (c : MetricsCollector) : Q :=
  let completed :=
    List.filter (fun m => match duration m with Some _ => true | None => false end)
                (history c) in
  if List.length completed =? 0 then 0%Q
  else
    let totalDuration :=
      fold_left (fun sum m => (sum + match duration m with
                                     | Some d => d
                                     | None => 0
                                     end)%Z) completed 0%Z in
    (totalDuration # Pos.of_nat (List.length completed))%Q.

(** The same operations on the singleton of the world. *)
Definition startSyncM : M nat :=
  now <- dateNow ;;
  w <- getWorld ;;
  let (h, c) := startSync now (collector w) in
  setCollector c ;;;
  ret h.

Definition completeSyncM (h : nat) (ok : bool) (err : option Err) : M unit :=
  now <- dateNow ;;
  w <- getWorld ;;
  setCollector (completeSync now h ok err (collector w)).

Definition readMetric (h : nat) : M SyncMetrics :=
  w <- getWorld ;;
  ret (deref (collector w) h).

Definition setFetchedCount (h n : nat) : M unit :=
  w <- getWorld ;;
  setCollector
    (mutate h (fun m => mkMetric (startTime m) (endTime m) (duration m) n
                          (savedCount m) (exportedCount m) (success m) (error m))
            (collector w)).

Definition setSavedCount (h n : nat) : M unit :=
  w <- getWorld ;;
  setCollector
    (mutate h (fun m => mkMetric (startTime m) (endTime m) (duration m)
                          (fetchedCount m) n (exportedCount m) (success m)
                          (error m))
            (collector w)).

Definition setExportedCount (h n : nat) : M unit :=
  w <- getWorld ;;
  setCollector
    (mutate h (fun m => mkMetric (startTime m) (endTime m) (duration m)
                          (fetchedCount m) (savedCount m) n (success m)
                          (error m))
            (collector w)).

End Metrics.

(* ===================================================================== *)
(** * services/tariffSync.ts *)
(* ===================================================================== *)

Module Sync.

(** What surrounds one run of [syncTariffs]. *)
Record Env : Type := mkEnv {
  today : jsstring;                   (* getTodayDate() *)
  dateParses : jsstring -> bool;      (* is [new Date(s)] a valid date *)
  http : nat -> WBApi.HttpOutcome;    (* the answers of the tariffs API *)
  upsertFaults : Repository.DbFaults; (* PostgreSQL during the upsert *)
  readFails : option Err;             (* the error of the read-back query *)
  collate : jsstring -> jsstring -> bool;   (* collation of warehouse_name *)
  idsQueryFails : option Err;         (* the error of the registry query *)
  sheetsApi : jsstring -> nat -> Sheets.SheetsOutcome;
  toFixed : nat -> Q -> jsstring      (* Number.prototype.toFixed *)
}.

Definition rule : jsstring := repeat 61%N 60.   (* "=".repeat(60) *)

(** [(metric.duration! / 1000).toFixed(2)]. *)
Definition durationText (env : Env) (m : SyncMetrics) : jsstring :=
  match duration m with
  | Some d => toFixed env 2 (d # 1000)%Q
  | None => js "NaN"
  end.

Definition check : jsstring := [10003%N].

(** [syncTariffs]. *)
Definition syncTariffs (env : Env) : M unit :=
  let today := today env in
  metric <- Metrics.startSyncM ;;
  log LSync LvInfo rule ;;;
  log LSync LvInfo (js "Starting tariff sync for date: " ++ today) ;;;
  log LSync LvInfo rule ;;;
  tryCatch
    (log LSync LvInfo (js "[1/3] Fetching tariffs from WB API...") ;;;
     rawTariffs <- WBApi.fetchBoxTariffs WBApi.defaultService
                     (dateParses env) (http env) today ;;
     Metrics.setFetchedCount metric (List.length rawTariffs) ;;;
     m1 <- Metrics.readMetric metric ;;
     log LSync LvInfo
       (check ++ js " Fetched " ++ natToString (fetchedCount m1)
        ++ js " tariffs from WB API") ;;;
     if fetchedCount m1 =? 0 then
       log LSync LvWarn (js "No tariffs received from API - aborting sync") ;;;
       Metrics.completeSyncM metric true None
     else
       log LSync LvInfo (js "[2/3] Transforming and saving to database...") ;;;
       dbTariffs <- WBApi.transformToDbFormat rawTariffs today ;;
       Repository.upsertTariffs (upsertFaults env) dbTariffs ;;;
       Metrics.setSavedCount metric (List.length dbTariffs) ;;;
       m2 <- Metrics.readMetric metric ;;
       log LSync LvInfo
         (check ++ js " Saved " ++ natToString (savedCount m2)
          ++ js " tariffs to database") ;;;
       log LSync LvInfo (js "[3/3] Exporting to Google Sheets...") ;;;
       exportTariffs <- Repository.getTariffsByDate (readFails env)
                          (collate env) today ;;
       if List.length exportTariffs =? 0 then
         throw (newAppError
                  (js "No tariffs found in database after insert - data consistency issue"))
       else
         Sheets.updateAllSpreadsheets Sheets.defaultService
           (idsQueryFails env) (sheetsApi env) exportTariffs ;;;
         Metrics.setExportedCount metric (List.length exportTariffs) ;;;
         m3 <- Metrics.readMetric metric ;;
         log LSync LvInfo
           (check ++ js " Google Sheets updated with "
            ++ natToString (exportedCount m3) ++ js " tariffs") ;;;
         Metrics.completeSyncM metric true None ;;;
         m4 <- Metrics.readMetric metric ;;
         w <- getWorld ;;
         log LSync LvInfo rule ;;;
         log LSync LvInfo
           (js "Tariff sync completed successfully in "
            ++ durationText env m4 ++ js "s") ;;;
         log LSync LvInfo
           (js "Summary: Fetched " ++ natToString (fetchedCount m4)
            ++ js ", Saved " ++ natToString (savedCount m4)
            ++ js ", Exported " ++ natToString (exportedCount m4)) ;;;
         log LSync LvInfo
           (js "Success rate: "
            ++ toFixed env 1 (Metrics.getSuccessRate (collector w))
            ++ js "%, Avg duration: "
            ++ toFixed env 2
                 (Metrics.getAverageDuration (collector w) / 1000)%Q
            ++ js "s") ;;;
         log LSync LvInfo rule)
    (fun error =>
       Metrics.completeSyncM metric false (Some error) ;;;
       m <- Metrics.readMetric metric ;;
       log LSync LvError rule ;;;
       log LSync LvError
         (js "Tariff sync failed after " ++ durationText env m ++ js "s") ;;;
       log LSync LvError (js "Error: " ++ message error) ;;;
       log LSync LvError rule ;;;
       (if (0 <? fetchedCount m) || (0 <? savedCount m) then
          log LSync LvInfo
            (js "Partial success: Fetched " ++ natToString (fetchedCount m)
             ++ js ", Saved " ++ natToString (savedCount m))
        else ret tt) ;;;
       throw error).

End Sync.

(* ===================================================================== *)
(** * services/scheduler.ts *)
(* ===================================================================== *)

Module Scheduler.

(** The scheduler is driven from outside: by the cron library invoking the
    callback of a scheduled task, by a caller of [runImmediateSync], and by
    the promise of [tariffSyncService.syncTariffs()] settling.  Between two
    such inputs the code runs to its next [await] without interruption, so
    the service is a transition function on its fields.

    [inFlight] lists the calls of [syncTariffs] that have been made and
    have not settled yet (newest first); [started] numbers them. *)
Record State : Type := mkState {
  tasks : nat;              (* this.tasks.length *)
  syncInProgress : bool;    (* this.syncInProgress *)
  inFlight : list nat;
  started : nat;
  journal : list Event      (* what the scheduler logged, oldest first *)
}.

Definition initial : State := mkState 0 false [] 0 [].

Inductive Input : Type :=
  | StartHourlySync
  | CronFires
      (* the cron library invokes the callback of a scheduled task *)
  | RunImmediateSync
  | SyncSettles (run : nat) (result : option Err) (elapsed : jsstring)
      (* the promise of run [run] fulfils ([None]) or rejects; [elapsed]
         is the text of [((Date.now() - startTime) / 1000).toFixed(2)] *)
  | Stop.

Definition say (lvl : Level) (msg : jsstring) (attached : option Err)
    (s : State) : State :=
  mkState (tasks s) (syncInProgress s) (inFlight s) (started s)
          (journal s ++ [Log LScheduler lvl msg attached]).

(** [runSync] up to its [await]: the flag is raised and [syncTariffs] is
    called. *)
Definition runSyncBegin (s : State) : State :=
  mkState (tasks s) true (started s :: inFlight s) (S (started s)) (journal s).

(** [runSync] after its [await]: the [try] or the [catch] branch, then the
    [finally] block. *)
Definition runSyncEnd (run : nat) (result : option Err) (elapsed : jsstring)
    (s : State) : State :=
  let s1 :=
    match result with
    | None =>
        say LvInfo
          (js "Tariff sync completed successfully in " ++ elapsed ++ js "s")
          None s
    | Some e =>
        say LvError (js "Tariff sync failed after " ++ elapsed ++ js "s:")
            (Some e) s
    end in
  mkState (tasks s1) false
          (List.filter (fun r => negb (Nat.eqb r run)) (inFlight s1))
          (started s1) (journal s1).

(** The per-task loop of [stop]. *)
Fixpoint stopTasks (n index : nat) (s : State) : State :=
  match n with
  | O => s
  | S n' =>
      stopTasks n' (S index)
        (say LvDebug (js "Stopped task " ++ natToString (index + 1)) None s)
  end.

Definition step (s : State) (i : Input) : State :=
  match i with
  | StartHourlySync =>
      let s1 :=
        say LvInfo
          (js "Scheduling hourly sync with cron: " ++ Config.HOURLY_CRON)
          None s in
      let s2 :=
        mkState (S (tasks s1)) (syncInProgress s1) (inFlight s1) (started s1)
                (journal s1) in
      say LvInfo
        (js "Hourly tariff sync scheduled (timezone: " ++ Config.TIMEZONE
         ++ js ")") None s2
  | CronFires =>
      if tasks s =? 0 then s
      else if syncInProgress s then
        say LvWarn (js "Previous sync still in progress, skipping this run")
            None s
      else
        runSyncBegin (say LvInfo (js "Triggered scheduled tariff sync") None s)
  | RunImmediateSync =>
      runSyncBegin
        (say LvInfo (js "Running immediate tariff sync on startup") None s)
  | SyncSettles run result elapsed =>
      if existsb (Nat.eqb run) (inFlight s)
      then runSyncEnd run result elapsed s
      else s
  | Stop =>
      let s1 :=
        say LvInfo
          (js "Stopping " ++ natToString (tasks s) ++ js " scheduled task(s)")
          None s in
      let s2 := stopTasks (tasks s1) 0 s1 in
      say LvInfo (js "All scheduled tasks stopped") None
        (mkState 0 (syncInProgress s2) (inFlight s2) (started s2) (journal s2))
  end.

Definition run (s : State) (inputs : list Input) : State :=
  fold_left step inputs s.

(** [getStatus]. *)
Definition getStatus (s : State) : nat * bool := (tasks s, syncInProgress s).

End Scheduler.

(* ===================================================================== *)
(** * Vocabulary of the specification *)
(* ===================================================================== *)

Module Spec.

(** The sentinel of the source data: the token "-" or the empty value. *)
Definition isSentinel (v : jsstring) : Prop := v = js "-" \/ v = [].

(** A value is numeric for [parseInt] when, after leading white space and
    at most one sign, it starts with a decimal digit. *)
Inductive NumericPrefix : jsstring -> Prop :=
  | NumericPrefix_intro (ws sign : jsstring) (d : N) (rest : jsstring) :
      forallb isWhiteSpace ws = true ->
      (sign = [] \/ sign = js "-" \/ sign = js "+") ->
      isDigit d = true ->
      NumericPrefix (ws ++ sign ++ d :: rest).

(** An entry whose names pass [validateAndTrim]: the warehouse name has a
    character that is not white space, and so has the region name unless
    it is empty. *)
Definition namesPresent (t : WBWarehouseTariff) : Prop :=
  trim (warehouseName t) <> [] /\
  (geoName t = [] \/ trim (geoName t) <> []).

(** What the value fields of a record must be when the raw field is a
    sentinel, or a coefficient that is not numeric. *)
Definition absentWhere (t : WBWarehouseTariff) (r : BoxTariff) : Prop :=
  (isSentinel (boxDeliveryBase t) -> box_delivery_base r = None) /\
  (isSentinel (boxDeliveryLiter t) -> box_delivery_liter r = None) /\
  (isSentinel (boxDeliveryMarketplaceBase t) ->
     box_delivery_marketplace_base r = None) /\
  (isSentinel (boxDeliveryMarketplaceLiter t) ->
     box_delivery_marketplace_liter r = None) /\
  (isSentinel (boxStorageBase t) -> box_storage_base r = None) /\
  (isSentinel (boxStorageLiter t) -> box_storage_liter r = None) /\
  (isSentinel (boxDeliveryCoefExpr t) \/ ~ NumericPrefix (boxDeliveryCoefExpr t) ->
     box_delivery_coef r = None) /\
  (isSentinel (boxDeliveryMarketplaceCoefExpr t)
   \/ ~ NumericPrefix (boxDeliveryMarketplaceCoefExpr t) ->
     box_delivery_marketplace_coef r = None) /\
  (isSentinel (boxStorageCoefExpr t) \/ ~ NumericPrefix (boxStorageCoefExpr t) ->
     box_storage_coef r = None).

(** The value [parseCoefficient] returns, without its logging. *)
Definition coefficientOf (v : jsstring) : option Z :=
  if negb (truthy v) || str_eqb v (js "-") then None else parseInt10 v.

(** The record [transformOne] returns for an entry that passes, without
    its logging. *)
Definition normalized (d : jsstring) (t : WBWarehouseTariff) : BoxTariff :=
  mkBoxTariff d
    (substring0 Config.MAX_WAREHOUSE_NAME_LENGTH (trim (warehouseName t)))
    (if truthy (geoName t)
     then Some (substring0 Config.MAX_GEO_NAME_LENGTH (trim (geoName t)))
     else None)
    (WBApi.parseValue (boxDeliveryBase t))
    (WBApi.parseValue (boxDeliveryLiter t))
    (coefficientOf (boxDeliveryCoefExpr t))
    (WBApi.parseValue (boxDeliveryMarketplaceBase t))
    (WBApi.parseValue (boxDeliveryMarketplaceLiter t))
    (coefficientOf (boxDeliveryMarketplaceCoefExpr t))
    (WBApi.parseValue (boxStorageBase t))
    (WBApi.parseValue (boxStorageLiter t))
    (coefficientOf (boxStorageCoefExpr t)).

(** The warning of [validateAndTrim] for an over-long value. *)
Definition truncationWarning (fieldName : jsstring) (maxLength : nat)
    (trimmed : jsstring) : Event :=
  Log LApi LvWarn
    (fieldName ++ js " exceeds max length (" ++ natToString maxLength
     ++ js "), truncating: " ++ substring0 50 trimmed ++ js "...")
    None.

(** What [validateAndTrim] logs for a value that passes. *)
Definition truncationEvents (f : jsstring) (maxLength : nat) (v : jsstring)
  : list Event :=
  if maxLength <? List.length (trim v)
  then [truncationWarning f maxLength (trim v)] else [].

(** ** Retries *)

(** The delays slept in a stretch of the trace. *)
Definition sleepsOf (evs : list Event) : list Z :=
  flat_map (fun e => match e with Sleep ms => [ms] | _ => [] end) evs.

(** The requests sent to the tariffs API in a stretch of the trace. *)
Definition httpRequests (evs : list Event) : nat :=
  List.length
    (List.filter (fun e => match e with HttpGet _ => true | _ => false end)
                 evs).

(** The write attempts on a spreadsheet in a stretch of the trace (each
    attempt starts with a [clear]). *)
Definition sheetAttempts (evs : list Event) : nat :=
  List.length
    (List.filter (fun e => match e with SheetsClear _ _ => true | _ => false end)
                 evs).

(** The world after the events [evs]: they are in the trace and the clock
    has moved by the delays slept. *)
Definition advance (evs : list Event) (w : World) : World :=
  mkWorld (tariffsTable w) (spreadsheetsTable w) (collector w)
          (clock w + fold_right Z.add 0%Z (sleepsOf evs))%Z
          (trace w ++ evs).

(** What the retry loop logs and sleeps after attempt [attempt] failed
    with [e]. *)
Definition afterFailure (lg : Logger) (failureText : nat -> Err -> jsstring)
    (maxRetries : nat) (retryDelay : Z) (attempt : nat) (e : Err)
  : list Event :=
  Log lg LvWarn (failureText attempt e) None
  :: (if attempt <? maxRetries
      then [Log lg LvInfo
              (js "Retrying in "
               ++ zToString (retryDelay * Z.of_nat attempt) ++ js "ms...")
              None;
            Sleep (retryDelay * Z.of_nat attempt)]
      else []).

(** The trace of [n] failed attempts in a row, from attempt [a] on, when
    attempt [k] sends [opEvents k] and fails with [errs k]. *)
Definition failedAttempts (lg : Logger) (failureText : nat -> Err -> jsstring)
    (maxRetries : nat) (retryDelay : Z) (errs : nat -> Err)
    (opEvents : nat -> list Event) (a n : nat) : list Event :=
  flat_map (fun k => opEvents k
                     ++ afterFailure lg failureText maxRetries retryDelay k
                          (errs k))
           (seq a n).

(** [lastError] after these [n] failed attempts. *)
Definition lastOf (errs : nat -> Err) (a n : nat) (lastError : option Err)
  : option Err :=
  match n with
  | O => lastError
  | S n' => Some (errs (a + n'))
  end.

(** The delays of a linear backoff between [n] attempts. *)
Definition linearBackoff (retryDelay : Z) (n : nat) : list Z :=
  List.map (fun k => (retryDelay * Z.of_nat k)%Z) (seq 1 (n - 1)).

(** The error one request ends in, if it does. *)
Definition httpFailure (answer : WBApi.HttpOutcome) : option Err :=
  match answer with
  | WBApi.HttpJson (Some _) => None
  | WBApi.HttpJson None =>
      Some (newWBApiError (js "Invalid response structure from WB API") 500)
  | WBApi.HttpStatus status errorText statusText =>
      Some (newWBApiError
              (js "HTTP " ++ zToString status ++ js ": "
               ++ (if truthy errorText then errorText else statusText))
              status)
  | WBApi.HttpAborted =>
      Some (newWBApiError
              (js "Request timeout after "
               ++ zToString Config.API_REQUEST_TIMEOUT ++ js "ms") 408)
  | WBApi.HttpFailed msg =>
      Some (newWBApiError (js "Network error: " ++ msg) 503)
  end.

(** The error of the Sheets API in one write, if there is one. *)
Definition sheetsApiError (answer : Sheets.SheetsOutcome) : option Err :=
  match Sheets.clearFails answer with
  | Some e => Some e
  | None => Sheets.updateFails answer
  end.

(** The requests of one write of [tariffs] to a spreadsheet. *)
Definition sheetsRequests (spreadsheetId : jsstring)
    (tariffs : list TariffExportRow) (answer : Sheets.SheetsOutcome)
  : list Event :=
  SheetsClear spreadsheetId (Config.SHEETS_SHEET_NAME ++ js "!A:H")
  :: match Sheets.clearFails answer with
     | Some _ => []
     | None =>
         [SheetsUpdate spreadsheetId (Config.SHEETS_SHEET_NAME ++ js "!A1")
            (Sheets.headers :: List.map Sheets.dataRow tariffs)]
     end.

(** The error one write ends in, if it does: not found and permission
    denied are told apart from the rest. *)
Definition sheetsFailure (spreadsheetId : jsstring)
    (answer : Sheets.SheetsOutcome) : option Err :=
  match sheetsApiError answer with
  | None => None
  | Some error =>
      Some (match code error with
            | Some 404%Z =>
                newGoogleSheetsError
                  (js "Spreadsheet " ++ spreadsheetId
                   ++ js " not found or sheet " ++ [34%N]
                   ++ Config.SHEETS_SHEET_NAME ++ [34%N]
                   ++ js " does not exist")
            | Some 403%Z =>
                newGoogleSheetsError
                  (js "Permission denied for spreadsheet " ++ spreadsheetId
                   ++ js ". Ensure service account has editor access")
            | _ =>
                newGoogleSheetsError
                  (js "Failed to update spreadsheet: " ++ message error)
            end)
  end.

(** The texts of the two retry loops. *)
Definition fetchFailureText (maxRetries : nat) (d : jsstring)
    (attempt : nat) (lastError : Err) : jsstring :=
  js "Attempt " ++ natToString attempt ++ js "/" ++ natToString maxRetries
  ++ js " failed for date " ++ d ++ js ": " ++ message lastError.

Definition fetchGivenUp (maxRetries : nat) (lastError : option Err)
  : jsstring :=
  js "Failed to fetch tariffs after " ++ natToString maxRetries
  ++ js " attempts: " ++ lastMessage lastError.

Definition publishFailureText (maxRetries : nat) (spreadsheetId : jsstring)
    (attempt : nat) (lastError : Err) : jsstring :=
  js "Attempt " ++ natToString attempt ++ js "/" ++ natToString maxRetries
  ++ js " failed for spreadsheet " ++ spreadsheetId ++ js ": "
  ++ message lastError.

Definition publishGivenUp (maxRetries : nat) (spreadsheetId : jsstring)
    (lastError : option Err) : jsstring :=
  js "Failed to update spreadsheet " ++ spreadsheetId ++ js " after "
  ++ natToString maxRetries ++ js " attempts: " ++ lastMessage lastError.

(** A date that passes [validateDate]. *)
Definition acceptedDate (dateParses : jsstring -> bool) (d : jsstring)
  : Prop :=
  matchesDateFormat d = true /\ dateParses d = true.

(** An id that passes [validateSpreadsheetId]. *)
Definition acceptedId (spreadsheetId : jsstring) : Prop :=
  trim spreadsheetId <> [] /\ 20 <= List.length spreadsheetId.

(** ** Scheduler *)

(** The log entry of a skipped tick. *)
Definition skipWarning : Event :=
  Log LScheduler LvWarn
      (js "Previous sync still in progress, skipping this run") None.

(** The flag tells whether a run is in flight, and there is at most one. *)
Definition flagExact (s : Scheduler.State) : Prop :=
  (Scheduler.inFlight s = [] /\ Scheduler.syncInProgress s = false)
  \/ (exists r, Scheduler.inFlight s = [r]
                /\ Scheduler.syncInProgress s = true).

(** An input that respects the way the application uses the scheduler:
    [runImmediateSync] is only called while no run is in flight. *)
Definition respectful (s : Scheduler.State) (i : Scheduler.Input) : Prop :=
  match i with
  | Scheduler.RunImmediateSync => Scheduler.inFlight s = []
  | _ => True
  end.

(** ** Publishing to all destinations *)

(** A destination whose publish fails: its id is rejected, or every
    attempt the service makes ends in an error. *)
Definition publishFails (svc : Sheets.Service)
    (api : nat -> Sheets.SheetsOutcome) (spreadsheetId : jsstring) : Prop :=
  ~ acceptedId spreadsheetId
  \/ forall k, 1 <= k <= Sheets.maxRetries svc ->
               sheetsFailure spreadsheetId (api k) <> None.

(** A destination whose publish succeeds: its id is accepted and one of
    the attempts the service makes goes through. *)
Definition publishSucceeds (svc : Sheets.Service)
    (api : nat -> Sheets.SheetsOutcome) (spreadsheetId : jsstring) : Prop :=
  acceptedId spreadsheetId
  /\ exists n,
       n < Sheets.maxRetries svc
       /\ (forall k, 1 <= k <= n ->
                     sheetsFailure spreadsheetId (api k) <> None)
       /\ sheetsFailure spreadsheetId (api (1 + n)) = None.

Definition fulfilled {A : Type} (o : Outcome A) : bool :=
  match o with Return _ => true | Throw _ => false end.

(** The two counters over the settled results. *)
Definition successes {A : Type} (results : list (Outcome A)) : nat :=
  List.length (List.filter fulfilled results).

Definition failures {A : Type} (results : list (Outcome A)) : nat :=
  List.length (List.filter (fun o => negb (fulfilled o)) results).

(** The settled result [r] of destination [spreadsheetId] is what its
    publish comes to. *)
Definition settledAs (svc : Sheets.Service)
    (api : jsstring -> nat -> Sheets.SheetsOutcome)
    (spreadsheetId : jsstring) (r : Outcome unit) : Prop :=
  (publishFails svc (api spreadsheetId) spreadsheetId -> fulfilled r = false)
  /\ (publishSucceeds svc (api spreadsheetId) spreadsheetId -> r = Return tt).

(** ** A run without data *)

(** What [fetchBoxTariffs] logs, requests and sleeps when its first [n]
    requests fail with [errs] and the next one is answered with an empty
    list. *)
Definition emptyFetchEvents (today : jsstring) (errs : nat -> Err) (n : nat)
  : list Event :=
  Log LApi LvInfo (js "Fetching box tariffs for date: " ++ today) None
  :: failedAttempts LApi
       (fetchFailureText (WBApi.maxRetries WBApi.defaultService) today)
       (WBApi.maxRetries WBApi.defaultService)
       (WBApi.retryDelay WBApi.defaultService) errs
       (fun _ => [HttpGet today]) 1 n
  ++ [HttpGet today;
      Log LApi LvInfo (js "Successfully fetched 0 tariffs for " ++ today) None].

(** The whole trace of such a run. *)
Definition emptyRunEvents (today : jsstring) (errs : nat -> Err) (n : nat)
  : list Event :=
  [ Log LSync LvInfo Sync.rule None;
    Log LSync LvInfo (js "Starting tariff sync for date: " ++ today) None;
    Log LSync LvInfo Sync.rule None;
    Log LSync LvInfo (js "[1/3] Fetching tariffs from WB API...") None ]
  ++ emptyFetchEvents today errs n
  ++ [ Log LSync LvInfo (Sync.check ++ js " Fetched 0 tariffs from WB API")
         None;
       Log LSync LvWarn (js "No tariffs received from API - aborting sync")
         None ].

(** The collector after such a run, started at [start] and completed at
    [finish]. *)
Definition emptyRunCollector (start finish : Z) (c : MetricsCollector)
  : MetricsCollector :=
  let h := List.length (objects c) in
  Metrics.completeSync finish h true None
    (Metrics.mutate h
       (fun m => mkMetric (startTime m) (endTime m) (duration m) 0
                   (savedCount m) (exportedCount m) (success m) (error m))
       (snd (Metrics.startSync start c))).

(** An event of the fetch stage: a log entry of the orchestrator or of the
    tariffs client, a request to the tariffs API, or a backoff delay. *)
Definition fetchStageOnly (e : Event) : Prop :=
  match e with
  | Log LSync _ _ _ | Log LApi _ _ _ | HttpGet _ | Sleep _ => True
  | _ => False
  end.

(** ** Tariff store *)

(** The unique key of a tariff. *)
Definition keyOf (t : BoxTariff) : jsstring * jsstring :=
  (date t, warehouse_name t).

Definition rowKey (r : Row) : jsstring * jsstring := keyOf (row_tariff r).

(** The unique constraint of the table. *)
Definition uniqueKeys (table : list Row) : Prop :=
  NoDup (List.map rowKey table).

(** The rows of a table that carry the key of [t]. *)
Definition rowsWithKey (t : BoxTariff) (table : list Row) : list Row :=
  List.filter (fun r => Repository.sameKey (row_tariff r) t) table.

(** The [k]-th statement of an upsert of [tariffs] and their number. *)
Definition chunkAt (tariffs : list BoxTariff) (k : nat) : list BoxTariff :=
  slice (k * Repository.chunkSize)
        (k * Repository.chunkSize + Repository.chunkSize) tariffs.

Definition chunkCount (tariffs : list BoxTariff) : nat :=
  (List.length tariffs + (Repository.chunkSize - 1)) / Repository.chunkSize.

(** Statement [k] is the first one to fail, with error [e]. *)
Definition firstFailure (faults : Repository.DbFaults)
    (tariffs : list BoxTariff) (k : nat) (e : Err) : Prop :=
  k < chunkCount tariffs
  /\ Repository.chunkFails faults k (chunkAt tariffs k) = Some e
  /\ forall j, j < k ->
       Repository.chunkFails faults j (chunkAt tariffs j) = None.

(** The first log entry of an upsert. *)
Definition upsertStarted (tariffs : list BoxTariff) : Event :=
  Log LDatabase LvInfo
    (js "Upserting " ++ natToString (List.length tariffs) ++ js " tariffs")
    None.

(** The [catch] block of [upsertTariffs], entered with [error] in world
    [w]. *)
Definition rolledBack (faults : Repository.DbFaults) (error : Err)
    (w : World) : Outcome unit * World :=
  match Repository.rollbackFails faults with
  | Some e => (Throw e, w)
  | None =>
      (Throw (newDatabaseError
                (js "Failed to upsert tariffs: " ++ message error)),
       record [Log LDatabase LvError
                 (js "Failed to upsert tariffs: " ++ message error) None] w)
  end.

(** What [upsertTariffs] does once its chunk loop has ended with outcome
    [o] in world [w]. *)
Definition afterChunks (faults : Repository.DbFaults)
    (tariffs : list BoxTariff) (o : Outcome (list Row)) (w : World)
  : Outcome unit * World :=
  match o with
  | Return work =>
      match Repository.commitFails faults with
      | Some e => rolledBack faults e w
      | None =>
          (Return tt,
           record [Log LDatabase LvInfo
                     (js "Successfully upserted "
                      ++ natToString (List.length tariffs) ++ js " tariffs")
                     None]
                  (withTable work w))
      end
  | Throw e => rolledBack faults e w
  end.

(** ** Metrics *)

(** Every reference in the history points to an object. *)
Definition wellFormed (c : MetricsCollector) : Prop :=
  Forall (fun h => h < List.length (objects c)) (metrics c).

(** The object [startSync] creates at time [now]. *)
Definition freshMetric (now : Z) : SyncMetrics :=
  mkMetric now None None 0 0 0 false None.

(** The entries that stay in a history [l] when one more is pushed. *)
Definition olderKept {A : Type} (l : list A) : list A :=
  if maxHistory <=? List.length l then tl l else l.

(** Row [a] may stand before row [b]: the delivery coefficient ascends
    with absent coefficients last, and on equal coefficients the
    warehouse name ascends. *)
Definition inOrder (collate : jsstring -> jsstring -> bool)
    (a b : TariffExportRow) : Prop :=
  match x_box_delivery_coef a, x_box_delivery_coef b with
  | Some x, Some y =>
      (x < y)%Z
      \/ (x = y /\ collate (x_warehouse_name a) (x_warehouse_name b) = true)
  | Some _, None => True
  | None, Some _ => False
  | None, None => collate (x_warehouse_name a) (x_warehouse_name b) = true
  end.

(** A collation is a total preorder on names. *)
Definition totalOrder (collate : jsstring -> jsstring -> bool) : Prop :=
  (forall a b, collate a b = true \/ collate b a = true)
  /\ (forall a b c, collate a b = true -> collate b c = true ->
                    collate a c = true).

(** ** Frames *)

(** A computation that only observes and talks: whatever it returns or
    throws, the two tables and the metrics collector are as before, and the
    trace has only grown. *)
Definition observesOnly {A : Type} (m : M A) : Prop :=
  forall w,
    tariffsTable (snd (m w)) = tariffsTable w
    /\ spreadsheetsTable (snd (m w)) = spreadsheetsTable w
    /\ collector (snd (m w)) = collector w
    /\ exists evs, trace (snd (m w)) = trace w ++ evs.

(** A computation that does nothing but add events other than delays to
    the trace: also the clock is as before. *)
Definition recordsOnly {A : Type} (m : M A) : Prop :=
  forall w, exists evs, snd (m w) = record evs w.

(** The log entry of [transformToDbFormat] for an entry that fails. *)
Definition transformFailure (index : nat) (e : Err) : Event :=
  Log LApi LvError
      (js "Failed to transform tariff at index " ++ natToString index
       ++ js ":")
      (Some e).

(** ** Calls on the metrics collector *)

Inductive MetricsCall : Type :=
  | CallStart (now : Z)
  | CallComplete (now : Z) (h : nat) (ok : bool) (err : option Err).

Definition call (c : MetricsCollector) (op : MetricsCall)
  : MetricsCollector :=
  match op with
  | CallStart now => snd (Metrics.startSync now c)
  | CallComplete now h ok err => Metrics.completeSync now h ok err c
  end.

(** The collector after a sequence of calls on a new one. *)
Definition calls (ops : list MetricsCall) : MetricsCollector :=
  fold_left call ops newMetricsCollector.

(** ** What a stage of a run may do to the collector and to the tables *)

(** The collector is the same but for fields of object [h] other than its
    start time and its error text. *)
Definition sameRun (h : nat) (c c' : MetricsCollector) : Prop :=
  List.length (objects c') = List.length (objects c)
  /\ metrics c' = metrics c
  /\ (forall h', h' <> h -> Metrics.deref c' h' = Metrics.deref c h')
  /\ startTime (Metrics.deref c' h) = startTime (Metrics.deref c h)
  /\ error (Metrics.deref c' h) = error (Metrics.deref c h).

Definition keepsRun {A : Type} (h : nat) (m : M A) : Prop :=
  forall w, sameRun h (collector w) (collector (snd (m w))).

(** When [m] returns, run [h], started at [start], is recorded as completed
    with success at the time of return. *)
Definition completesRun {A : Type} (h : nat) (start : Z) (m : M A) : Prop :=
  forall w,
    h < List.length (objects (collector w)) ->
    startTime (Metrics.deref (collector w) h) = start ->
    match m w with
    | (Return _, w') =>
        let r := Metrics.deref (collector w') h in
        success r = true
        /\ endTime r = Some (clock w')
        /\ duration r = Some (clock w' - start)%Z
    | (Throw _, _) => True
    end.

(** Table [tb'] has every key of [tb], with the time of creation of its
    row, and respects the unique constraint if [tb] does. *)
Definition tableGrows (tb tb' : list Row) : Prop :=
  (uniqueKeys tb -> uniqueKeys tb')
  /\ (forall r, In r tb ->
        exists r', In r' tb' /\ rowKey r' = rowKey r
                   /\ created_at r' = created_at r).

Definition growsTable {A : Type} (m : M A) : Prop :=
  forall w,
    tableGrows (tariffsTable w) (tariffsTable (snd (m w)))
    /\ spreadsheetsTable (snd (m w)) = spreadsheetsTable w.

(** ** Outcomes *)

(** [P] holds of the outcome of [m] in world [w] and of the world it
    leaves. *)
Definition endsWith {A : Type} (m : M A) (w : World)
    (P : Outcome A -> World -> Prop) : Prop :=
  P (fst (m w)) (snd (m w)).

(** The database accepts every statement of an upsert. *)
Definition dbAccepts (faults : Repository.DbFaults) : Prop :=
  Repository.beginFails faults = None
  /\ Repository.commitFails faults = None
  /\ forall k chunk, Repository.chunkFails faults k chunk = None.

(** The tariffs API answers with [raw] after [n] failed requests. *)
Definition answersAfter (env : Sync.Env) (n : nat)
    (raw : list WBWarehouseTariff) : Prop :=
  acceptedDate (Sync.dateParses env) (Sync.today env)
  /\ n < WBApi.maxRetries WBApi.defaultService
  /\ (forall k, 1 <= k <= n -> httpFailure (Sync.http env k) <> None)
  /\ Sync.http env (1 + n) = WBApi.HttpJson (Some raw).

(** ** What PostgreSQL holds *)

(** Column [date] is an SQL date, and the spec's dates are calendar days
    written YYYY-MM-DD.  The tables of the model show that column as its
    ISO text, so a stored text stands for the day it denotes; on such texts
    comparing texts is comparing days ([DayFacts.calendarDay_inj]). *)

Definition leapYear (y : Z) : bool :=
  ((y mod 4 =? 0) && negb (y mod 100 =? 0) || (y mod 400 =? 0))%Z.

Definition daysInMonth (y m : Z) : Z :=
  if (m =? 2)%Z then (if leapYear y then 29 else 28)%Z
  else if ((m =? 4) || (m =? 6) || (m =? 9) || (m =? 11))%Z then 30%Z
  else 31%Z.

(** The calendar day (year, month, day) that a text of the form YYYY-MM-DD
    denotes; [None] when the text does not have that form or names no day
    of the calendar (there is no year 0). *)
Definition calendarDay (s : jsstring) : option (Z * Z * Z) :=
  match s with
  | [y1; y2; y3; y4; d1; m1; m2; d2; a1; a2] =>
      if forallb isDigit [y1; y2; y3; y4; m1; m2; a1; a2]
         && N.eqb d1 45 && N.eqb d2 45
      then
        let y := digitsValue [y1; y2; y3; y4] in
        let m := digitsValue [m1; m2] in
        let d := digitsValue [a1; a2] in
        if ((1 <=? y) && (1 <=? m) && (m <=? 12) && (1 <=? d)
            && (d <=? daysInMonth y m))%Z
        then Some (y, m, d)
        else None
      else None
  | _ => None
  end.

(** A text that is the ISO form of a calendar day. *)
Definition isoDate (s : jsstring) : bool :=
  match calendarDay s with Some _ => true | None => false end.

(** Two texts denote the same calendar day. *)
Definition sameDay (a b : jsstring) : bool :=
  match calendarDay a, calendarDay b with
  | Some (y, m, d), Some (y', m', d') =>
      ((y =? y') && (m =? m') && (d =? d'))%Z
  | _, _ => false
  end.

(** [String.prototype.isWellFormed]: no surrogate code unit stands alone.
    The driver sends text as UTF-8, in which a lone surrogate has no
    encoding (it is sent as U+FFFD). *)
Definition isHighSurrogate (c : N) : bool := N.leb 55296 c && N.leb c 56319.
Definition isLowSurrogate (c : N) : bool := N.leb 56320 c && N.leb c 57343.

Fixpoint isWellFormed (s : jsstring) : bool :=
  match s with
  | [] => true
  | c :: r =>
      if isHighSurrogate c then
        match r with
        | l :: r' => isLowSurrogate l && isWellFormed r'
        | [] => false
        end
      else negb (isLowSurrogate c) && isWellFormed r
  end.

(** A text that a [varchar(255)] column takes and gives back unchanged:
    well-formed, without U+0000, and of at most 255 code units. *)
Definition storedText (s : jsstring) : bool :=
  isWellFormed s && negb (existsb (N.eqb 0) s) && (List.length s <=? 255).

Definition storedOptText (o : option jsstring) : bool :=
  match o with Some s => storedText s | None => true end.

(** A value of an [integer] column. *)
Definition storedInt (o : option Z) : bool :=
  match o with
  | Some z => ((-2147483648 <=? z) && (z <=? 2147483647))%Z
  | None => true
  end.

(** A record that PostgreSQL stores and returns as it is: its date is the
    ISO text of a calendar day and every column holds a value of its
    type. *)
Definition storableB (t : BoxTariff) : bool :=
  isoDate (date t)
  && storedText (warehouse_name t)
  && storedOptText (geo_name t)
  && storedOptText (box_delivery_base t)
  && storedOptText (box_delivery_liter t)
  && storedInt (box_delivery_coef t)
  && storedOptText (box_delivery_marketplace_base t)
  && storedOptText (box_delivery_marketplace_liter t)
  && storedInt (box_delivery_marketplace_coef t)
  && storedOptText (box_storage_base t)
  && storedOptText (box_storage_liter t)
  && storedInt (box_storage_coef t).

Definition storable (t : BoxTariff) : Prop := storableB t = true.

(** A table of the model that shows what PostgreSQL holds. *)
Definition asStored (table : list Row) : Prop :=
  Forall (fun r => storable (row_tariff r)) table.

(** The eight columns of a stored record that are exported. *)
Definition exportColumns (t : BoxTariff) : TariffExportRow :=
  {| x_warehouse_name := warehouse_name t;
     x_geo_name := geo_name t;
     x_box_delivery_coef := box_delivery_coef t;
     x_box_delivery_base := box_delivery_base t;
     x_box_delivery_liter := box_delivery_liter t;
     x_box_storage_coef := box_storage_coef t;
     x_box_storage_base := box_storage_base t;
     x_box_storage_liter := box_storage_liter t |}.

(** The unique constraint on the stored table: two records have the
    same key when they are of the same calendar day and the same
    warehouse. *)
Definition sameDayKey (a b : BoxTariff) : bool :=
  sameDay (date a) (date b) && str_eqb (warehouse_name a) (warehouse_name b).

(** The stored rows of the day and warehouse of [t]. *)
Definition rowsOfDayKey (t : BoxTariff) (table : list Row) : list Row :=
  List.filter (fun r => sameDayKey (row_tariff r) t) table.

(** An integer that a JavaScript number holds exactly
    ([Number.isSafeInteger]). *)
Definition safeInteger (z : Z) : Prop :=
  (- (2 ^ 53 - 1) <= z <= 2 ^ 53 - 1)%Z.

End Spec.

Import Spec.

(* ===================================================================== *)
(** * Sample data *)
(* ===================================================================== *)

Module Samples.

Definition emptyWorld : World :=
  mkWorld [] [] newMetricsCollector 0 [].

Definition day : jsstring := js "2025-01-20".

(** An entry with sentinels, an empty value and a coefficient that is not
    a number. *)
Definition sentinelEntry : WBWarehouseTariff :=
  mkRaw (js "A") [] (js "-") [] (js "abc") (js "-") (js "48")
        (js "-") (js "0,14") (js "-") [].

(** An entry with nothing special about it. *)
Definition plainEntry : WBWarehouseTariff :=
  mkRaw (js "B") (js "Center") (js "48") (js "11,2") (js "3") (js "40")
        (js "10") (js "2") (js "0,14") (js "0,07") (js "1").

(** An entry whose name is 300 letters between two spaces. *)
Definition longNameEntry : WBWarehouseTariff :=
  mkRaw (32%N :: repeat 65%N 300 ++ [32%N]) [] (js "48") (js "11,2") (js "3")
        (js "40") (js "10") (js "2") (js "0,14") (js "0,07") (js "1").

(** An entry whose name is white space only. *)
Definition blankNameEntry : WBWarehouseTariff :=
  mkRaw (js "   ") (js "Center") (js "48") (js "11,2") (js "3") (js "40")
        (js "10") (js "2") (js "0,14") (js "0,07") (js "1").

(** A tariff of day [day] for warehouse [name] with delivery coefficient
    [coef] and region [geo]. *)
Definition tariffOf (name : jsstring) (geo : option jsstring)
    (coef : option Z) : BoxTariff :=
  mkBoxTariff day name geo (Some (js "48")) (Some (js "11,2")) coef
              None None None (Some (js "0,14")) (Some (js "0,07")) (Some 1%Z).

(** 501 tariffs with distinct names: two statements. *)
Definition manyTariffs : list BoxTariff :=
  List.map (fun i => tariffOf (natToString i) None (Some (Z.of_nat i)))
           (seq 0 501).

Definition statementError : Err :=
  nativeError (js "deadlock detected") None.

(** A database in which the second statement of an upsert fails. *)
Definition secondStatementFails : Repository.DbFaults :=
  Repository.mkDbFaults None
    (fun k _ => if k =? 1 then Some statementError else None) None None.

(** A world that has stored one tariff. *)
Definition storedWorld : World :=
  mkWorld [mkRow (tariffOf (js "0") (Some (js "Center")) (Some 7%Z)) 5 5]
          [] newMetricsCollector 10 [].

(** Entity A without a coefficient and entity B with coefficient 3. *)
Definition rowA : Row := mkRow (tariffOf (js "A") None None) 5 5.
Definition rowB : Row := mkRow (tariffOf (js "B") None (Some 3%Z)) 5 5.

Definition worldAB : World :=
  mkWorld [rowA; rowB] [] newMetricsCollector 10 [].

(** A collector after one run that succeeded. *)
Definition oneSuccess : MetricsCollector :=
  Metrics.completeSync 5 0 true None
    (snd (Metrics.startSync 0 newMetricsCollector)).

(** A tariffs API that is down, and one that answers the third time. *)
Definition apiDown (k : nat) : WBApi.HttpOutcome :=
  WBApi.HttpStatus 502 [] (js "Bad Gateway").

Definition apiDownError : Err :=
  newWBApiError (js "HTTP 502: Bad Gateway") 502.

(** A spreadsheet id of plausible length, and a Sheets API that refuses
    every write to it. *)
Definition sheetId : jsstring := js "1AbCdEfGhIjKlMnOpQrStUvWxYz0123456789-_abcde".

Definition sheetsDenied (k : nat) : Sheets.SheetsOutcome :=
  Sheets.mkSheetsOutcome (Some (nativeError (js "forbidden") (Some 403%Z)))
                         None.

Definition sheetsDeniedError : Err :=
  newGoogleSheetsError
    (js "Permission denied for spreadsheet " ++ sheetId
     ++ js ". Ensure service account has editor access").

(** A day on which the tariffs API has nothing. *)
Definition quietDay : Sync.Env :=
  Sync.mkEnv day (fun _ => true) (fun _ => WBApi.HttpJson (Some []))
    Repository.noFaults None Repository.codeUnitLe None
    (fun _ _ => Sheets.sheetsOk) (fun _ _ => js "0.00").

(** Three registered destinations; the Sheets API refuses the second. *)
Definition sheetId2 : jsstring := js "2AbCdEfGhIjKlMnOpQrStUvWxYz0123456789-_abcde".
Definition sheetId3 : jsstring := js "3AbCdEfGhIjKlMnOpQrStUvWxYz0123456789-_abcde".

Definition threeSheets : World :=
  mkWorld [] [sheetId; sheetId2; sheetId3] newMetricsCollector 10 [].

Definition secondDenied (spreadsheetId : jsstring) (k : nat)
  : Sheets.SheetsOutcome :=
  if str_eqb spreadsheetId sheetId2 then sheetsDenied k else Sheets.sheetsOk.

Definition allDenied (spreadsheetId : jsstring) (k : nat)
  : Sheets.SheetsOutcome := sheetsDenied k.

(** A day on which the tariffs API has one entry; the Sheets API refuses
    the second destination, or all of them. *)
Definition busyDay : Sync.Env :=
  Sync.mkEnv day (fun _ => true) (fun _ => WBApi.HttpJson (Some [plainEntry]))
    Repository.noFaults None Repository.codeUnitLe None
    secondDenied (fun _ _ => js "0.00").

Definition deniedDay : Sync.Env :=
  Sync.mkEnv day (fun _ => true) (fun _ => WBApi.HttpJson (Some [plainEntry]))
    Repository.noFaults None Repository.codeUnitLe None
    allDenied (fun _ _ => js "0.00").

End Samples.

Unset Implicit Arguments.

(* ===================================================================== *)
(** * Facts about strings *)
(* ===================================================================== *)

Module JSFacts.

Lemma str_eqb_eq (a b : jsstring) : str_eqb a b = true <-> a = b.
Proof.
  revert b; induction a as [|x a IH]; intros [|y b]; simpl;
    try (split; [discriminate | congruence]); try tauto.
  rewrite andb_true_iff, N.eqb_eq, IH. split.
  - intros [-> ->]; reflexivity.
  - intros E; injection E; auto.
Qed.

Lemma str_eqb_refl (a : jsstring) : str_eqb a a = true.
Proof. apply str_eqb_eq; reflexivity. Qed.

Lemma truthy_false (s : jsstring) : truthy s = false <-> s = [].
Proof. destruct s; simpl; split; congruence. Qed.

Lemma trimStart_app_ws (ws s : jsstring) :
  forallb isWhiteSpace ws = true -> trimStart (ws ++ s) = trimStart s.
Proof.
  induction ws as [|c ws IH]; simpl; [reflexivity|].
  rewrite andb_true_iff; intros [Hc Hws]. rewrite Hc. auto.
Qed.

(** [trimStart] splits a string into white space and a rest that does not
    start with white space. *)
Lemma trimStart_split (s : jsstring) :
  exists ws, forallb isWhiteSpace ws = true /\ s = ws ++ trimStart s /\
             match trimStart s with
             | [] => True
             | c :: _ => isWhiteSpace c = false
             end.
Proof.
  induction s as [|c s (ws & Hws & Hs & Hhd)]; simpl.
  - exists []; auto.
  - destruct (isWhiteSpace c) eqn:Hc.
    + exists (c :: ws); simpl; rewrite Hc, Hws. repeat split; auto.
      congruence.
    + exists []; simpl; rewrite Hc; auto.
Qed.

Lemma digit_not_ws (d : N) : isDigit d = true -> isWhiteSpace d = false.
Proof.
  unfold isDigit, isWhiteSpace; rewrite andb_true_iff, !N.leb_le.
  intros [H1 H2]. simpl.
  repeat match goal with
  | |- context [N.eqb d ?k] =>
      let E := fresh in destruct (N.eqb_spec d k) as [E|E]; [lia|clear E]
  end.
  simpl. apply andb_false_iff. left. apply N.leb_gt. lia.
Qed.

Lemma digit_not_sign (d : N) : isDigit d = true -> d <> 45%N /\ d <> 43%N.
Proof.
  unfold isDigit; rewrite andb_true_iff, !N.leb_le. lia.
Qed.

Lemma sign_not_ws : isWhiteSpace 45 = false /\ isWhiteSpace 43 = false.
Proof. split; reflexivity. Qed.

Lemma splitSign_other (x : N) (xs : jsstring) :
  x <> 45%N -> x <> 43%N -> splitSign (x :: xs) = (1%Z, x :: xs).
Proof.
  intros H1 H2. unfold splitSign. destruct x as [|p]; [reflexivity|].
  do 7 (try destruct p as [p|p|]); try reflexivity; congruence.
Qed.

(** [parseInt] gives [NaN] exactly on the values that are not numeric. *)
Lemma parseInt10_None_iff (s : jsstring) :
  parseInt10 s = None <-> ~ NumericPrefix s.
Proof.
  unfold parseInt10. split.
  - intros H Hnum. destruct Hnum as [ws sign d rest Hws Hsign Hd].
    rewrite trimStart_app_ws in H by assumption.
    pose proof (digit_not_ws d Hd) as Hdw.
    pose proof (digit_not_sign d Hd) as [Hd1 Hd2].
    destruct Hsign as [-> | [-> | ->]]; simpl in H.
    + rewrite Hdw in H.
      rewrite (splitSign_other d rest Hd1 Hd2) in H. simpl in H. rewrite Hd in H. discriminate.
    + simpl in H. rewrite Hd in H. discriminate.
    + simpl in H. rewrite Hd in H. discriminate.
  - intros Hnot.
    destruct (trimStart_split s) as (ws & Hws & Hs & Hhd).
    destruct (splitSign (trimStart s)) as [sign body] eqn:Hsplit.
    destruct (digitsPrefix body) as [|d ds] eqn:Hdig; [reflexivity|].
    exfalso. apply Hnot.
    destruct body as [|c body']; [discriminate|].
    simpl in Hdig. destruct (isDigit c) eqn:Hc; [|discriminate].
    assert (Hcases : trimStart s = c :: body'
                     \/ trimStart s = 45%N :: c :: body'
                     \/ trimStart s = 43%N :: c :: body').
    { destruct (trimStart s) as [|x xs]; [inversion Hsplit|].
      destruct (N.eq_dec x 45) as [->|N45].
      - inversion Hsplit; subst; auto.
      - destruct (N.eq_dec x 43) as [->|N43].
        + inversion Hsplit; subst; auto.
        + left. rewrite (splitSign_other x xs N45 N43) in Hsplit.
          congruence. }
    rewrite Hs.
    destruct Hcases as [E | [E | E]]; rewrite E.
    + apply (@NumericPrefix_intro ws [] c body'); auto.
    + apply (@NumericPrefix_intro ws (js "-") c body'); auto.
    + apply (@NumericPrefix_intro ws (js "+") c body'); auto.
Qed.

(** [parseInt] and [trim] on a few values. *)
Example parseInt10_values :
  parseInt10 (js "3") = Some 3%Z
  /\ parseInt10 (js "  -7") = Some (-7)%Z
  /\ parseInt10 (js "+12abc") = Some 12%Z
  /\ parseInt10 (js "0x10") = Some 0%Z
  /\ parseInt10 (js "abc") = None
  /\ parseInt10 (js "--1") = None
  /\ parseInt10 (js "1,5") = Some 1%Z.
Proof. repeat split; reflexivity. Qed.

Example trim_values :
  trim (js "  Warehouse 1 ") = js "Warehouse 1"
  /\ trim (9%N :: 160%N :: js "A" ++ [8232%N; 65279%N]) = js "A"
  /\ trim (js "   ") = [].
Proof. repeat split; reflexivity. Qed.

Example natToString_values :
  natToString 0 = js "0" /\ natToString 255 = js "255"
  /\ zToString (-30000) = js "-30000".
Proof. repeat split; reflexivity. Qed.

End JSFacts.

(* ===================================================================== *)
(** * Facts about the effect monad *)
(* ===================================================================== *)

Module EffFacts.

Lemma record_nil (w : World) : record [] w = w.
Proof. destruct w; unfold record; simpl. now rewrite app_nil_r. Qed.

Lemma record_record (e1 e2 : list Event) (w : World) :
  record e2 (record e1 w) = record (e1 ++ e2) w.
Proof. unfold record; simpl. now rewrite app_assoc. Qed.

Lemma log_run (lg : Logger) (lvl : Level) (msg : jsstring) (w : World) :
  log lg lvl msg w = (Return tt, record [Log lg lvl msg None] w).
Proof. reflexivity. Qed.

Lemma logWith_run (lg : Logger) (lvl : Level) (msg : jsstring) (e : Err)
    (w : World) :
  logWith lg lvl msg e w = (Return tt, record [Log lg lvl msg (Some e)] w).
Proof. reflexivity. Qed.

Lemma bind_return {A B : Type} (m : M A) (k : A -> M B) (w w' : World) (a : A) :
  m w = (Return a, w') -> bind m k w = k a w'.
Proof. intros H; unfold bind; now rewrite H. Qed.

Lemma bind_throw {A B : Type} (m : M A) (k : A -> M B) (w w' : World) (e : Err) :
  m w = (Throw e, w') -> bind m k w = (Throw e, w').
Proof. intros H; unfold bind; now rewrite H. Qed.

Lemma tryCatch_return {A : Type} (m : M A) (h : Err -> M A) (w w' : World) (a : A) :
  m w = (Return a, w') -> tryCatch m h w = (Return a, w').
Proof. intros H; unfold tryCatch; now rewrite H. Qed.

Lemma tryCatch_throw {A : Type} (m : M A) (h : Err -> M A) (w w' : World) (e : Err) :
  m w = (Throw e, w') -> tryCatch m h w = h e w'.
Proof. intros H; unfold tryCatch; now rewrite H. Qed.

End EffFacts.

(* ===================================================================== *)
(** * Normalisation (services/wbApi.ts) *)
(* ===================================================================== *)

Module Normalisation.

Import JSFacts EffFacts.

Lemma parseValue_sentinel (v : jsstring) :
  isSentinel v -> WBApi.parseValue v = None.
Proof. intros [-> | ->]; reflexivity. Qed.

Lemma coefficientOf_absent (v : jsstring) :
  isSentinel v \/ ~ NumericPrefix v -> coefficientOf v = None.
Proof.
  unfold coefficientOf. intros [[-> | ->] | H]; try reflexivity.
  destruct (negb (truthy v) || str_eqb v (js "-")); [reflexivity|].
  now apply parseInt10_None_iff.
Qed.

(** [parseCoefficient] never throws; it returns [coefficientOf] and at
    most logs. *)
Lemma parseCoefficient_run (v : jsstring) (w : World) :
  exists evs, WBApi.parseCoefficient v w = (Return (coefficientOf v), record evs w).
Proof.
  unfold WBApi.parseCoefficient, coefficientOf.
  destruct (negb (truthy v) || str_eqb v (js "-")).
  - exists []. now rewrite record_nil.
  - destruct (parseInt10 v).
    + exists []. now rewrite record_nil.
    + eexists. reflexivity.
Qed.

(** [validateAndTrim], case by case. *)
Lemma validateAndTrim_ok (v f : jsstring) (maxLength : nat) (w : World) :
  trim v <> [] ->
  WBApi.validateAndTrim v f maxLength w =
    (Return (substring0 maxLength (trim v)),
     record (truncationEvents f maxLength v) w).
Proof.
  intros Hne. unfold WBApi.validateAndTrim, truncationEvents.
  assert (Hv : truthy v = true).
  { destruct v; [exfalso; apply Hne; reflexivity | reflexivity]. }
  rewrite Hv. simpl negb. cbv iota.
  destruct (trim v) as [|c r] eqn:Ht; [congruence|].
  change (List.length (c :: r) =? 0) with false. cbv iota.
  destruct (maxLength <? List.length (c :: r)) eqn:Hlen.
  - reflexivity.
  - unfold ret, substring0. rewrite record_nil, firstn_all2; [reflexivity|].
    apply Nat.ltb_ge in Hlen. exact Hlen.
Qed.

Lemma validateAndTrim_blank (v f : jsstring) (maxLength : nat) (w : World) :
  trim v = [] ->
  exists e, WBApi.validateAndTrim v f maxLength w = (Throw e, w)
            /\ errClass e = ValidationError.
Proof.
  intros Hb. unfold WBApi.validateAndTrim.
  destruct (truthy v); simpl negb; cbv iota.
  - rewrite Hb. simpl. eexists; split; reflexivity.
  - eexists; split; reflexivity.
Qed.

Lemma transformOne_ok (d : jsstring) (i : nat) (t : WBWarehouseTariff)
    (w : World) :
  namesPresent t ->
  exists evs,
    WBApi.transformOne d i t w = (Return (normalized d t), record evs w)
    /\ incl (truncationEvents (js "warehouseName")
               Config.MAX_WAREHOUSE_NAME_LENGTH (warehouseName t)) evs.
Proof.
  intros [Hname Hgeo].
  set (ev1 := truncationEvents (js "warehouseName")
                Config.MAX_WAREHOUSE_NAME_LENGTH (warehouseName t)).
  assert (Hg : exists ev2,
    (if truthy (geoName t)
     then bind (WBApi.validateAndTrim (geoName t) (js "geoName")
                  Config.MAX_GEO_NAME_LENGTH)
               (fun g => ret (Some g))
     else ret None) (record ev1 w)
    = (Return (if truthy (geoName t)
               then Some (substring0 Config.MAX_GEO_NAME_LENGTH (trim (geoName t)))
               else None),
       record ev2 (record ev1 w))).
  { destruct (truthy (geoName t)) eqn:Ht.
    - destruct Hgeo as [E | Hne]; [rewrite E in Ht; discriminate|].
      eexists. erewrite bind_return by (apply validateAndTrim_ok; exact Hne).
      reflexivity.
    - exists []. now rewrite record_nil. }
  destruct Hg as [ev2 Hg].
  destruct (parseCoefficient_run (boxDeliveryCoefExpr t)
              (record ev2 (record ev1 w))) as [ev3 H3].
  destruct (parseCoefficient_run (boxDeliveryMarketplaceCoefExpr t)
              (record ev3 (record ev2 (record ev1 w)))) as [ev4 H4].
  destruct (parseCoefficient_run (boxStorageCoefExpr t)
              (record ev4 (record ev3 (record ev2 (record ev1 w)))))
    as [ev5 H5].
  exists (ev1 ++ ev2 ++ ev3 ++ ev4 ++ ev5). split.
  - unfold WBApi.transformOne. apply tryCatch_return.
    erewrite bind_return by (apply validateAndTrim_ok; exact Hname).
    fold ev1.
    erewrite bind_return by (exact Hg).
    erewrite bind_return by (exact H3).
    erewrite bind_return by (exact H4).
    erewrite bind_return by (exact H5).
    unfold ret, normalized. rewrite !record_record.
    reflexivity.
  - apply incl_appl, incl_refl.
Qed.

Lemma transformOne_throws (d : jsstring) (i : nat) (t : WBWarehouseTariff)
    (w : World) :
  ~ namesPresent t ->
  exists e evs,
    WBApi.transformOne d i t w = (Throw e, record evs w)
    /\ errClass e = ValidationError.
Proof.
  intros Hnot. unfold WBApi.transformOne.
  destruct (trim (warehouseName t)) as [|c r] eqn:Hname.
  - destruct (validateAndTrim_blank (warehouseName t) (js "warehouseName")
                Config.MAX_WAREHOUSE_NAME_LENGTH w Hname) as (e & He & Hc).
    exists e. eexists. split; [|exact Hc].
    erewrite tryCatch_throw by (apply bind_throw; exact He).
    reflexivity.
  - assert (Hne : trim (warehouseName t) <> []) by (rewrite Hname; discriminate).
    assert (Hgeo : geoName t <> [] /\ trim (geoName t) = []).
    { destruct (geoName t) as [|x xs] eqn:Eg.
      - exfalso. apply Hnot. split; [exact Hne | left; exact Eg].
      - split; [discriminate|].
        destruct (trim (x :: xs)) eqn:Et; [reflexivity|].
        exfalso. apply Hnot. split; [exact Hne | right].
        rewrite Eg, Et. discriminate. }
    destruct Hgeo as [Hg1 Hg2].
    destruct (validateAndTrim_blank (geoName t) (js "geoName")
                Config.MAX_GEO_NAME_LENGTH
                (record (truncationEvents (js "warehouseName")
                   Config.MAX_WAREHOUSE_NAME_LENGTH (warehouseName t)) w) Hg2)
      as (e & He & Hc).
    exists e. eexists. split; [|exact Hc].
    erewrite tryCatch_throw.
    2:{ erewrite bind_return by (apply validateAndTrim_ok; exact Hne).
        apply bind_throw.
        destruct (geoName t) as [|x xs]; [congruence|]. simpl truthy. cbv iota.
        apply bind_throw. exact He. }
    rewrite bind_return with (a := tt)
      (w' := record [Log LApi LvError
                       (js "Failed to transform tariff at index "
                        ++ natToString i ++ js ":") (Some e)] _)
      by reflexivity.
    unfold throw. rewrite record_record. reflexivity.
Qed.

Lemma namesPresent_dec (t : WBWarehouseTariff) :
  {namesPresent t} + {~ namesPresent t}.
Proof.
  unfold namesPresent.
  destruct (trim (warehouseName t)) as [|c r].
  - right. intros [H _]. now apply H.
  - destruct (geoName t) as [|x xs].
    + left. split; [discriminate | now left].
    + destruct (trim (x :: xs)) as [|y ys].
      * right. intros [_ [H | H]]; [discriminate | now apply H].
      * left. split; [discriminate | right; discriminate].
Defined.

Lemma namesPresent_by_dec (t : WBWarehouseTariff) :
  (if namesPresent_dec t then true else false) = true -> namesPresent t.
Proof. destruct (namesPresent_dec t); [trivial | discriminate]. Qed.

Ltac names_present :=
  repeat (apply Forall_cons;
          [apply namesPresent_by_dec; vm_compute; reflexivity|]);
  apply Forall_nil.

(** The whole batch, when every entry passes. *)
Lemma mapMi_transform_ok (d : jsstring) (l : list WBWarehouseTariff) :
  forall (i : nat) (w : World),
    Forall namesPresent l ->
    exists evs,
      mapMi (WBApi.transformOne d) i l w
        = (Return (List.map (normalized d) l), record evs w)
      /\ forall t, In t l ->
           incl (truncationEvents (js "warehouseName")
                   Config.MAX_WAREHOUSE_NAME_LENGTH (warehouseName t)) evs.
Proof.
  induction l as [|t l IH]; intros i w Hall.
  - exists []. rewrite record_nil. split; [reflexivity | intros t []].
  - inversion Hall as [|? ? Ht Hl]; subst.
    destruct (transformOne_ok d i t w Ht) as (ev1 & H1 & Hin1).
    destruct (IH (S i) (record ev1 w) Hl) as (ev2 & H2 & Hin2).
    exists (ev1 ++ ev2). split.
    + simpl. erewrite bind_return by (exact H1).
      erewrite bind_return by (exact H2).
      unfold ret. now rewrite record_record.
    + intros t' [<- | Hin].
      * apply incl_appl, Hin1.
      * apply incl_appr, Hin2, Hin.
Qed.

(** The whole batch, when some entry does not pass. *)
Lemma mapMi_transform_throws (d : jsstring) (l : list WBWarehouseTariff) :
  forall (i : nat) (w : World),
    Exists (fun t => ~ namesPresent t) l ->
    exists e evs,
      mapMi (WBApi.transformOne d) i l w = (Throw e, record evs w)
      /\ errClass e = ValidationError.
Proof.
  induction l as [|t l IH]; intros i w Hex.
  - inversion Hex.
  - destruct (namesPresent_dec t) as [Ht | Ht].
    + assert (Hl : Exists (fun t => ~ namesPresent t) l).
      { inversion Hex; subst; [contradiction | assumption]. }
      destruct (transformOne_ok d i t w Ht) as (ev1 & H1 & _).
      destruct (IH (S i) (record ev1 w) Hl) as (e & ev2 & H2 & Hc).
      exists e, (ev1 ++ ev2). split; [|exact Hc].
      simpl. erewrite bind_return by (exact H1).
      erewrite bind_throw by (exact H2).
      now rewrite record_record.
    + destruct (transformOne_throws d i t w Ht) as (e & ev & H & Hc).
      exists e, ev. split; [|exact Hc].
      simpl. erewrite bind_throw by (exact H). reflexivity.
Qed.

Lemma normalized_absentWhere (d : jsstring) (t : WBWarehouseTariff) :
  absentWhere t (normalized d t).
Proof.
  unfold absentWhere, normalized; simpl.
  repeat split; intros H;
    solve [apply parseValue_sentinel; exact H
          | apply coefficientOf_absent; exact H].
Qed.

Lemma transformToDbFormat_ok (tariffs : list WBWarehouseTariff)
    (d : jsstring) (w : World) :
  Forall namesPresent tariffs ->
  exists evs,
    WBApi.transformToDbFormat tariffs d w
      = (Return (List.map (normalized d) tariffs), record evs w)
    /\ forall t, In t tariffs ->
         incl (truncationEvents (js "warehouseName")
                 Config.MAX_WAREHOUSE_NAME_LENGTH (warehouseName t)) evs.
Proof.
  intros Hall. unfold WBApi.transformToDbFormat.
  set (w1 := record [Log LApi LvDebug
                       (js "Transforming " ++ natToString (List.length tariffs)
                        ++ js " tariffs to database format") None] w).
  rewrite bind_return with (a := tt) (w' := w1) by reflexivity.
  destruct (mapMi_transform_ok d tariffs 0 w1 Hall) as (evs & H & Hin).
  eexists. rewrite H. unfold w1. rewrite record_record.
  split; [reflexivity|].
  intros t Ht. apply incl_appr, Hin, Ht.
Qed.

(** White space is not the sentinel: a value of blanks only is kept, as
    the empty string it trims to; a coefficient of blanks only is absent
    all the same, for want of a number. *)
Example blank_value_is_not_a_sentinel :
  WBApi.parseValue (js "  ") = Some []
  /\ fst (WBApi.parseCoefficient (js "  ") Samples.emptyWorld) = Return None.
Proof. split; reflexivity. Qed.

(** C4. Normalisation maps the sentinel token "-" and the empty value to
    absent on every value field of every entry, string-valued and
    coefficient alike, and a coefficient that is not numeric is absent as
    well: whatever the value fields hold, a batch whose names pass
    validation is normalised, and each record has [None] wherever the raw
    field is a sentinel or a coefficient without a number in it. *)
Theorem sentinel_fields_absent (tariffs : list WBWarehouseTariff)
    (d : jsstring) (w : World) :
  Forall namesPresent tariffs ->
  exists recs w',
    WBApi.transformToDbFormat tariffs d w = (Return recs, w')
    /\ Forall2 absentWhere tariffs recs.
Proof.
  intros Hall.
  destruct (transformToDbFormat_ok tariffs d w Hall) as (evs & H & _).
  exists (List.map (normalized d) tariffs), (record evs w).
  split; [exact H|].
  clear. induction tariffs as [|t l IH]; simpl; constructor.
  - apply normalized_absentWhere.
  - exact IH.
Qed.

Lemma sentinel_fields_absent_witness :
  exists recs w',
    WBApi.transformToDbFormat [Samples.sentinelEntry; Samples.plainEntry]
      Samples.day Samples.emptyWorld = (Return recs, w')
    /\ Forall2 absentWhere [Samples.sentinelEntry; Samples.plainEntry] recs.
Proof.
  apply sentinel_fields_absent.
  names_present.
Defined.

(** C9 (amended). An entry whose warehouse name is longer than the limit
    after trimming gets its name cut to the limit, with a warning, and
    still yields a record: a batch in which every name has a character
    that is not white space is normalised entry by entry.  A name that is
    empty or white space only is different: it makes the whole batch fail
    with a validation error. *)
Theorem overlong_name_truncated (tariffs : list WBWarehouseTariff)
    (d : jsstring) (w : World) :
  (Forall namesPresent tariffs ->
   exists recs evs,
     WBApi.transformToDbFormat tariffs d w = (Return recs, record evs w)
     /\ Forall2
          (fun t r =>
             warehouse_name r
               = substring0 Config.MAX_WAREHOUSE_NAME_LENGTH
                   (trim (warehouseName t))
             /\ List.length (warehouse_name r)
                  <= Config.MAX_WAREHOUSE_NAME_LENGTH)
          tariffs recs
     /\ forall t,
          In t tariffs ->
          Config.MAX_WAREHOUSE_NAME_LENGTH
            < List.length (trim (warehouseName t)) ->
          In (truncationWarning (js "warehouseName")
                Config.MAX_WAREHOUSE_NAME_LENGTH (trim (warehouseName t)))
             evs)
  /\ (Exists (fun t => trim (warehouseName t) = []) tariffs ->
      exists e w',
        WBApi.transformToDbFormat tariffs d w = (Throw e, w')
        /\ errClass e = ValidationError).
Proof.
  split.
  - intros Hall.
    destruct (transformToDbFormat_ok tariffs d w Hall) as (evs & H & Hin).
    exists (List.map (normalized d) tariffs), evs.
    split; [exact H|]. split.
    + clear. induction tariffs as [|t l IH]; simpl; constructor; [|exact IH].
      split; [reflexivity|].
      exact (firstn_le_length Config.MAX_WAREHOUSE_NAME_LENGTH
               (trim (warehouseName t))).
    + intros t Ht Hlong. apply (Hin t Ht).
      unfold truncationEvents.
      apply Nat.ltb_lt in Hlong. rewrite Hlong. now left.
  - intros Hex. unfold WBApi.transformToDbFormat.
    set (w1 := record [Log LApi LvDebug
                         (js "Transforming " ++ natToString (List.length tariffs)
                          ++ js " tariffs to database format") None] w).
    rewrite bind_return with (a := tt) (w' := w1) by reflexivity.
    assert (Hex' : Exists (fun t => ~ namesPresent t) tariffs).
    { apply Exists_exists in Hex. destruct Hex as (t & Ht & Hb).
      apply Exists_exists. exists t. split; [exact Ht|].
      intros [Hne _]. now apply Hne. }
    destruct (mapMi_transform_throws d tariffs 0 w1 Hex')
      as (e & evs & H & Hc).
    exists e. eexists. split; [exact H | exact Hc].
Qed.

Lemma overlong_name_truncated_witness :
  exists recs evs,
    WBApi.transformToDbFormat [Samples.plainEntry; Samples.longNameEntry]
      Samples.day Samples.emptyWorld = (Return recs, record evs Samples.emptyWorld)
    /\ Forall2
         (fun t r =>
            warehouse_name r
              = substring0 Config.MAX_WAREHOUSE_NAME_LENGTH
                  (trim (warehouseName t))
            /\ List.length (warehouse_name r)
                 <= Config.MAX_WAREHOUSE_NAME_LENGTH)
         [Samples.plainEntry; Samples.longNameEntry] recs
    /\ forall t,
         In t [Samples.plainEntry; Samples.longNameEntry] ->
         Config.MAX_WAREHOUSE_NAME_LENGTH
           < List.length (trim (warehouseName t)) ->
         In (truncationWarning (js "warehouseName")
               Config.MAX_WAREHOUSE_NAME_LENGTH (trim (warehouseName t)))
            evs.
Proof.
  apply (proj1 (overlong_name_truncated
                  [Samples.plainEntry; Samples.longNameEntry]
                  Samples.day Samples.emptyWorld)).
  names_present.
Defined.

(** C9, as stated, fails: a batch of one ordinary entry and one entry
    whose only defect is a blank name is not normalised at all. *)
Lemma blank_name_fails_batch :
  exists e w',
    WBApi.transformToDbFormat [Samples.plainEntry; Samples.blankNameEntry]
      Samples.day Samples.emptyWorld = (Throw e, w')
    /\ e = newValidationError
             (js "warehouseName cannot be empty or whitespace only").
Proof.
  eexists. eexists. split; vm_compute; reflexivity.
Qed.

End Normalisation.

(* ===================================================================== *)
(** * The tariff store (repositories/tariffRepository.ts) *)
(* ===================================================================== *)

Module Store.

Import JSFacts EffFacts.

(** ** Keys and single rows *)

Lemma sameKey_iff (a b : BoxTariff) :
  Repository.sameKey a b = true <-> keyOf a = keyOf b.
Proof.
  unfold Repository.sameKey, keyOf.
  rewrite andb_true_iff, !str_eqb_eq. split.
  - intros [E1 E2]. now rewrite E1, E2.
  - intros E. injection E. auto.
Qed.

Lemma sameKey_false_iff (a b : BoxTariff) :
  Repository.sameKey a b = false <-> keyOf a <> keyOf b.
Proof.
  rewrite <- sameKey_iff. destruct (Repository.sameKey a b); split;
    congruence.
Qed.

Lemma mergeRow_key (now : Z) (old : Row) (t : BoxTariff) :
  rowKey (Repository.mergeRow now old t) = rowKey old.
Proof. reflexivity. Qed.

(** On a conflict the stored tariff becomes the proposed one as a whole:
    the ten listed columns are taken from it and the key columns agree. *)
Lemma mergeRow_whole (now : Z) (old : Row) (t : BoxTariff) :
  Repository.sameKey (row_tariff old) t = true ->
  Repository.mergeRow now old t = mkRow t (created_at old) now.
Proof.
  intros H. apply sameKey_iff in H. unfold keyOf in H.
  injection H as Hd Hn. unfold Repository.mergeRow.
  rewrite Hd, Hn. destruct t; reflexivity.
Qed.

Lemma upsertRow_keys (now : Z) (t : BoxTariff) (tb : list Row) :
  List.map rowKey (Repository.upsertRow now t tb) =
  if existsb (fun r => Repository.sameKey (row_tariff r) t) tb
  then List.map rowKey tb
  else List.map rowKey tb ++ [keyOf t].
Proof.
  induction tb as [|r tb IH]; simpl; [reflexivity|].
  destruct (Repository.sameKey (row_tariff r) t) eqn:E; simpl.
  - reflexivity.
  - rewrite IH.
    destruct (existsb (fun r0 => Repository.sameKey (row_tariff r0) t) tb);
      reflexivity.
Qed.

Lemma no_row_with_key (t : BoxTariff) (tb : list Row) :
  existsb (fun r => Repository.sameKey (row_tariff r) t) tb = false ->
  ~ In (keyOf t) (List.map rowKey tb).
Proof.
  intros H Hin. apply in_map_iff in Hin. destruct Hin as (r & Hk & Hr).
  assert (Hex : existsb (fun r => Repository.sameKey (row_tariff r) t) tb = true).
  { apply existsb_exists. exists r. split; [exact Hr|].
    apply sameKey_iff. exact Hk. }
  congruence.
Qed.

Lemma upsertRow_unique (now : Z) (t : BoxTariff) (tb : list Row) :
  uniqueKeys tb -> uniqueKeys (Repository.upsertRow now t tb).
Proof.
  unfold uniqueKeys. intros H. rewrite upsertRow_keys.
  destruct (existsb _ tb) eqn:E; [exact H|].
  apply NoDup_app; [exact H | repeat constructor; intros [] |].
  intros a Ha [<- | []]. revert Ha. now apply no_row_with_key.
Qed.

Lemma upsertRow_has (now : Z) (t : BoxTariff) (tb : list Row) :
  exists c, In (mkRow t c now) (Repository.upsertRow now t tb).
Proof.
  induction tb as [|r tb (c & IH)]; simpl.
  - exists now. now left.
  - destruct (Repository.sameKey (row_tariff r) t) eqn:E.
    + exists (created_at r). left. now apply mergeRow_whole.
    + exists c. right. exact IH.
Qed.

Lemma rowsWithKey_none (t : BoxTariff) (tb : list Row) :
  ~ In (keyOf t) (List.map rowKey tb) -> rowsWithKey t tb = [].
Proof.
  induction tb as [|r tb IH]; simpl; intros H; [reflexivity|].
  destruct (Repository.sameKey (row_tariff r) t) eqn:E.
  - exfalso. apply H. left. now apply sameKey_iff.
  - apply IH. intros Hin. apply H. now right.
Qed.

Lemma rowsWithKey_unique (t : BoxTariff) (row : Row) (tb : list Row) :
  uniqueKeys tb -> In row tb -> rowKey row = keyOf t ->
  rowsWithKey t tb = [row].
Proof.
  unfold uniqueKeys.
  induction tb as [|r tb IH]; simpl; intros Hnd Hin Hk; [contradiction|].
  inversion Hnd as [|? ? Hnotin Hnd']; subst.
  destruct Hin as [-> | Hin].
  - assert (E : Repository.sameKey (row_tariff row) t = true)
      by now apply sameKey_iff.
    rewrite E. f_equal. apply rowsWithKey_none.
    fold (rowKey row) in Hnotin. now rewrite <- Hk.
  - assert (E : Repository.sameKey (row_tariff r) t = false).
    { apply sameKey_false_iff. intros Hr. apply Hnotin.
      apply in_map_iff. exists row. split; [|exact Hin].
      unfold rowKey in *. congruence. }
    rewrite E. now apply IH.
Qed.

Lemma rowsWithKey_upsert_other (now : Z) (t t' : BoxTariff) (tb : list Row) :
  keyOf t' <> keyOf t ->
  rowsWithKey t (Repository.upsertRow now t' tb) = rowsWithKey t tb.
Proof.
  intros Hne. induction tb as [|r tb IH]; simpl.
  - assert (E : Repository.sameKey t' t = false) by now apply sameKey_false_iff.
    now rewrite E.
  - destruct (Repository.sameKey (row_tariff r) t') eqn:E'.
    + assert (Hr : keyOf (row_tariff r) = keyOf t') by now apply sameKey_iff.
      assert (E1 : Repository.sameKey (row_tariff r) t = false).
      { apply sameKey_false_iff. congruence. }
      assert (E2 : Repository.sameKey
                     (row_tariff (Repository.mergeRow now r t')) t = false).
      { apply sameKey_false_iff.
        change (rowKey (Repository.mergeRow now r t') <> keyOf t).
        rewrite mergeRow_key. unfold rowKey. congruence. }
      simpl. unfold rowsWithKey. simpl.
      rewrite E1. simpl in E2. rewrite E2. reflexivity.
    + simpl. unfold rowsWithKey in *. simpl.
      destruct (Repository.sameKey (row_tariff r) t); now rewrite IH.
Qed.

(** ** One statement *)

Lemma insertChunk_cons (now : Z) (t : BoxTariff) (l : list BoxTariff)
    (tb : list Row) :
  Repository.insertChunk now (t :: l) tb
  = Repository.insertChunk now l (Repository.upsertRow now t tb).
Proof. reflexivity. Qed.

Lemma insertChunk_app (now : Z) (l1 l2 : list BoxTariff) (tb : list Row) :
  Repository.insertChunk now (l1 ++ l2) tb
  = Repository.insertChunk now l2 (Repository.insertChunk now l1 tb).
Proof. unfold Repository.insertChunk. apply fold_left_app. Qed.

Lemma insertChunk_unique (now : Z) (l : list BoxTariff) :
  forall tb, uniqueKeys tb -> uniqueKeys (Repository.insertChunk now l tb).
Proof.
  induction l as [|t l IH]; intros tb H; [exact H|].
  rewrite insertChunk_cons. apply IH. now apply upsertRow_unique.
Qed.

Lemma insertChunk_other (now : Z) (t : BoxTariff) (l : list BoxTariff) :
  forall tb,
    ~ In (keyOf t) (List.map keyOf l) ->
    rowsWithKey t (Repository.insertChunk now l tb) = rowsWithKey t tb.
Proof.
  induction l as [|x l IH]; intros tb H; [reflexivity|].
  rewrite insertChunk_cons, IH.
  - apply rowsWithKey_upsert_other. intros E. apply H. left. exact E.
  - intros Hin. apply H. now right.
Qed.

(** After a statement whose rows have distinct keys, the store holds
    exactly one row for each of them, and it is the proposed one. *)
Lemma insertChunk_last_wins (now : Z) (t : BoxTariff) (l : list BoxTariff) :
  forall tb,
    NoDup (List.map keyOf l) -> In t l -> uniqueKeys tb ->
    exists c, rowsWithKey t (Repository.insertChunk now l tb) = [mkRow t c now].
Proof.
  induction l as [|x l IH]; intros tb Hnd Hin Hu; [contradiction|].
  simpl in Hnd. inversion Hnd as [|? ? Hnotin Hnd']; subst.
  rewrite insertChunk_cons.
  destruct Hin as [-> | Hin].
  - destruct (upsertRow_has now t tb) as [c Hc].
    exists c. rewrite insertChunk_other by exact Hnotin.
    apply rowsWithKey_unique; [now apply upsertRow_unique | exact Hc |].
    reflexivity.
  - apply IH; [exact Hnd' | exact Hin | now apply upsertRow_unique].
Qed.

(** ** The chunk loop *)

Lemma chunkSize_pos : Repository.chunkSize <> 0.
Proof. discriminate. Qed.

Lemma chunk_index (k : nat) :
  (k * Repository.chunkSize) / Repository.chunkSize = k.
Proof. apply Nat.div_mul, chunkSize_pos. Qed.

Lemma chunk_slice (all : list BoxTariff) (k : nat) :
  slice (k * Repository.chunkSize)
        (k * Repository.chunkSize + Repository.chunkSize) all
  = firstn Repository.chunkSize (skipn (k * Repository.chunkSize) all).
Proof.
  unfold slice. f_equal. lia.
Qed.

Lemma chunk_started (all : list BoxTariff) (k : nat) :
  k * Repository.chunkSize < List.length all <-> k < chunkCount all.
Proof.
  unfold chunkCount. pose proof chunkSize_pos as Hp.
  set (cs := Repository.chunkSize) in *.
  set (n := List.length all). split; intros H.
  - apply Nat.div_le_lower_bound; [exact Hp|]. nia.
  - pose proof (Nat.Div0.mul_div_le (n + (cs - 1)) cs) as Hle.
    set (q := (n + (cs - 1)) / cs) in *. nia.
Qed.

Section ChunkLoop.

Variables (faults : Repository.DbFaults) (now : Z) (all : list BoxTariff).

Local Abbreviation loop := (Repository.chunkLoop faults now all).
Local Abbreviation cs := Repository.chunkSize.

Lemma chunkLoop_step (fuel k : nat) (work : list Row) (w : World) :
  loop (S fuel) (k * cs) work w =
  if k * cs <? List.length all then
    match Repository.chunkFails faults k (chunkAt all k) with
    | Some e => (Throw e, w)
    | None =>
        loop fuel (S k * cs)
          (Repository.insertChunk now (chunkAt all k) work)
          (record [Log LDatabase LvDebug
                     (js "Processed chunk " ++ natToString (k + 1) ++ js "/"
                      ++ natToString (chunkCount all)) None] w)
    end
  else (Return work, w).
Proof.
  cbn [Repository.chunkLoop]. rewrite chunk_index.
  fold (chunkAt all k).
  destruct (k * cs <? List.length all); [|reflexivity].
  destruct (Repository.chunkFails faults k (chunkAt all k)); [reflexivity|].
  unfold bind at 1. rewrite log_run.
  replace (k * cs + cs) with (S k * cs)
    by apply Nat.mul_succ_l.
  reflexivity.
Qed.

(** The loop only logs. *)
Lemma chunkLoop_world (fuel : nat) :
  forall (k : nat) (work : list Row) (w : World),
    exists evs, snd (loop fuel (k * cs) work w) = record evs w.
Proof.
  induction fuel as [|fuel IH]; intros k work w.
  - exists []. simpl. now rewrite record_nil.
  - rewrite chunkLoop_step.
    destruct (k * cs <? List.length all).
    + destruct (Repository.chunkFails faults k (chunkAt all k)).
      * exists []. simpl. now rewrite record_nil.
      * edestruct IH as [evs H]. rewrite H.
        eexists. apply record_record.
    + exists []. simpl. now rewrite record_nil.
Qed.

(** When the loop returns, all rows from its position on are written. *)
Lemma chunkLoop_value (fuel : nat) :
  forall (k : nat) (work : list Row) (w : World) (r : list Row) (w' : World),
    List.length all <= (k + fuel) * cs ->
    loop fuel (k * cs) work w = (Return r, w') ->
    r = Repository.insertChunk now (skipn (k * cs) all) work.
Proof.
  induction fuel as [|fuel IH]; intros k work w r w' Hfuel H.
  - simpl in H. injection H as <- _.
    rewrite skipn_all2 by (rewrite Nat.add_0_r in Hfuel; exact Hfuel).
    reflexivity.
  - rewrite chunkLoop_step in H.
    destruct (k * cs <? List.length all) eqn:Hlt.
    + destruct (Repository.chunkFails faults k (chunkAt all k)); [discriminate|].
      apply IH in H; [|lia]. rewrite H.
      rewrite <- insertChunk_app. f_equal.
      unfold chunkAt. rewrite chunk_slice.
      replace (S k * cs) with (cs + k * cs)
        by (rewrite Nat.mul_succ_l; apply Nat.add_comm).
      rewrite <- skipn_skipn. apply firstn_skipn.
    + injection H as <- _. apply Nat.ltb_ge in Hlt.
      now rewrite skipn_all2.
Qed.

(** Without a failing statement the loop returns. *)
Lemma chunkLoop_returns (fuel : nat) :
  (forall j, j < chunkCount all ->
             Repository.chunkFails faults j (chunkAt all j) = None) ->
  forall (k : nat) (work : list Row) (w : World),
    exists r, fst (loop fuel (k * cs) work w) = Return r.
Proof.
  intros Hok. induction fuel as [|fuel IH]; intros k work w.
  - eexists. reflexivity.
  - rewrite chunkLoop_step.
    destruct (k * cs <? List.length all) eqn:Hlt.
    + apply Nat.ltb_lt, chunk_started in Hlt.
      rewrite (Hok k Hlt). apply IH.
    + eexists. reflexivity.
Qed.

(** The first failing statement ends the loop with its error. *)
Lemma chunkLoop_fails (kf : nat) (e : Err) (fuel : nat) :
  firstFailure faults all kf e ->
  forall (k : nat) (work : list Row) (w : World),
    k <= kf ->
    List.length all <= (k + fuel) * cs ->
    fst (loop fuel (k * cs) work w) = Throw e.
Proof.
  intros (Hkf & Hfail & Hbefore).
  apply chunk_started in Hkf. pose proof chunkSize_pos as Hp.
  induction fuel as [|fuel IH]; intros k work w Hk Hfuel.
  - exfalso. rewrite Nat.add_0_r in Hfuel. nia.
  - rewrite chunkLoop_step.
    assert (Hlt : (k * cs <? List.length all) = true).
    { apply Nat.ltb_lt. nia. }
    rewrite Hlt.
    destruct (Nat.eq_dec k kf) as [-> | Hne].
    + now rewrite Hfail.
    + rewrite (Hbefore k) by lia. apply IH; lia.
Qed.

End ChunkLoop.

(** ** [upsertTariffs] *)

Lemma upsert_empty (faults : Repository.DbFaults) (w : World) :
  Repository.upsertTariffs faults [] w
  = (Return tt,
     record [Log LDatabase LvWarn
               (js "Attempted to upsert empty tariffs array") None] w).
Proof. reflexivity. Qed.

(** [upsertTariffs] on a non-empty list, in terms of its chunk loop. *)
Lemma upsert_run (faults : Repository.DbFaults) (tariffs : list BoxTariff)
    (w : World) :
  tariffs <> [] ->
  Repository.upsertTariffs faults tariffs w =
  let w1 := record [upsertStarted tariffs] w in
  match Repository.beginFails faults with
  | Some e => (Throw e, w1)
  | None =>
      let (o, w2) :=
        Repository.chunkLoop faults (clock w) tariffs (List.length tariffs) 0
          (tariffsTable w) w1 in
      afterChunks faults tariffs o w2
  end.
Proof.
  intros Hne. unfold Repository.upsertTariffs.
  destruct (List.length tariffs =? 0) eqn:E.
  { apply Nat.eqb_eq, length_zero_iff_nil in E. contradiction. }
  unfold bind at 1. rewrite log_run.
  unfold bind at 1. unfold dateNow at 1.
  unfold upsertStarted. cbv zeta.
  destruct (Repository.beginFails faults); [reflexivity|].
  unfold bind at 1. unfold getWorld at 1. unfold tryCatch.
  unfold bind at 1.
  change (clock (record _ w)) with (clock w).
  change (tariffsTable (record _ w)) with (tariffsTable w).
  destruct (Repository.chunkLoop _ _ _ _ _ _ _) as [[work|e] w2];
    unfold afterChunks, rolledBack;
    destruct (Repository.commitFails faults);
    destruct (Repository.rollbackFails faults); reflexivity.
Qed.

Lemma rolledBack_keeps (faults : Repository.DbFaults) (error : Err)
    (w : World) :
  (exists e, fst (rolledBack faults error w) = Throw e)
  /\ tariffsTable (snd (rolledBack faults error w)) = tariffsTable w
  /\ spreadsheetsTable (snd (rolledBack faults error w)) = spreadsheetsTable w
  /\ collector (snd (rolledBack faults error w)) = collector w
  /\ clock (snd (rolledBack faults error w)) = clock w.
Proof.
  unfold rolledBack. destruct (Repository.rollbackFails faults); simpl;
    repeat split; eexists; reflexivity.
Qed.

(** What one call leaves behind: the table is either untouched or has
    every row written; nothing else of the store changes. *)
Lemma upsert_outcome (faults : Repository.DbFaults) (tariffs : list BoxTariff)
    (w : World) :
  let res := Repository.upsertTariffs faults tariffs w in
  (fst res = Return tt
   /\ tariffsTable (snd res)
      = Repository.insertChunk (clock w) tariffs (tariffsTable w)
   \/ (exists e, fst res = Throw e)
      /\ tariffsTable (snd res) = tariffsTable w)
  /\ spreadsheetsTable (snd res) = spreadsheetsTable w
  /\ collector (snd res) = collector w
  /\ clock (snd res) = clock w.
Proof.
  cbv zeta. destruct tariffs as [|t0 rest].
  { rewrite upsert_empty. simpl. repeat split. left. now split. }
  set (tariffs := t0 :: rest).
  rewrite upsert_run by discriminate. cbv zeta.
  destruct (Repository.beginFails faults) as [eb|].
  { simpl. repeat split. right. split; [eexists|]; reflexivity. }
  set (w1 := record [upsertStarted tariffs] w).
  pose proof (chunkLoop_world faults (clock w) tariffs (List.length tariffs)
                0 (tariffsTable w) w1) as [evs Hw].
  change (0 * Repository.chunkSize) with 0 in Hw.
  destruct (Repository.chunkLoop faults (clock w) tariffs
              (List.length tariffs) 0 (tariffsTable w) w1)
    as [[work|el] w2] eqn:Hloop; simpl snd in Hw; subst w2.
  - unfold afterChunks. destruct (Repository.commitFails faults) as [ec|].
    + pose proof (rolledBack_keeps faults ec (record evs w1))
        as (He & Ht & Hs & Hc & Hk).
      rewrite Ht, Hs, Hc, Hk. repeat split. right. split; [exact He|].
      reflexivity.
    + simpl. repeat split. left. split; [reflexivity|].
      apply chunkLoop_value with (k := 0) in Hloop; [exact Hloop|].
      pose proof chunkSize_pos. simpl. nia.
  - unfold afterChunks.
    pose proof (rolledBack_keeps faults el (record evs w1))
      as (He & Ht & Hs & Hc & Hk).
    rewrite Ht, Hs, Hc, Hk. repeat split. right. split; [exact He|].
    reflexivity.
Qed.

(** A database that does what it is asked makes the call return. *)
Lemma upsert_succeeds (faults : Repository.DbFaults)
    (tariffs : list BoxTariff) (w : World) :
  Repository.beginFails faults = None ->
  Repository.commitFails faults = None ->
  (forall j, j < chunkCount tariffs ->
             Repository.chunkFails faults j (chunkAt tariffs j) = None) ->
  fst (Repository.upsertTariffs faults tariffs w) = Return tt.
Proof.
  intros Hb Hc Hok. destruct tariffs as [|t0 rest]; [reflexivity|].
  set (tariffs := t0 :: rest) in *.
  rewrite upsert_run by discriminate. cbv zeta. rewrite Hb.
  set (w1 := record [upsertStarted tariffs] w).
  destruct (chunkLoop_returns faults (clock w) tariffs (List.length tariffs)
              Hok 0 (tariffsTable w) w1) as [r Hr].
  change (0 * Repository.chunkSize) with 0 in Hr.
  destruct (Repository.chunkLoop faults (clock w) tariffs
              (List.length tariffs) 0 (tariffsTable w) w1) as [o w2].
  simpl in Hr. subst o. unfold afterChunks. now rewrite Hc.
Qed.

(** A statement that fails makes the call throw the wrapped error. *)
Lemma upsert_chunk_failure (faults : Repository.DbFaults)
    (tariffs : list BoxTariff) (w : World) (k : nat) (e : Err) :
  Repository.beginFails faults = None ->
  Repository.rollbackFails faults = None ->
  firstFailure faults tariffs k e ->
  fst (Repository.upsertTariffs faults tariffs w)
  = Throw (newDatabaseError (js "Failed to upsert tariffs: " ++ message e)).
Proof.
  intros Hb Hr Hfail.
  assert (Hne : tariffs <> []).
  { intros ->. destruct Hfail as (Hk & _). unfold chunkCount in Hk.
    simpl in Hk. lia. }
  rewrite upsert_run by exact Hne. cbv zeta. rewrite Hb.
  set (w1 := record [upsertStarted tariffs] w).
  pose proof (chunkLoop_fails faults (clock w) tariffs k e
                (List.length tariffs) Hfail 0 (tariffsTable w) w1
                (Nat.le_0_l k)) as Hthrow.
  change (0 * Repository.chunkSize) with 0 in Hthrow.
  destruct (Repository.chunkLoop faults (clock w) tariffs
              (List.length tariffs) 0 (tariffsTable w) w1) as [o w2].
  simpl in Hthrow. rewrite Hthrow.
  - unfold afterChunks, rolledBack. now rewrite Hr.
  - pose proof chunkSize_pos. simpl. nia.
Qed.

(** C3. [upsert] on an empty list returns without error and leaves the
    table as it is.  On any list the call is all or nothing: either it
    returns and every record is written, or it throws and the table is the
    one from before the call.  In particular, when one of the 500-row
    statements fails (and the transaction can be opened and rolled back),
    the call throws the wrapped storage error and no record of any
    statement is visible. *)
Theorem upsert_all_or_nothing (faults : Repository.DbFaults)
    (tariffs : list BoxTariff) (w : World) :
  let res := Repository.upsertTariffs faults tariffs w in
  (tariffs = [] ->
   fst res = Return tt /\ tariffsTable (snd res) = tariffsTable w)
  /\ (fst res = Return tt
      /\ tariffsTable (snd res)
         = Repository.insertChunk (clock w) tariffs (tariffsTable w)
      \/ (exists e, fst res = Throw e)
         /\ tariffsTable (snd res) = tariffsTable w)
  /\ (forall k e,
        Repository.beginFails faults = None ->
        Repository.rollbackFails faults = None ->
        firstFailure faults tariffs k e ->
        fst res = Throw (newDatabaseError
                           (js "Failed to upsert tariffs: " ++ message e))
        /\ tariffsTable (snd res) = tariffsTable w).
Proof.
  cbv zeta. split; [|split].
  - intros ->. now rewrite upsert_empty.
  - apply upsert_outcome.
  - intros k e Hb Hr Hfail.
    pose proof (upsert_chunk_failure faults tariffs w k e Hb Hr Hfail) as Hthrow.
    split; [exact Hthrow|].
    destruct (upsert_outcome faults tariffs w) as ([[Hret _] | [_ Hsame]] & _).
    + rewrite Hthrow in Hret. discriminate.
    + exact Hsame.
Qed.

Lemma upsert_all_or_nothing_witness :
  fst (Repository.upsertTariffs Samples.secondStatementFails
         Samples.manyTariffs Samples.storedWorld)
  = Throw (newDatabaseError
             (js "Failed to upsert tariffs: "
              ++ message Samples.statementError))
  /\ tariffsTable (snd (Repository.upsertTariffs Samples.secondStatementFails
                          Samples.manyTariffs Samples.storedWorld))
     = tariffsTable Samples.storedWorld.
Proof.
  apply (proj2 (proj2 (upsert_all_or_nothing Samples.secondStatementFails
                         Samples.manyTariffs Samples.storedWorld))
           1 Samples.statementError).
  - reflexivity.
  - reflexivity.
  - split; [|split].
    + apply Nat.ltb_lt. vm_compute. reflexivity.
    + reflexivity.
    + intros j Hj. destruct j; [reflexivity | lia].
Defined.

(** C6. Two upserts in a row that both carry a record with the same
    (date, warehouse_name) key leave exactly one stored row with that key,
    and the row holds the record of the second call as a whole: every
    column other than the key equals the second call's value, [None]
    included, and [updated_at] is the time of the second call.  (The
    bookkeeping column [created_at] stays as first inserted.) *)
Theorem upsert_twice_last_writer_wins (w : World) (l1 l2 : list BoxTariff)
    (r1 r2 : BoxTariff) :
  uniqueKeys (tariffsTable w) ->
  In r1 l1 -> In r2 l2 -> keyOf r1 = keyOf r2 ->
  NoDup (List.map keyOf l2) ->
  let run1 := Repository.upsertTariffs Repository.noFaults l1 w in
  let run2 := Repository.upsertTariffs Repository.noFaults l2 (snd run1) in
  fst run1 = Return tt
  /\ fst run2 = Return tt
  /\ exists c,
       rowsWithKey r2 (tariffsTable (snd run2))
       = [mkRow r2 c (clock (snd run1))].
Proof.
  intros Hu H1 H2 Hk Hnd. cbv zeta.
  assert (Hok : forall l w', fst (Repository.upsertTariffs Repository.noFaults l w')
                             = Return tt).
  { intros l w'. apply upsert_succeeds; reflexivity. }
  split; [apply Hok|]. split; [apply Hok|].
  set (w1 := snd (Repository.upsertTariffs Repository.noFaults l1 w)).
  destruct (upsert_outcome Repository.noFaults l1 w)
    as ([[_ Ht1] | [[e He] _]] & _); [|rewrite Hok in He; discriminate].
  destruct (upsert_outcome Repository.noFaults l2 w1)
    as ([[_ Ht2] | [[e He] _]] & _); [|rewrite Hok in He; discriminate].
  rewrite Ht2. apply insertChunk_last_wins; [exact Hnd | exact H2 |].
  unfold w1. rewrite Ht1. now apply insertChunk_unique.
Qed.

Lemma upsert_twice_last_writer_wins_witness :
  let r1 := Samples.tariffOf (js "A") (Some (js "Center")) (Some 7%Z) in
  let r2 := Samples.tariffOf (js "A") None None in
  let run1 := Repository.upsertTariffs Repository.noFaults
                [r1; Samples.tariffOf (js "B") None (Some 3%Z)]
                Samples.storedWorld in
  let run2 := Repository.upsertTariffs Repository.noFaults [r2] (snd run1) in
  fst run1 = Return tt
  /\ fst run2 = Return tt
  /\ exists c,
       rowsWithKey r2 (tariffsTable (snd run2))
       = [mkRow r2 c (clock (snd run1))].
Proof.
  cbv zeta.
  apply (upsert_twice_last_writer_wins Samples.storedWorld
           [Samples.tariffOf (js "A") (Some (js "Center")) (Some 7%Z);
            Samples.tariffOf (js "B") None (Some 3%Z)]
           [Samples.tariffOf (js "A") None None]
           (Samples.tariffOf (js "A") (Some (js "Center")) (Some 7%Z))
           (Samples.tariffOf (js "A") None None)).
  - repeat constructor. intros [].
  - now left.
  - now left.
  - reflexivity.
  - repeat constructor. intros [].
Defined.

End Store.

(* ===================================================================== *)
(** * The sorted read-back (getTariffsByDate) *)
(* ===================================================================== *)
(** * Calendar days and their ISO texts *)
(* ===================================================================== *)

Module DayFacts.

Import JSFacts.

Lemma digit_code (c : N) :
  isDigit c = true -> (48 <= Z.of_N c <= 57)%Z.
Proof.
  unfold isDigit. rewrite andb_true_iff, !N.leb_le. lia.
Qed.

Lemma two_digits_inj (a b a' b' : N) :
  isDigit a = true -> isDigit b = true ->
  isDigit a' = true -> isDigit b' = true ->
  digitsValue [a; b] = digitsValue [a'; b'] -> a = a' /\ b = b'.
Proof.
  intros Ha Hb Ha' Hb'. apply digit_code in Ha, Hb, Ha', Hb'.
  unfold digitsValue. cbn [fold_left]. intros H.
  split; apply N2Z.inj; lia.
Qed.

Lemma four_digits_inj (a b c d a' b' c' d' : N) :
  isDigit a = true -> isDigit b = true -> isDigit c = true ->
  isDigit d = true ->
  isDigit a' = true -> isDigit b' = true -> isDigit c' = true ->
  isDigit d' = true ->
  digitsValue [a; b; c; d] = digitsValue [a'; b'; c'; d'] ->
  a = a' /\ b = b' /\ c = c' /\ d = d'.
Proof.
  intros Ha Hb Hc Hd Ha' Hb' Hc' Hd'.
  apply digit_code in Ha, Hb, Hc, Hd, Ha', Hb', Hc', Hd'.
  unfold digitsValue. cbn [fold_left]. intros H.
  repeat split; apply N2Z.inj; lia.
Qed.

(** The shape of a text that denotes a day. *)
Lemma calendarDay_form (s : jsstring) (y m d : Z) :
  calendarDay s = Some (y, m, d) ->
  exists y1 y2 y3 y4 m1 m2 a1 a2,
    s = [y1; y2; y3; y4; 45%N; m1; m2; 45%N; a1; a2]
    /\ forallb isDigit [y1; y2; y3; y4; m1; m2; a1; a2] = true
    /\ y = digitsValue [y1; y2; y3; y4]
    /\ m = digitsValue [m1; m2]
    /\ d = digitsValue [a1; a2].
Proof.
  unfold calendarDay.
  do 11 (destruct s as [|? s]; try discriminate).
  match goal with
  | |- (if ?c then _ else _) = _ -> _ => destruct c eqn:Hform; [|discriminate]
  end.
  cbv zeta.
  match goal with
  | |- (if ?c then _ else _) = _ -> _ => destruct c; [|discriminate]
  end.
  intros H. injection H as <- <- <-.
  apply andb_true_iff in Hform as [Hform H2].
  apply andb_true_iff in Hform as [Hdigits H1].
  apply N.eqb_eq in H1, H2. subst.
  do 8 eexists. split; [reflexivity|]. split; [exact Hdigits|].
  repeat split.
Qed.

(** The text of a day is determined by the day: two ISO texts of one
    calendar day are the same text. *)
Lemma calendarDay_inj (a b : jsstring) (x : Z * Z * Z) :
  calendarDay a = Some x -> calendarDay b = Some x -> a = b.
Proof.
  destruct x as [[y m] d]. intros Ha Hb.
  apply calendarDay_form in Ha
    as (y1 & y2 & y3 & y4 & m1 & m2 & a1 & a2 & -> & Hda & Hy & Hm & Hd).
  apply calendarDay_form in Hb
    as (z1 & z2 & z3 & z4 & n1 & n2 & b1 & b2 & -> & Hdb & Hy' & Hm' & Hd').
  cbn [forallb] in Hda, Hdb.
  repeat match goal with
  | H : _ && _ = true |- _ => apply andb_true_iff in H as [? ?]
  end.
  destruct (four_digits_inj y1 y2 y3 y4 z1 z2 z3 z4) as (-> & -> & -> & ->);
    try assumption; [congruence|].
  destruct (two_digits_inj m1 m2 n1 n2) as (-> & ->);
    try assumption; [congruence|].
  destruct (two_digits_inj a1 a2 b1 b2) as (-> & ->);
    try assumption; [congruence|].
  reflexivity.
Qed.

(** On ISO texts, the texts are equal exactly when the days are. *)
Lemma sameDay_text (a b : jsstring) :
  isoDate a = true -> isoDate b = true -> sameDay a b = str_eqb a b.
Proof.
  unfold isoDate, sameDay. intros Ha Hb.
  destruct (calendarDay a) as [[[y m] d]|] eqn:Ea; [|discriminate].
  destruct (calendarDay b) as [[[y' m'] d']|] eqn:Eb; [|discriminate].
  destruct (str_eqb a b) eqn:E.
  - apply str_eqb_eq in E. subst b. rewrite Ea in Eb.
    injection Eb as <- <- <-. now rewrite !Z.eqb_refl.
  - destruct ((y =? y')%Z && (m =? m')%Z && (d =? d')%Z) eqn:Hsame;
      [|reflexivity].
    apply andb_true_iff in Hsame as [Hsame Hd].
    apply andb_true_iff in Hsame as [Hy Hm].
    apply Z.eqb_eq in Hy, Hm, Hd. subst y' m' d'.
    rewrite (calendarDay_inj a b _ Ea Eb), str_eqb_refl in E. discriminate.
Qed.

Example calendarDay_values :
  calendarDay (js "2025-01-20") = Some (2025, 1, 20)%Z
  /\ calendarDay (js "2024-02-29") = Some (2024, 2, 29)%Z
  /\ calendarDay (js "2025-02-29") = None
  /\ calendarDay (js "2025-1-20") = None
  /\ calendarDay (js "0000-01-01") = None
  /\ sameDay (js "2025-01-20") (js "2025-01-20") = true
  /\ sameDay (js "2025-01-20") (js "2025-01-21") = false.
Proof. vm_compute. repeat split. Qed.

(** ** Stored records *)

Lemma storable_date (t : BoxTariff) :
  storable t -> isoDate (date t) = true.
Proof.
  unfold storable, storableB. intros H.
  repeat (apply andb_true_iff in H as [H _]). exact H.
Qed.

(** On ISO texts the conflict target of the model, which compares the date
    texts, is the unique constraint of the table, which compares days. *)
Lemma sameDayKey_sameKey (a b : BoxTariff) :
  isoDate (date a) = true -> isoDate (date b) = true ->
  sameDayKey a b = Repository.sameKey a b.
Proof.
  intros Ha Hb. unfold sameDayKey, Repository.sameKey.
  now rewrite (sameDay_text _ _ Ha Hb).
Qed.

Lemma rowsOfDayKey_text (t : BoxTariff) (table : list Row) :
  isoDate (date t) = true -> asStored table ->
  rowsOfDayKey t table = rowsWithKey t table.
Proof.
  intros Ht Hst. unfold rowsOfDayKey, rowsWithKey.
  apply filter_ext_in. intros r Hr.
  unfold asStored in Hst. rewrite Forall_forall in Hst.
  apply sameDayKey_sameKey; [|exact Ht]. apply storable_date, Hst, Hr.
Qed.

(** A text that denotes no day is the date of no stored row. *)
Lemma rowsOfDayKey_none (t : BoxTariff) (table : list Row) :
  isoDate (date t) = false -> rowsOfDayKey t table = [].
Proof.
  intros Ht. unfold rowsOfDayKey.
  induction table as [|r table IH]; [reflexivity|].
  cbn [List.filter]. rewrite IH.
  unfold sameDayKey, sameDay. unfold isoDate in Ht.
  destruct (calendarDay (date (row_tariff r))) as [[[y m] d]|];
    destruct (calendarDay (date t)); try discriminate; reflexivity.
Qed.

(** An upsert keeps the table within what PostgreSQL holds: a merged row
    keeps its date and warehouse and takes the other columns of the
    proposed record. *)
Lemma mergeRow_storable (now : Z) (old : Row) (t : BoxTariff) :
  storable (row_tariff old) -> storable t ->
  storable (row_tariff (Repository.mergeRow now old t)).
Proof.
  unfold storable, storableB.
  cbn [Repository.mergeRow row_tariff date warehouse_name geo_name
       box_delivery_base box_delivery_liter box_delivery_coef
       box_delivery_marketplace_base box_delivery_marketplace_liter
       box_delivery_marketplace_coef box_storage_base box_storage_liter
       box_storage_coef].
  rewrite !andb_true_iff. intuition.
Qed.

Lemma upsertRow_asStored (now : Z) (t : BoxTariff) (table : list Row) :
  storable t -> asStored table ->
  asStored (Repository.upsertRow now t table).
Proof.
  intros Ht. unfold asStored.
  induction table as [|r table IH]; intros Hst; cbn [Repository.upsertRow].
  - constructor; [exact Ht | constructor].
  - inversion Hst as [|r0 l0 Hr Hrest]; subst.
    destruct (Repository.sameKey (row_tariff r) t).
    + constructor; [now apply mergeRow_storable | exact Hrest].
    + constructor; [exact Hr | now apply IH].
Qed.

Lemma insertChunk_asStored (now : Z) (chunk : list BoxTariff) :
  forall table,
    Forall storable chunk -> asStored table ->
    asStored (Repository.insertChunk now chunk table).
Proof.
  induction chunk as [|t chunk IH]; intros table Hc Hst; [exact Hst|].
  inversion Hc as [|t0 l0 Ht Hrest]; subst.
  unfold Repository.insertChunk. cbn [fold_left].
  apply IH; [exact Hrest|]. now apply upsertRow_asStored.
Qed.

End DayFacts.

(* ===================================================================== *)

Module ReadBack.

Import JSFacts EffFacts.

Lemma orderLe_inOrder (collate : jsstring -> jsstring -> bool)
    (a b : TariffExportRow) :
  Repository.orderLe collate a b = true <-> inOrder collate a b.
Proof.
  unfold Repository.orderLe, inOrder.
  destruct (x_box_delivery_coef a) as [x|], (x_box_delivery_coef b) as [y|];
    try tauto; try (split; [discriminate | contradiction]).
  rewrite orb_true_iff, andb_true_iff, Z.ltb_lt, Z.eqb_eq. tauto.
Qed.

Lemma inOrder_total (collate : jsstring -> jsstring -> bool) :
  totalOrder collate ->
  forall a b, inOrder collate a b \/ inOrder collate b a.
Proof.
  intros [Htot _] a b. unfold inOrder.
  destruct (x_box_delivery_coef a) as [x|], (x_box_delivery_coef b) as [y|];
    auto.
  destruct (Z.lt_trichotomy x y) as [H | [H | H]]; auto.
  destruct (Htot (x_warehouse_name a) (x_warehouse_name b)); auto.
Qed.

Lemma inOrder_trans (collate : jsstring -> jsstring -> bool) :
  totalOrder collate ->
  forall a b c, inOrder collate a b -> inOrder collate b c ->
                inOrder collate a c.
Proof.
  intros [_ Htr] a b c. unfold inOrder.
  destruct (x_box_delivery_coef a) as [x|], (x_box_delivery_coef b) as [y|],
           (x_box_delivery_coef c) as [z|]; try tauto.
  - intros [H1 | [-> H1]] [H2 | [-> H2]]; try (left; lia).
    right. split; [reflexivity|]. eapply Htr; eassumption.
  - apply Htr.
Qed.

Section Sorting.

Variable collate : jsstring -> jsstring -> bool.
Hypothesis collation : totalOrder collate.

Local Abbreviation le := (Repository.orderLe collate).

Lemma insertSorted_perm (x : TariffExportRow) (l : list TariffExportRow) :
  Permutation (Repository.insertSorted le x l) (x :: l).
Proof.
  induction l as [|y l IH]; simpl; [reflexivity|].
  destruct (le x y); [reflexivity|].
  rewrite IH. apply perm_swap.
Qed.

Lemma orderBy_perm (l : list TariffExportRow) :
  Permutation (Repository.orderBy le l) l.
Proof.
  induction l as [|x l IH]; simpl; [reflexivity|].
  unfold Repository.orderBy in *. simpl.
  rewrite insertSorted_perm. now constructor.
Qed.

Lemma insertSorted_sorted (x : TariffExportRow) (l : list TariffExportRow) :
  Sorted (inOrder collate) l ->
  Sorted (inOrder collate) (Repository.insertSorted le x l).
Proof.
  induction l as [|y l IH]; simpl; intros Hs.
  - repeat constructor.
  - destruct (le x y) eqn:E.
    + constructor; [exact Hs|]. constructor. now apply orderLe_inOrder.
    + assert (Hyx : inOrder collate y x).
      { destruct (inOrder_total collate collation x y) as [H | H];
          [|exact H].
        apply orderLe_inOrder in H. congruence. }
      inversion Hs as [|? ? Hs' Hhd]; subst.
      constructor; [now apply IH|].
      destruct l as [|z l]; simpl.
      * constructor. exact Hyx.
      * destruct (le x z); constructor; [exact Hyx|].
        inversion Hhd; assumption.
Qed.

Lemma orderBy_sorted (l : list TariffExportRow) :
  StronglySorted (inOrder collate) (Repository.orderBy le l).
Proof.
  apply Sorted_StronglySorted.
  - intros a b c. apply inOrder_trans, collation.
  - induction l as [|x l IH]; [constructor|].
    unfold Repository.orderBy in *. simpl. now apply insertSorted_sorted.
Qed.

End Sorting.

(** [getTariffsByDate] when the query goes through. *)
Lemma getTariffsByDate_run (collate : jsstring -> jsstring -> bool)
    (d : jsstring) (w : World) :
  exists evs,
    Repository.getTariffsByDate None collate d w
    = (Return (Repository.selectByDate collate d (tariffsTable w)),
       record evs w).
Proof.
  eexists. unfold Repository.getTariffsByDate.
  apply tryCatch_return.
  unfold bind at 1. rewrite log_run.
  unfold bind at 1. unfold getWorld at 1.
  unfold bind at 1. rewrite log_run. unfold ret.
  rewrite record_record. reflexivity.
Qed.

(** Code-unit order is a collation. *)
Lemma codeUnitLe_totalOrder : totalOrder Repository.codeUnitLe.
Proof.
  split.
  - induction a as [|x a IH]; intros [|y b]; simpl; auto.
    destruct (N.lt_trichotomy x y) as [H | [-> | H]].
    + left. apply N.ltb_lt in H. now rewrite H.
    + rewrite N.eqb_refl, !orb_true_iff. simpl.
      destruct (IH b); auto.
    + right. apply N.ltb_lt in H. now rewrite H.
  - induction a as [|x a IH]; intros [|y b] [|z c]; simpl; auto;
      try discriminate.
    rewrite !orb_true_iff, !andb_true_iff, !N.ltb_lt, !N.eqb_eq.
    intros [H1 | [-> H1]] [H2 | [-> H2]]; try (left; lia).
    right. split; [reflexivity|]. eapply IH; eassumption.
Qed.

Lemma exportRow_columns (r : Row) :
  Repository.exportRow r = exportColumns (row_tariff r).
Proof. reflexivity. Qed.

(** On a table that shows what is stored, the rows whose date text is [d]
    are the rows of the day [d] denotes. *)
Lemma rows_of_day (d : jsstring) (table : list Row) :
  isoDate d = true -> asStored table ->
  List.filter (fun r => str_eqb (date (row_tariff r)) d) table
  = List.filter (fun r => sameDay (date (row_tariff r)) d) table.
Proof.
  intros Hd Hst. apply filter_ext_in. intros r Hr.
  unfold asStored in Hst. rewrite Forall_forall in Hst.
  symmetry. apply DayFacts.sameDay_text; [|exact Hd].
  apply DayFacts.storable_date, Hst, Hr.
Qed.

(** C5. For every calendar day, [readSorted] returns the stored records
    of that day (each exactly once, with the eight export columns as they
    are stored), in an order in which the delivery coefficient ascends,
    rows without a coefficient come last, and rows with the same
    coefficient ascend by warehouse name in the collation of the
    database.  Two stored entities, one without a coefficient and one
    with coefficient 3, come back as the second followed by the first,
    whichever way they are stored.  The day is given by its ISO text and
    the table shows what PostgreSQL holds. *)
Theorem readSorted_ordered (collate : jsstring -> jsstring -> bool)
    (d : jsstring) (w : World) :
  totalOrder collate ->
  isoDate d = true ->
  asStored (tariffsTable w) ->
  exists rows w',
    Repository.getTariffsByDate None collate d w = (Return rows, w')
    /\ tariffsTable w' = tariffsTable w
    /\ Permutation rows
         (List.map (fun r => exportColumns (row_tariff r))
            (List.filter (fun r => sameDay (date (row_tariff r)) d)
                         (tariffsTable w)))
    /\ StronglySorted (inOrder collate) rows
    /\ (forall a b,
          sameDay (date (row_tariff a)) d = true ->
          sameDay (date (row_tariff b)) d = true ->
          box_delivery_coef (row_tariff a) = None ->
          box_delivery_coef (row_tariff b) = Some 3%Z ->
          tariffsTable w = [a; b] \/ tariffsTable w = [b; a] ->
          rows = [exportColumns (row_tariff b); exportColumns (row_tariff a)]).
Proof.
  intros Hc Hd Hst.
  destruct (getTariffsByDate_run collate d w) as [evs Hrun].
  exists (Repository.selectByDate collate d (tariffsTable w)), (record evs w).
  split; [exact Hrun|]. split; [reflexivity|]. split; [|split].
  - unfold Repository.selectByDate.
    rewrite <- (rows_of_day d (tariffsTable w) Hd Hst).
    rewrite (orderBy_perm collate _).
    erewrite map_ext; [reflexivity|]. intros r. apply exportRow_columns.
  - apply orderBy_sorted, Hc.
  - intros a b Ha Hb Hna Hnb Htable.
    unfold Repository.selectByDate.
    assert (Hab : In a (tariffsTable w) /\ In b (tariffsTable w))
      by (destruct Htable as [E | E]; rewrite E; simpl; auto).
    destruct Hab as [Ia Ib].
    unfold asStored in Hst. rewrite Forall_forall in Hst.
    assert (Ea : str_eqb (date (row_tariff a)) d = true).
    { rewrite <- DayFacts.sameDay_text; [exact Ha | | exact Hd].
      apply DayFacts.storable_date, Hst, Ia. }
    assert (Eb : str_eqb (date (row_tariff b)) d = true).
    { rewrite <- DayFacts.sameDay_text; [exact Hb | | exact Hd].
      apply DayFacts.storable_date, Hst, Ib. }
    destruct Htable as [-> | ->]; simpl; rewrite Ea, Eb; simpl;
      unfold Repository.orderLe; simpl; rewrite Hna, Hnb; reflexivity.
Qed.

Lemma readSorted_ordered_witness :
  exists rows w',
    Repository.getTariffsByDate None Repository.codeUnitLe Samples.day
      Samples.worldAB = (Return rows, w')
    /\ tariffsTable w' = tariffsTable Samples.worldAB
    /\ Permutation rows
         (List.map (fun r => exportColumns (row_tariff r))
            (List.filter (fun r => sameDay (date (row_tariff r)) Samples.day)
                         (tariffsTable Samples.worldAB)))
    /\ StronglySorted (inOrder Repository.codeUnitLe) rows
    /\ (forall a b,
          sameDay (date (row_tariff a)) Samples.day = true ->
          sameDay (date (row_tariff b)) Samples.day = true ->
          box_delivery_coef (row_tariff a) = None ->
          box_delivery_coef (row_tariff b) = Some 3%Z ->
          tariffsTable Samples.worldAB = [a; b]
          \/ tariffsTable Samples.worldAB = [b; a] ->
          rows = [exportColumns (row_tariff b); exportColumns (row_tariff a)]).
Proof.
  apply (readSorted_ordered Repository.codeUnitLe Samples.day Samples.worldAB).
  - exact codeUnitLe_totalOrder.
  - reflexivity.
  - repeat constructor.
Defined.

(** The stored A (no coefficient) and B (coefficient 3) read back. *)
Example readSorted_B_then_A :
  fst (Repository.getTariffsByDate None Repository.codeUnitLe Samples.day
         Samples.worldAB)
  = Return [exportColumns (row_tariff Samples.rowB);
            exportColumns (row_tariff Samples.rowA)].
Proof. vm_compute. reflexivity. Qed.

End ReadBack.

(* ===================================================================== *)
(** * The metrics recorder (utils/metrics.ts) *)
(* ===================================================================== *)

Module MetricsFacts.

Lemma updateObject_length (h : nat) (f : SyncMetrics -> SyncMetrics)
    (l : list SyncMetrics) :
  List.length (Metrics.updateObject h f l) = List.length l.
Proof.
  revert h; induction l as [|m l IH]; intros [|h]; simpl; auto.
Qed.

Lemma updateObject_new (f : SyncMetrics -> SyncMetrics)
    (l : list SyncMetrics) (m : SyncMetrics) :
  Metrics.updateObject (List.length l) f (l ++ [m]) = l ++ [f m].
Proof. induction l as [|x l IH]; simpl; [reflexivity | now rewrite IH]. Qed.

Lemma nth_updateObject_same (h : nat) (f : SyncMetrics -> SyncMetrics)
    (l : list SyncMetrics) (d : SyncMetrics) :
  h < List.length l ->
  nth h (Metrics.updateObject h f l) d = f (nth h l d).
Proof.
  revert h; induction l as [|m l IH]; intros [|h]; simpl; intros H;
    try lia; [reflexivity|]. apply IH. lia.
Qed.

Lemma nth_updateObject_other (h h' : nat) (f : SyncMetrics -> SyncMetrics)
    (l : list SyncMetrics) (d : SyncMetrics) :
  h <> h' -> nth h' (Metrics.updateObject h f l) d = nth h' l d.
Proof.
  revert h h'; induction l as [|m l IH]; intros [|h] [|h']; simpl;
    intros H; try reflexivity; try congruence.
  apply IH. congruence.
Qed.

Lemma deref_mutate_other (h h' : nat) (f : SyncMetrics -> SyncMetrics)
    (c : MetricsCollector) :
  h <> h' -> Metrics.deref (Metrics.mutate h f c) h' = Metrics.deref c h'.
Proof. intros H. unfold Metrics.deref. simpl. now apply nth_updateObject_other. Qed.

Lemma deref_mutate_same (h : nat) (f : SyncMetrics -> SyncMetrics)
    (c : MetricsCollector) :
  h < List.length (objects c) ->
  Metrics.deref (Metrics.mutate h f c) h = f (Metrics.deref c h).
Proof. intros H. unfold Metrics.deref. simpl. now apply nth_updateObject_same. Qed.

Lemma tl_app_last {A : Type} (l : list A) (x : A) :
  l <> [] -> tl (l ++ [x]) = tl l ++ [x].
Proof. destruct l; [congruence | reflexivity]. Qed.

Lemma map_tl {A B : Type} (f : A -> B) (l : list A) :
  List.map f (tl l) = tl (List.map f l).
Proof. destruct l; reflexivity. Qed.

(** The array after the push and the possible shift of [startSync]. *)
Lemma startSync_metrics (now : Z) (c : MetricsCollector) :
  metrics (snd (Metrics.startSync now c))
  = olderKept (metrics c) ++ [List.length (objects c)].
Proof.
  unfold Metrics.startSync, olderKept. cbn [snd metrics].
  rewrite length_app. cbn [List.length]. rewrite Nat.add_1_r.
  change (maxHistory <? S (List.length (metrics c)))
    with (maxHistory <=? List.length (metrics c)).
  destruct (maxHistory <=? List.length (metrics c)) eqn:E; [|reflexivity].
  apply tl_app_last. intros Hnil. rewrite Hnil in E. discriminate.
Qed.

Lemma startSync_deref_new (now : Z) (c : MetricsCollector) :
  Metrics.deref (snd (Metrics.startSync now c)) (List.length (objects c))
  = freshMetric now.
Proof. unfold Metrics.deref. simpl. apply nth_middle. Qed.

Lemma startSync_deref_old (now : Z) (c : MetricsCollector) (h : nat) :
  h < List.length (objects c) ->
  Metrics.deref (snd (Metrics.startSync now c)) h = Metrics.deref c h.
Proof. intros H. unfold Metrics.deref. simpl. now apply app_nth1. Qed.

Lemma olderKept_incl {A : Type} (l : list A) : incl (olderKept l) l.
Proof.
  unfold olderKept. destruct (maxHistory <=? List.length l).
  - destruct l; [apply incl_refl | apply incl_tl, incl_refl].
  - apply incl_refl.
Qed.

Lemma olderKept_map {A B : Type} (f : A -> B) (l : list A) :
  List.map f (olderKept l) = olderKept (List.map f l).
Proof.
  unfold olderKept. rewrite length_map.
  destruct (maxHistory <=? List.length l); [apply map_tl | reflexivity].
Qed.

(** The history after [startSync]: the entries kept, then the new one. *)
Lemma startSync_history (now : Z) (c : MetricsCollector) :
  wellFormed c ->
  Metrics.history (snd (Metrics.startSync now c))
  = olderKept (Metrics.history c) ++ [freshMetric now].
Proof.
  intros Hwf. unfold Metrics.history.
  rewrite startSync_metrics, map_app. cbn [List.map].
  rewrite startSync_deref_new. f_equal.
  rewrite <- olderKept_map. apply map_ext_in.
  intros h Hin. apply startSync_deref_old.
  apply olderKept_incl in Hin.
  unfold wellFormed in Hwf. rewrite Forall_forall in Hwf. now apply Hwf.
Qed.

Lemma sliceFrom_keeps_last {A : Type} (count : Z) (l : list A) (x : A) :
  (0 <= count)%Z -> exists pre, sliceFrom (- count) (l ++ [x]) = pre ++ [x].
Proof.
  intros Hc. unfold sliceFrom. rewrite length_app, Nat.add_1_r.
  set (k := Z.to_nat _).
  assert (Hk : k <= List.length l \/ count = 0%Z).
  { unfold k. destruct (- count <? 0)%Z eqn:E.
    - left. apply Z.ltb_lt in E. lia.
    - right. apply Z.ltb_ge in E. lia. }
  destruct Hk as [Hk | ->].
  - exists (skipn k l). rewrite skipn_app.
    replace (k - List.length l) with 0 by lia. reflexivity.
  - exists l. unfold k. reflexivity.
Qed.

Lemma startSync_handle (now : Z) (c : MetricsCollector) :
  fst (Metrics.startSync now c) = List.length (objects c).
Proof. reflexivity. Qed.

Lemma startSync_objects (now : Z) (c : MetricsCollector) :
  objects (snd (Metrics.startSync now c)) = objects c ++ [freshMetric now].
Proof. reflexivity. Qed.

(** C10. As soon as [startSync] has returned, the new run is in the
    history, as its last entry, with [success = false] and no end time;
    [getRecentMetrics] shows it, and [getSuccessRate] counts it in the
    total and not among the successes, that is, as a failure.  It stays
    so while other runs are completed, until [completeSync] is called for
    it.  The history is cut at [startSync] time: when it is full, the
    oldest entry goes as the new one comes in. *)
Theorem startSync_counts_in_flight (now : Z) (c : MetricsCollector) :
  wellFormed c ->
  let h := fst (Metrics.startSync now c) in
  let c' := snd (Metrics.startSync now c) in
  let older := olderKept (Metrics.history c) in
  Metrics.deref c' h = freshMetric now
  /\ Metrics.history c' = older ++ [freshMetric now]
  /\ (forall count, (0 <= count)%Z ->
        exists pre, Metrics.getRecentMetrics count c' = pre ++ [freshMetric now])
  /\ Metrics.getSuccessRate c'
     = ((Z.of_nat (List.length (List.filter success older))
         # Pos.of_nat (S (List.length older))) * 100)%Q
  /\ (forall now2 h2 ok err,
        h2 <> h ->
        Metrics.deref (Metrics.completeSync now2 h2 ok err c') h
        = freshMetric now)
  /\ (forall now2 ok err,
        let m := Metrics.deref (Metrics.completeSync now2 h ok err c') h in
        endTime m = Some now2 /\ success m = ok).
Proof.
  intros Hwf. cbv zeta. rewrite startSync_handle.
  pose proof (startSync_history now c Hwf) as Hhist.
  repeat split.
  - apply startSync_deref_new.
  - exact Hhist.
  - intros count Hc. unfold Metrics.getRecentMetrics. rewrite Hhist.
    now apply sliceFrom_keeps_last.
  - unfold Metrics.getSuccessRate. rewrite Hhist.
    rewrite startSync_metrics, length_app. cbn [List.length].
    rewrite Nat.add_1_r. cbn [Nat.eqb].
    rewrite filter_app. cbn [List.filter success freshMetric].
    rewrite app_nil_r.
    unfold Metrics.history. rewrite <- olderKept_map, length_map.
    reflexivity.
  - intros now2 h2 ok err Hne. unfold Metrics.completeSync.
    rewrite deref_mutate_other by exact Hne.
    apply startSync_deref_new.
  - unfold Metrics.completeSync. rewrite deref_mutate_same.
    + reflexivity.
    + rewrite startSync_objects, length_app. simpl. lia.
  - unfold Metrics.completeSync. rewrite deref_mutate_same.
    + reflexivity.
    + rewrite startSync_objects, length_app. simpl. lia.
Qed.

Lemma startSync_counts_in_flight_witness :
  let h := fst (Metrics.startSync 7 Samples.oneSuccess) in
  let c' := snd (Metrics.startSync 7 Samples.oneSuccess) in
  let older := olderKept (Metrics.history Samples.oneSuccess) in
  Metrics.deref c' h = freshMetric 7
  /\ Metrics.history c' = older ++ [freshMetric 7]
  /\ (forall count, (0 <= count)%Z ->
        exists pre, Metrics.getRecentMetrics count c' = pre ++ [freshMetric 7])
  /\ Metrics.getSuccessRate c'
     = ((Z.of_nat (List.length (List.filter success older))
         # Pos.of_nat (S (List.length older))) * 100)%Q
  /\ (forall now2 h2 ok err,
        h2 <> h ->
        Metrics.deref (Metrics.completeSync now2 h2 ok err c') h
        = freshMetric 7)
  /\ (forall now2 ok err,
        let m := Metrics.deref (Metrics.completeSync now2 h ok err c') h in
        endTime m = Some now2 /\ success m = ok).
Proof.
  apply (startSync_counts_in_flight 7 Samples.oneSuccess).
  repeat constructor.
Defined.

(** The cases of utils/__tests__/metrics.test.ts: success, failure,
    success gives two thirds; two durations of 100 and 200 average to 150;
    no run gives 0 for both. *)
Example metrics_test_cases :
  let run (ok : bool) (c : MetricsCollector) :=
      Metrics.completeSync 0 (fst (Metrics.startSync 0 c)) ok None
        (snd (Metrics.startSync 0 c)) in
  let timed (d : Z) (c : MetricsCollector) :=
      Metrics.completeSync d (fst (Metrics.startSync 0 c)) true None
        (snd (Metrics.startSync 0 c)) in
  (Metrics.getSuccessRate (run true (run false (run true newMetricsCollector)))
   == (200 # 3))%Q
  /\ (Metrics.getSuccessRate (run true (run true newMetricsCollector))
      == 100)%Q
  /\ Metrics.getSuccessRate newMetricsCollector = 0%Q
  /\ Metrics.getAverageDuration newMetricsCollector = 0%Q
  /\ (Metrics.getAverageDuration
        (timed 200%Z (timed 100%Z newMetricsCollector)) == 150)%Q
  /\ List.length
       (Metrics.getRecentMetrics 5
          (fold_left (fun c _ => run true c) (seq 0 15) newMetricsCollector))
     = 5
  /\ List.length
       (Metrics.getRecentMetrics 200
          (fold_left (fun c _ => run true c) (seq 0 150) newMetricsCollector))
     = 100.
Proof. cbv zeta. repeat split; vm_compute; reflexivity. Qed.

(** One success on record and one run in flight: the rate is 50. *)
Example in_flight_run_halves_the_rate :
  Metrics.getSuccessRate Samples.oneSuccess = 100%Q
  /\ Metrics.getSuccessRate (snd (Metrics.startSync 7 Samples.oneSuccess))
     = ((1 # 2) * 100)%Q.
Proof. split; reflexivity. Qed.

(** The hundred-and-first [startSync] evicts the oldest entry. *)
Example startSync_evicts_oldest :
  let full := fold_left (fun c n => snd (Metrics.startSync (Z.of_nat n) c))
                        (seq 0 100) newMetricsCollector in
  metrics full = seq 0 100
  /\ metrics (snd (Metrics.startSync 100 full)) = seq 1 100.
Proof. split; vm_compute; reflexivity. Qed.

End MetricsFacts.

(* ===================================================================== *)
(** * The retry loop *)
(* ===================================================================== *)

Module RetryFacts.

Import JSFacts EffFacts.

Lemma sleepsOf_app (e1 e2 : list Event) :
  sleepsOf (e1 ++ e2) = sleepsOf e1 ++ sleepsOf e2.
Proof. unfold sleepsOf. apply flat_map_app. Qed.

Lemma advance_nil (w : World) : advance [] w = w.
Proof.
  destruct w; unfold advance; simpl. now rewrite app_nil_r, Z.add_0_r.
Qed.

Lemma advance_advance (e1 e2 : list Event) (w : World) :
  advance e2 (advance e1 w) = advance (e1 ++ e2) w.
Proof.
  unfold advance; simpl. rewrite sleepsOf_app, app_assoc. f_equal.
  rewrite <- Z.add_assoc. f_equal.
  induction (sleepsOf e1) as [|z l IH]; simpl; [reflexivity | lia].
Qed.

Lemma record_advance (evs : list Event) (w : World) :
  sleepsOf evs = [] -> record evs w = advance evs w.
Proof.
  intros H. unfold record, advance. rewrite H. simpl.
  now rewrite Z.add_0_r.
Qed.

Lemma sleep_run (ms : Z) (w : World) :
  sleep ms w = (Return tt, advance [Sleep ms] w).
Proof.
  unfold sleep, advance. simpl. unfold bind, emit, modifyWorld, record. simpl.
  now rewrite Z.add_0_r.
Qed.

Section Loop.

Context {A : Type}.
Variables (lg : Logger) (op : nat -> M A) (onSuccess : A -> M unit)
          (failureText : nat -> Err -> jsstring)
          (maxRetries : nat) (retryDelay : Z).

(** What attempt [k] does when it fails: its requests [opEvents k] and
    its error [errs k]. *)
Variables (errs : nat -> Err) (opEvents : nat -> list Event).

Local Abbreviation loop :=
  (retryLoop lg op onSuccess failureText maxRetries retryDelay).

Local Abbreviation failedAttempts :=
  (failedAttempts lg failureText maxRetries retryDelay errs opEvents).
Local Abbreviation lastOf := (lastOf errs).

(** One failed attempt. *)
Lemma retryLoop_failed_step (remaining a : nat) (lastError : option Err)
    (w : World) :
  op a w = (Throw (errs a), record (opEvents a) w) ->
  sleepsOf (opEvents a) = [] ->
  loop (S remaining) a lastError w
  = loop remaining (S a) (Some (errs a))
      (advance (opEvents a
                ++ afterFailure lg failureText maxRetries retryDelay a (errs a))
               w).
Proof.
  intros Hop Hns. cbn [retryLoop].
  unfold bind at 1. unfold settle at 1. unfold bind at 1. rewrite Hop.
  unfold bind at 1. rewrite log_run.
  unfold afterFailure.
  destruct (a <? maxRetries).
  - unfold bind at 1. unfold bind at 1. rewrite log_run, sleep_run.
    f_equal.
    rewrite !record_record, record_advance, advance_advance.
    + now rewrite <- !app_assoc.
    + rewrite !sleepsOf_app, Hns. reflexivity.
  - unfold bind at 1. unfold ret at 1.
    f_equal. rewrite record_record, record_advance.
    + reflexivity.
    + rewrite sleepsOf_app, Hns. reflexivity.
Qed.

(** [n] failed attempts in a row. *)
Lemma retryLoop_failures (n : nat) :
  forall (remaining a : nat) (lastError : option Err) (w : World),
    (forall k, a <= k < a + n ->
       (forall w', op k w' = (Throw (errs k), record (opEvents k) w'))
       /\ sleepsOf (opEvents k) = []) ->
    n <= remaining ->
    loop remaining a lastError w
    = loop (remaining - n) (a + n) (lastOf a n lastError)
        (advance (failedAttempts a n) w).
Proof.
  induction n as [|n IH]; intros remaining a lastError w Hfail Hle.
  - unfold Spec.failedAttempts. simpl.
    now rewrite advance_nil, Nat.sub_0_r, Nat.add_0_r.
  - destruct remaining as [|remaining]; [lia|].
    destruct (Hfail a ltac:(lia)) as [Hop Hns].
    rewrite (retryLoop_failed_step remaining a lastError w (Hop w) Hns).
    assert (Hrest : forall k, S a <= k < S a + n ->
              (forall w', op k w' = (Throw (errs k), record (opEvents k) w'))
              /\ sleepsOf (opEvents k) = []).
    { intros k Hk. apply Hfail. lia. }
    rewrite (IH remaining (S a) (Some (errs a)) _ Hrest ltac:(lia)).
    rewrite advance_advance. unfold Spec.failedAttempts.
    cbn [seq flat_map]. rewrite <- app_assoc.
    replace (S a + n) with (a + S n) by lia.
    replace (S remaining - S n) with (remaining - n) by lia.
    f_equal. destruct n as [|n]; simpl; [now rewrite Nat.add_0_r|].
    do 2 f_equal. lia.
Qed.

End Loop.

Lemma filter_below_seq (m n a : nat) :
  List.filter (fun k => k <? m) (seq a n) = seq a (Nat.min n (m - a)).
Proof.
  revert a; induction n as [|n IH]; intros a; [reflexivity|].
  cbn [seq List.filter]. rewrite IH.
  destruct (a <? m) eqn:E.
  - apply Nat.ltb_lt in E.
    replace (m - a) with (S (m - S a)) by lia. reflexivity.
  - apply Nat.ltb_ge in E.
    replace (m - a) with 0 by lia. replace (m - S a) with 0 by lia.
    now rewrite !Nat.min_0_r.
Qed.

(** The delays slept over [n] failed attempts. *)
Lemma sleeps_failedAttempts (lg : Logger)
    (failureText : nat -> Err -> jsstring) (maxRetries : nat)
    (retryDelay : Z) (errs : nat -> Err) (opEvents : nat -> list Event)
    (n : nat) :
  (forall k, sleepsOf (opEvents k) = []) ->
  forall a,
    sleepsOf (failedAttempts lg failureText maxRetries retryDelay errs
                opEvents a n)
    = List.map (fun k => (retryDelay * Z.of_nat k)%Z)
               (List.filter (fun k => k <? maxRetries) (seq a n)).
Proof.
  intros Hns. induction n as [|n IH]; intros a; [reflexivity|].
  unfold failedAttempts in *. cbn [seq flat_map List.filter].
  rewrite !sleepsOf_app, IH, Hns. unfold afterFailure.
  destruct (a <? maxRetries); reflexivity.
Qed.

(** Over all [maxRetries] attempts the delays are the linear backoff. *)
Lemma sleeps_exhausted (lg : Logger)
    (failureText : nat -> Err -> jsstring) (maxRetries : nat)
    (retryDelay : Z) (errs : nat -> Err) (opEvents : nat -> list Event) :
  (forall k, sleepsOf (opEvents k) = []) ->
  sleepsOf (failedAttempts lg failureText maxRetries retryDelay errs
              opEvents 1 maxRetries)
  = linearBackoff retryDelay maxRetries.
Proof.
  intros Hns. rewrite sleeps_failedAttempts by exact Hns.
  unfold linearBackoff. rewrite filter_below_seq.
  now replace (Nat.min maxRetries (maxRetries - 1)) with (maxRetries - 1)
    by lia.
Qed.

(** ** The tariffs API *)

Lemma fetchWithTimeout_fails (answer : WBApi.HttpOutcome) (d : jsstring)
    (e : Err) (w : World) :
  httpFailure answer = Some e ->
  WBApi.fetchWithTimeout answer d w = (Throw e, record [HttpGet d] w).
Proof.
  unfold WBApi.fetchWithTimeout, httpFailure.
  destruct answer as [[l|] | status errorText statusText | | msg];
    intros H; try discriminate; injection H as <-; reflexivity.
Qed.

Lemma fetchWithTimeout_answers (l : list WBWarehouseTariff) (d : jsstring)
    (w : World) :
  WBApi.fetchWithTimeout (WBApi.HttpJson (Some l)) d w
  = (Return l, record [HttpGet d] w).
Proof. reflexivity. Qed.

Lemma validateDate_accepts (dateParses : jsstring -> bool) (d : jsstring)
    (w : World) :
  acceptedDate dateParses d -> validateDate dateParses d w = (Return tt, w).
Proof.
  intros [Hf Hp]. unfold validateDate. rewrite Hf, Hp.
  destruct d; [discriminate | reflexivity].
Qed.

Lemma validateSpreadsheetId_accepts (spreadsheetId : jsstring) (w : World) :
  acceptedId spreadsheetId ->
  validateSpreadsheetId spreadsheetId w = (Return tt, w).
Proof.
  intros [Ht Hl]. unfold validateSpreadsheetId.
  apply Nat.ltb_ge in Hl. rewrite Hl.
  destruct spreadsheetId as [|c r]; [discriminate|].
  cbn [truthy negb].
  destruct (trim (c :: r)) as [|x xs]; [congruence | reflexivity].
Qed.

Lemma httpRequests_failedAttempts (failureText : nat -> Err -> jsstring)
    (maxRetries : nat) (retryDelay : Z) (errs : nat -> Err) (d : jsstring)
    (n : nat) :
  forall a,
    httpRequests (failedAttempts LApi failureText maxRetries retryDelay errs
                    (fun _ => [HttpGet d]) a n) = n.
Proof.
  unfold httpRequests, failedAttempts.
  induction n as [|n IH]; intros a; [reflexivity|].
  cbn [seq flat_map]. rewrite !filter_app, !length_app, IH.
  unfold afterFailure. destruct (a <? maxRetries); reflexivity.
Qed.

(** [fetchBoxTariffs] when the first [n] requests fail: the loop is then
    at attempt [n + 1]. *)
Lemma fetch_after_failures (svc : WBApi.Service)
    (dateParses : jsstring -> bool) (http : nat -> WBApi.HttpOutcome)
    (d : jsstring) (w : World) (errs : nat -> Err) (n : nat) :
  acceptedDate dateParses d ->
  n <= WBApi.maxRetries svc ->
  (forall k, 1 <= k <= n -> httpFailure (http k) = Some (errs k)) ->
  let max := WBApi.maxRetries svc in
  let evs := Log LApi LvInfo (js "Fetching box tariffs for date: " ++ d) None
             :: failedAttempts LApi (fetchFailureText max d) max
                  (WBApi.retryDelay svc) errs (fun _ => [HttpGet d]) 1 n in
  WBApi.fetchBoxTariffs svc dateParses http d w
  = bind
      (retryLoop LApi
         (fun attempt => WBApi.fetchWithTimeout (http attempt) d)
         (fun tariffs =>
            log LApi LvInfo
              (js "Successfully fetched " ++ natToString (List.length tariffs)
               ++ js " tariffs for " ++ d))
         (fetchFailureText max d) max (WBApi.retryDelay svc)
         (max - n) (1 + n) (lastOf errs 1 n None))
      (fun r =>
         match r with
         | inl tariffs => ret tariffs
         | inr lastError =>
             bind (log LApi LvError (fetchGivenUp max lastError))
                  (fun _ => throw (newWBApiError (fetchGivenUp max lastError) 503))
         end)
      (advance evs w).
Proof.
  intros Hd Hn Hfail. cbv zeta. unfold WBApi.fetchBoxTariffs.
  rewrite bind_return with (a := tt) (w' := w)
    by now apply validateDate_accepts.
  unfold bind at 1. rewrite log_run.
  unfold bind at 1.
  change (fun attempt lastError =>
            js "Attempt " ++ natToString attempt ++ js "/"
            ++ natToString (WBApi.maxRetries svc) ++ js " failed for date "
            ++ d ++ js ": " ++ message lastError)
    with (fetchFailureText (WBApi.maxRetries svc) d).
  rewrite (retryLoop_failures LApi _ _ (fetchFailureText (WBApi.maxRetries svc) d)
             (WBApi.maxRetries svc) (WBApi.retryDelay svc) errs
             (fun _ => [HttpGet d]) n (WBApi.maxRetries svc) 1 None).
  - rewrite record_advance by reflexivity. rewrite advance_advance.
    unfold bind. reflexivity.
  - intros k Hk. split; [|reflexivity].
    intros w'. apply fetchWithTimeout_fails, Hfail. lia.
  - exact Hn.
Qed.

(** Every request fails: the call gives up after [maxRetries] of them. *)
Lemma fetch_exhausted (svc : WBApi.Service)
    (dateParses : jsstring -> bool) (http : nat -> WBApi.HttpOutcome)
    (d : jsstring) (w : World) (errs : nat -> Err) :
  acceptedDate dateParses d ->
  (forall k, 1 <= k <= WBApi.maxRetries svc ->
             httpFailure (http k) = Some (errs k)) ->
  let max := WBApi.maxRetries svc in
  let givenUp := fetchGivenUp max (lastOf errs 1 max None) in
  WBApi.fetchBoxTariffs svc dateParses http d w
  = (Throw (newWBApiError givenUp 503),
     advance
       (Log LApi LvInfo (js "Fetching box tariffs for date: " ++ d) None
        :: failedAttempts LApi (fetchFailureText max d) max
             (WBApi.retryDelay svc) errs (fun _ => [HttpGet d]) 1 max
        ++ [Log LApi LvError givenUp None])
       w).
Proof.
  intros Hd Hfail. cbv zeta.
  rewrite (fetch_after_failures svc dateParses http d w errs
             (WBApi.maxRetries svc) Hd (Nat.le_refl _) Hfail).
  cbv zeta. rewrite Nat.sub_diag. cbn [retryLoop].
  unfold bind at 1. unfold ret at 1.
  unfold bind at 1. rewrite log_run. unfold throw.
  rewrite record_advance by reflexivity. rewrite advance_advance.
  reflexivity.
Qed.

(** The first [n] requests fail and the next one is answered. *)
Lemma fetch_answered (svc : WBApi.Service)
    (dateParses : jsstring -> bool) (http : nat -> WBApi.HttpOutcome)
    (d : jsstring) (w : World) (errs : nat -> Err) (n : nat)
    (l : list WBWarehouseTariff) :
  acceptedDate dateParses d ->
  n < WBApi.maxRetries svc ->
  (forall k, 1 <= k <= n -> httpFailure (http k) = Some (errs k)) ->
  http (1 + n) = WBApi.HttpJson (Some l) ->
  let max := WBApi.maxRetries svc in
  WBApi.fetchBoxTariffs svc dateParses http d w
  = (Return l,
     advance
       (Log LApi LvInfo (js "Fetching box tariffs for date: " ++ d) None
        :: failedAttempts LApi (fetchFailureText max d) max
             (WBApi.retryDelay svc) errs (fun _ => [HttpGet d]) 1 n
        ++ [HttpGet d;
            Log LApi LvInfo
              (js "Successfully fetched " ++ natToString (List.length l)
               ++ js " tariffs for " ++ d) None])
       w).
Proof.
  intros Hd Hn Hfail Hok. cbv zeta.
  rewrite (fetch_after_failures svc dateParses http d w errs n Hd
             (Nat.lt_le_incl _ _ Hn) Hfail).
  cbv zeta.
  destruct (WBApi.maxRetries svc - n) as [|rem] eqn:E; [lia|].
  cbn [retryLoop]. rewrite Hok.
  unfold bind at 1. unfold bind at 1. unfold settle at 1.
  unfold bind at 1. rewrite fetchWithTimeout_answers.
  unfold bind at 1. rewrite log_run. unfold ret.
  rewrite record_record, record_advance by reflexivity.
  rewrite advance_advance. reflexivity.
Qed.

(** ** The Sheets API *)

Lemma updateSpreadsheetInternal_fails (answer : Sheets.SheetsOutcome)
    (spreadsheetId : jsstring) (tariffs : list TariffExportRow) (e : Err)
    (w : World) :
  sheetsFailure spreadsheetId answer = Some e ->
  Sheets.updateSpreadsheetInternal answer spreadsheetId tariffs w
  = (Throw e, record (sheetsRequests spreadsheetId tariffs answer) w).
Proof.
  unfold sheetsFailure, sheetsApiError, sheetsRequests,
    Sheets.updateSpreadsheetInternal.
  destruct answer as [[ec|] [eu|]]; cbn [Sheets.clearFails Sheets.updateFails];
    intros H; try discriminate; injection H as <-;
    unfold tryCatch, bind, emit, modifyWorld, throw;
    rewrite ?record_record;
    match goal with
    | |- context [code ?x] =>
        destruct (code x) as [[|p|p]|]; try reflexivity;
        repeat (destruct p as [p|p|]; try reflexivity)
    end.
Qed.

Lemma updateSpreadsheetInternal_done (answer : Sheets.SheetsOutcome)
    (spreadsheetId : jsstring) (tariffs : list TariffExportRow) (w : World) :
  sheetsFailure spreadsheetId answer = None ->
  Sheets.updateSpreadsheetInternal answer spreadsheetId tariffs w
  = (Return tt, record (sheetsRequests spreadsheetId tariffs answer) w).
Proof.
  unfold sheetsFailure, sheetsApiError, sheetsRequests,
    Sheets.updateSpreadsheetInternal.
  destruct answer as [[ec|] [eu|]]; cbn [Sheets.clearFails Sheets.updateFails];
    intros H; try discriminate.
  unfold tryCatch, bind, emit, modifyWorld, ret.
  now rewrite record_record.
Qed.

Lemma sheetsRequests_no_sleep (spreadsheetId : jsstring)
    (tariffs : list TariffExportRow) (answer : Sheets.SheetsOutcome) :
  sleepsOf (sheetsRequests spreadsheetId tariffs answer) = [].
Proof.
  unfold sheetsRequests. destruct (Sheets.clearFails answer); reflexivity.
Qed.

Lemma sheetAttempts_failedAttempts (failureText : nat -> Err -> jsstring)
    (maxRetries : nat) (retryDelay : Z) (errs : nat -> Err)
    (spreadsheetId : jsstring) (tariffs : list TariffExportRow)
    (api : nat -> Sheets.SheetsOutcome) (n : nat) :
  forall a,
    sheetAttempts
      (failedAttempts LSheets failureText maxRetries retryDelay errs
         (fun k => sheetsRequests spreadsheetId tariffs (api k)) a n) = n.
Proof.
  unfold sheetAttempts, failedAttempts.
  induction n as [|n IH]; intros a; [reflexivity|].
  cbn [seq flat_map]. rewrite !filter_app, !length_app, IH.
  unfold afterFailure, sheetsRequests.
  destruct (a <? maxRetries), (Sheets.clearFails (api a)); reflexivity.
Qed.

(** [updateSpreadsheet] when the first [n] writes fail. *)
Lemma publish_after_failures (svc : Sheets.Service)
    (api : nat -> Sheets.SheetsOutcome) (spreadsheetId : jsstring)
    (tariffs : list TariffExportRow) (w : World) (errs : nat -> Err)
    (n : nat) :
  acceptedId spreadsheetId ->
  n <= Sheets.maxRetries svc ->
  (forall k, 1 <= k <= n ->
             sheetsFailure spreadsheetId (api k) = Some (errs k)) ->
  let max := Sheets.maxRetries svc in
  let evs :=
    Log LSheets LvInfo
      (js "Updating spreadsheet " ++ spreadsheetId ++ js " with "
       ++ natToString (List.length tariffs) ++ js " tariffs") None
    :: failedAttempts LSheets (publishFailureText max spreadsheetId) max
         (Sheets.retryDelay svc) errs
         (fun k => sheetsRequests spreadsheetId tariffs (api k)) 1 n in
  Sheets.updateSpreadsheet svc api spreadsheetId tariffs w
  = bind
      (retryLoop LSheets
         (fun attempt =>
            Sheets.updateSpreadsheetInternal (api attempt) spreadsheetId tariffs)
         (fun _ =>
            log LSheets LvInfo
              (js "Successfully updated spreadsheet " ++ spreadsheetId))
         (publishFailureText max spreadsheetId) max (Sheets.retryDelay svc)
         (max - n) (1 + n) (lastOf errs 1 n None))
      (fun r =>
         match r with
         | inl _ => ret tt
         | inr lastError =>
             bind (log LSheets LvError
                     (publishGivenUp max spreadsheetId lastError))
                  (fun _ => throw (newGoogleSheetsError
                                     (publishGivenUp max spreadsheetId lastError)))
         end)
      (advance evs w).
Proof.
  intros Hid Hn Hfail. cbv zeta. unfold Sheets.updateSpreadsheet.
  rewrite bind_return with (a := tt) (w' := w)
    by now apply validateSpreadsheetId_accepts.
  unfold bind at 1. rewrite log_run.
  unfold bind at 1.
  change (fun attempt lastError =>
            js "Attempt " ++ natToString attempt ++ js "/"
            ++ natToString (Sheets.maxRetries svc)
            ++ js " failed for spreadsheet " ++ spreadsheetId ++ js ": "
            ++ message lastError)
    with (publishFailureText (Sheets.maxRetries svc) spreadsheetId).
  rewrite (retryLoop_failures LSheets _ _
             (publishFailureText (Sheets.maxRetries svc) spreadsheetId)
             (Sheets.maxRetries svc) (Sheets.retryDelay svc) errs
             (fun k => sheetsRequests spreadsheetId tariffs (api k))
             n (Sheets.maxRetries svc) 1 None).
  - rewrite record_advance by reflexivity. rewrite advance_advance.
    unfold bind. reflexivity.
  - intros k Hk. split; [|apply sheetsRequests_no_sleep].
    intros w'. apply updateSpreadsheetInternal_fails, Hfail. lia.
  - exact Hn.
Qed.

(** Every write fails: the call gives up after [maxRetries] of them. *)
Lemma publish_exhausted (svc : Sheets.Service)
    (api : nat -> Sheets.SheetsOutcome) (spreadsheetId : jsstring)
    (tariffs : list TariffExportRow) (w : World) (errs : nat -> Err) :
  acceptedId spreadsheetId ->
  (forall k, 1 <= k <= Sheets.maxRetries svc ->
             sheetsFailure spreadsheetId (api k) = Some (errs k)) ->
  let max := Sheets.maxRetries svc in
  let givenUp := publishGivenUp max spreadsheetId (lastOf errs 1 max None) in
  Sheets.updateSpreadsheet svc api spreadsheetId tariffs w
  = (Throw (newGoogleSheetsError givenUp),
     advance
       (Log LSheets LvInfo
          (js "Updating spreadsheet " ++ spreadsheetId ++ js " with "
           ++ natToString (List.length tariffs) ++ js " tariffs") None
        :: failedAttempts LSheets (publishFailureText max spreadsheetId) max
             (Sheets.retryDelay svc) errs
             (fun k => sheetsRequests spreadsheetId tariffs (api k)) 1 max
        ++ [Log LSheets LvError givenUp None])
       w).
Proof.
  intros Hid Hfail. cbv zeta.
  rewrite (publish_after_failures svc api spreadsheetId tariffs w errs
             (Sheets.maxRetries svc) Hid (Nat.le_refl _) Hfail).
  cbv zeta. rewrite Nat.sub_diag. cbn [retryLoop].
  unfold bind at 1. unfold ret at 1.
  unfold bind at 1. rewrite log_run. unfold throw.
  rewrite record_advance by reflexivity. rewrite advance_advance.
  reflexivity.
Qed.

Lemma sleepsOf_framed (first last : Event) (evs : list Event) :
  sleepsOf [first] = [] -> sleepsOf [last] = [] ->
  sleepsOf (first :: evs ++ [last]) = sleepsOf evs.
Proof.
  intros H1 H2. change (first :: evs ++ [last]) with ([first] ++ evs ++ [last]).
  now rewrite !sleepsOf_app, H1, H2, app_nil_r.
Qed.

(** C7. The fetch and each per-destination publish make up to a fixed
    number of attempts, the same for both in the configuration.  When
    every attempt fails, exactly that many are made, the delays slept
    between them are [base_delay * attempt] for attempts 1 to max - 1, and
    the call fails with an error whose message wraps the message of the
    last attempt's error: for the fetch a [WBApiError] with status 503 (the
    remote status is in the wrapped message), for the publish a
    [GoogleSheetsError] naming the destination and the number of
    attempts. *)
Theorem retry_linear_backoff :
  Config.API_MAX_RETRIES = Config.SHEETS_MAX_RETRIES
  /\ (forall (svc : WBApi.Service) (dateParses : jsstring -> bool)
             (http : nat -> WBApi.HttpOutcome) (d : jsstring) (w : World)
             (errs : nat -> Err),
        acceptedDate dateParses d ->
        1 <= WBApi.maxRetries svc ->
        (forall k, 1 <= k <= WBApi.maxRetries svc ->
                   httpFailure (http k) = Some (errs k)) ->
        exists evs w',
          WBApi.fetchBoxTariffs svc dateParses http d w
          = (Throw (newWBApiError
                      (js "Failed to fetch tariffs after "
                       ++ natToString (WBApi.maxRetries svc)
                       ++ js " attempts: "
                       ++ message (errs (WBApi.maxRetries svc)))
                      503), w')
          /\ trace w' = trace w ++ evs
          /\ httpRequests evs = WBApi.maxRetries svc
          /\ sleepsOf evs
             = linearBackoff (WBApi.retryDelay svc) (WBApi.maxRetries svc))
  /\ (forall (svc : Sheets.Service) (api : nat -> Sheets.SheetsOutcome)
             (spreadsheetId : jsstring) (tariffs : list TariffExportRow)
             (w : World) (errs : nat -> Err),
        acceptedId spreadsheetId ->
        1 <= Sheets.maxRetries svc ->
        (forall k, 1 <= k <= Sheets.maxRetries svc ->
                   sheetsFailure spreadsheetId (api k) = Some (errs k)) ->
        exists evs w',
          Sheets.updateSpreadsheet svc api spreadsheetId tariffs w
          = (Throw (newGoogleSheetsError
                      (js "Failed to update spreadsheet " ++ spreadsheetId
                       ++ js " after " ++ natToString (Sheets.maxRetries svc)
                       ++ js " attempts: "
                       ++ message (errs (Sheets.maxRetries svc)))), w')
          /\ trace w' = trace w ++ evs
          /\ sheetAttempts evs = Sheets.maxRetries svc
          /\ sleepsOf evs
             = linearBackoff (Sheets.retryDelay svc) (Sheets.maxRetries svc)).
Proof.
  split; [reflexivity|]. split.
  - intros svc dateParses http d w errs Hd Hmax Hfail.
    pose proof (fetch_exhausted svc dateParses http d w errs Hd Hfail) as Hrun.
    cbv zeta in Hrun.
    destruct (WBApi.maxRetries svc) as [|n] eqn:Emax; [lia|].
    cbn [lastOf Nat.add] in Hrun.
    eexists. eexists. split; [exact Hrun|]. split; [reflexivity|]. split.
    + unfold httpRequests. cbn [List.filter].
      rewrite filter_app, length_app.
      fold (httpRequests
              (failedAttempts LApi (fetchFailureText (S n) d) (S n)
                 (WBApi.retryDelay svc) errs (fun _ => [HttpGet d]) 1 (S n))).
      rewrite httpRequests_failedAttempts. cbn [List.filter List.length]. lia.
    + rewrite sleepsOf_framed by reflexivity.
      now apply sleeps_exhausted.
  - intros svc api spreadsheetId tariffs w errs Hid Hmax Hfail.
    pose proof (publish_exhausted svc api spreadsheetId tariffs w errs Hid Hfail)
      as Hrun.
    cbv zeta in Hrun.
    destruct (Sheets.maxRetries svc) as [|n] eqn:Emax; [lia|].
    cbn [lastOf Nat.add] in Hrun.
    eexists. eexists. split; [exact Hrun|]. split; [reflexivity|]. split.
    + unfold sheetAttempts. cbn [List.filter].
      rewrite filter_app, length_app.
      fold (sheetAttempts
              (failedAttempts LSheets
                 (publishFailureText (S n) spreadsheetId) (S n)
                 (Sheets.retryDelay svc) errs
                 (fun k => sheetsRequests spreadsheetId tariffs (api k))
                 1 (S n))).
      rewrite sheetAttempts_failedAttempts. cbn [List.filter List.length]. lia.
    + rewrite sleepsOf_framed by reflexivity.
      apply sleeps_exhausted. intros k. apply sheetsRequests_no_sleep.
Qed.

Lemma retry_linear_backoff_witness :
  (exists evs w',
     WBApi.fetchBoxTariffs WBApi.defaultService (fun _ => true)
       Samples.apiDown Samples.day Samples.emptyWorld
     = (Throw (newWBApiError
                 (js "Failed to fetch tariffs after 3 attempts: "
                  ++ message Samples.apiDownError) 503), w')
     /\ trace w' = trace Samples.emptyWorld ++ evs
     /\ httpRequests evs = 3
     /\ sleepsOf evs = [1000; 2000]%Z)
  /\ (exists evs w',
        Sheets.updateSpreadsheet Sheets.defaultService Samples.sheetsDenied
          Samples.sheetId [] Samples.emptyWorld
        = (Throw (newGoogleSheetsError
                    (js "Failed to update spreadsheet " ++ Samples.sheetId
                     ++ js " after 3 attempts: "
                     ++ message Samples.sheetsDeniedError)), w')
        /\ trace w' = trace Samples.emptyWorld ++ evs
        /\ sheetAttempts evs = 3
        /\ sleepsOf evs = [2000; 4000]%Z).
Proof.
  destruct retry_linear_backoff as (_ & Hfetch & Hpublish). split.
  - apply (Hfetch WBApi.defaultService (fun _ => true) Samples.apiDown
             Samples.day Samples.emptyWorld (fun _ => Samples.apiDownError)).
    + split; reflexivity.
    + unfold WBApi.defaultService, Config.API_MAX_RETRIES. simpl. lia.
    + intros k _. reflexivity.
  - apply (Hpublish Sheets.defaultService Samples.sheetsDenied Samples.sheetId
             [] Samples.emptyWorld (fun _ => Samples.sheetsDeniedError)).
    + split; [vm_compute; discriminate | vm_compute; lia].
    + unfold Sheets.defaultService, Config.SHEETS_MAX_RETRIES. simpl. lia.
    + intros k _. reflexivity.
Defined.

(** The tariffs API answers the third request: two delays, 1000 and
    2000 ms, and three requests. *)
Example fetch_third_time_lucky :
  let http := fun k => if k =? 3 then WBApi.HttpJson (Some [Samples.plainEntry])
                       else Samples.apiDown k in
  let res := WBApi.fetchBoxTariffs WBApi.defaultService (fun _ => true) http
               Samples.day Samples.emptyWorld in
  fst res = Return [Samples.plainEntry]
  /\ sleepsOf (trace (snd res)) = [1000; 2000]%Z
  /\ httpRequests (trace (snd res)) = 3
  /\ clock (snd res) = 3000%Z.
Proof. cbv zeta. repeat split; vm_compute; reflexivity. Qed.

(** A date that is not in the expected format fails before any request. *)
Example fetch_rejects_bad_date :
  let res := WBApi.fetchBoxTariffs WBApi.defaultService (fun _ => true)
               Samples.apiDown (js "20-01-2025") Samples.emptyWorld in
  fst res = Throw (newValidationError
                     (js "Invalid date format: 20-01-2025. Expected YYYY-MM-DD"))
  /\ trace (snd res) = [].
Proof. split; vm_compute; reflexivity. Qed.

End RetryFacts.

(* ===================================================================== *)
(** * The orchestrator (services/tariffSync.ts) *)
(* ===================================================================== *)

Module SyncFacts.

Import JSFacts EffFacts RetryFacts MetricsFacts.

Lemma startSyncM_run (w : World) :
  Metrics.startSyncM w
  = (Return (List.length (objects (collector w))),
     withCollector (snd (Metrics.startSync (clock w) (collector w))) w).
Proof. reflexivity. Qed.

Lemma completeSyncM_run (h : nat) (ok : bool) (err : option Err) (w : World) :
  Metrics.completeSyncM h ok err w
  = (Return tt,
     withCollector (Metrics.completeSync (clock w) h ok err (collector w)) w).
Proof. reflexivity. Qed.

Lemma readMetric_run (h : nat) (w : World) :
  Metrics.readMetric h w = (Return (Metrics.deref (collector w) h), w).
Proof. reflexivity. Qed.

Lemma withCollector_advance (c : MetricsCollector) (evs : list Event)
    (w : World) :
  withCollector c (advance evs w) = advance evs (withCollector c w).
Proof. reflexivity. Qed.

Lemma withCollector_twice (c1 c2 : MetricsCollector) (w : World) :
  withCollector c2 (withCollector c1 w) = withCollector c2 w.
Proof. reflexivity. Qed.

(** A run in which the fetch returns an empty list, at once or after
    failed attempts. *)
Lemma sync_empty_run (env : Sync.Env) (w : World) (errs : nat -> Err)
    (n : nat) :
  acceptedDate (Sync.dateParses env) (Sync.today env) ->
  n < WBApi.maxRetries WBApi.defaultService ->
  (forall k, 1 <= k <= n -> httpFailure (Sync.http env k) = Some (errs k)) ->
  Sync.http env (1 + n) = WBApi.HttpJson (Some []) ->
  let evs := emptyRunEvents (Sync.today env) errs n in
  Sync.syncTariffs env w
  = (Return tt,
     withCollector
       (emptyRunCollector (clock w) (clock (advance evs w)) (collector w))
       (advance evs w)).
Proof.
  intros Hd Hn Hfail Hhttp. unfold Sync.syncTariffs. cbv zeta.
  set (h := List.length (objects (collector w))).
  set (c1 := snd (Metrics.startSync (clock w) (collector w))).
  rewrite bind_return with (a := h) (w' := withCollector c1 w)
    by apply startSyncM_run.
  do 3 (unfold bind at 1; rewrite log_run).
  rewrite !record_record. cbn [app].
  match goal with
  | |- tryCatch ?body ?handler ?w1 = _ =>
      apply (tryCatch_return body handler w1)
  end.
  unfold bind at 1. rewrite log_run. rewrite record_record. cbn [app].
  match goal with
  | |- _ ?w1' = _ => set (w1 := w1')
  end.
  unfold bind at 1.
  rewrite (fetch_answered WBApi.defaultService (Sync.dateParses env)
             (Sync.http env) (Sync.today env) w1 errs n [] Hd Hn Hfail Hhttp).
  cbv zeta. fold (emptyFetchEvents (Sync.today env) errs n).
  set (w2 := advance (emptyFetchEvents (Sync.today env) errs n) w1).
  set (c2 := Metrics.mutate h
               (fun m => mkMetric (startTime m) (endTime m) (duration m)
                           (List.length (@nil WBWarehouseTariff))
                           (savedCount m) (exportedCount m) (success m)
                           (error m))
               c1).
  rewrite bind_return with (a := tt) (w' := withCollector c2 w2)
    by reflexivity.
  rewrite bind_return with (a := Metrics.deref c2 h)
                           (w' := withCollector c2 w2)
    by reflexivity.
  assert (Hm : Metrics.deref c2 h
               = mkMetric (clock w) None None 0 0 0 false None).
  { unfold c2. rewrite deref_mutate_same.
    - unfold c1, h. now rewrite startSync_deref_new.
    - unfold c1, h. rewrite startSync_objects, length_app. simpl. lia. }
  rewrite Hm. cbn [fetchedCount Nat.eqb].
  unfold bind at 1. rewrite log_run.
  unfold bind at 1. rewrite log_run.
  rewrite completeSyncM_run. rewrite record_record.
  rewrite record_advance by reflexivity.
  unfold w2, w1. rewrite (record_advance _ (withCollector c1 w)) by reflexivity.
  rewrite !withCollector_advance, !advance_advance, !withCollector_twice.
  cbn [collector clock advance withCollector].
  reflexivity.
Qed.

Lemma emptyRunCollector_metric (start finish : Z) (c : MetricsCollector) :
  Metrics.deref (emptyRunCollector start finish c) (List.length (objects c))
  = mkMetric start (Some finish) (Some (finish - start)%Z) 0 0 0 true None.
Proof.
  unfold emptyRunCollector. cbv zeta. unfold Metrics.completeSync.
  rewrite deref_mutate_same.
  - rewrite deref_mutate_same.
    + now rewrite startSync_deref_new.
    + rewrite startSync_objects, length_app. simpl. lia.
  - cbn [Metrics.mutate objects]. rewrite updateObject_length.
    rewrite startSync_objects, length_app. simpl. lia.
Qed.

Lemma failedAttempts_fetchStageOnly (failureText : nat -> Err -> jsstring)
    (maxRetries : nat) (retryDelay : Z) (errs : nat -> Err) (d : jsstring)
    (n : nat) :
  forall a,
    Forall fetchStageOnly
      (failedAttempts LApi failureText maxRetries retryDelay errs
         (fun _ => [HttpGet d]) a n).
Proof.
  unfold failedAttempts. induction n as [|n IH]; intros a; [constructor|].
  cbn [seq flat_map]. apply Forall_app. split; [|apply IH].
  unfold afterFailure. destruct (a <? maxRetries); repeat constructor.
Qed.

Lemma emptyRunEvents_fetchStageOnly (today : jsstring) (errs : nat -> Err)
    (n : nat) :
  Forall fetchStageOnly (emptyRunEvents today errs n).
Proof.
  unfold emptyRunEvents, emptyFetchEvents.
  apply Forall_app; split; [repeat constructor|].
  apply Forall_app; split; [|repeat constructor].
  apply Forall_cons; [exact I|].
  apply Forall_app; split;
    [apply failedAttempts_fetchStageOnly | repeat constructor].
Qed.

Lemma httpRequests_app (e1 e2 : list Event) :
  httpRequests (e1 ++ e2) = httpRequests e1 + httpRequests e2.
Proof. unfold httpRequests. now rewrite filter_app, length_app. Qed.

Lemma httpRequests_log (lg : Logger) (lvl : Level) (msg : jsstring)
    (att : option Err) (l : list Event) :
  httpRequests (Log lg lvl msg att :: l) = httpRequests l.
Proof. reflexivity. Qed.

Lemma emptyRunEvents_requests (today : jsstring) (errs : nat -> Err)
    (n : nat) :
  httpRequests (emptyRunEvents today errs n) = n + 1.
Proof.
  unfold emptyRunEvents, emptyFetchEvents.
  rewrite !httpRequests_app, !httpRequests_log, httpRequests_app,
    httpRequests_failedAttempts.
  unfold httpRequests. cbn [List.filter List.length]. lia.
Qed.

(** C8. When the fetch returns no entry (at once, or after attempts that
    failed), the run ends successfully there: [syncTariffs] returns
    without throwing, the run is on record with fetched, saved and
    exported counts 0 and [success = true], the tables are untouched, and
    all that was done belongs to the fetch stage: log entries of the
    orchestrator and of the tariffs client, requests to the tariffs API and
    the delays between them.  No upsert, no read-back, no export. *)
Theorem empty_fetch_short_circuits (env : Sync.Env) (w : World)
    (errs : nat -> Err) (n : nat) :
  acceptedDate (Sync.dateParses env) (Sync.today env) ->
  n < WBApi.maxRetries WBApi.defaultService ->
  (forall k, 1 <= k <= n -> httpFailure (Sync.http env k) = Some (errs k)) ->
  Sync.http env (1 + n) = WBApi.HttpJson (Some []) ->
  exists evs w',
    Sync.syncTariffs env w = (Return tt, w')
    /\ tariffsTable w' = tariffsTable w
    /\ spreadsheetsTable w' = spreadsheetsTable w
    /\ trace w' = trace w ++ evs
    /\ Forall fetchStageOnly evs
    /\ httpRequests evs = n + 1
    /\ Metrics.deref (collector w') (List.length (objects (collector w)))
       = mkMetric (clock w) (Some (clock w')) (Some (clock w' - clock w)%Z)
                  0 0 0 true None
    /\ metrics (collector w')
       = olderKept (metrics (collector w))
         ++ [List.length (objects (collector w))].
Proof.
  intros Hd Hn Hfail Hhttp.
  exists (emptyRunEvents (Sync.today env) errs n). eexists.
  split; [exact (sync_empty_run env w errs n Hd Hn Hfail Hhttp)|].
  split; [reflexivity|]. split; [reflexivity|]. split; [reflexivity|].
  split; [apply emptyRunEvents_fetchStageOnly|].
  split; [apply emptyRunEvents_requests|]. split.
  - apply emptyRunCollector_metric.
  - apply startSync_metrics.
Qed.

Lemma empty_fetch_short_circuits_witness :
  exists evs w',
    Sync.syncTariffs Samples.quietDay Samples.storedWorld = (Return tt, w')
    /\ tariffsTable w' = tariffsTable Samples.storedWorld
    /\ spreadsheetsTable w' = spreadsheetsTable Samples.storedWorld
    /\ trace w' = trace Samples.storedWorld ++ evs
    /\ Forall fetchStageOnly evs
    /\ httpRequests evs = 0 + 1
    /\ Metrics.deref (collector w')
         (List.length (objects (collector Samples.storedWorld)))
       = mkMetric (clock Samples.storedWorld) (Some (clock w'))
                  (Some (clock w' - clock Samples.storedWorld)%Z)
                  0 0 0 true None
    /\ metrics (collector w')
       = olderKept (metrics (collector Samples.storedWorld))
         ++ [List.length (objects (collector Samples.storedWorld))].
Proof.
  apply (empty_fetch_short_circuits Samples.quietDay Samples.storedWorld
           (fun _ => Samples.apiDownError) 0).
  - split; reflexivity.
  - unfold WBApi.defaultService, Config.API_MAX_RETRIES. simpl. lia.
  - intros k Hk. lia.
  - reflexivity.
Defined.

End SyncFacts.

(* ===================================================================== *)
(** * Publishing to all destinations (updateAllSpreadsheets) *)
(* ===================================================================== *)

Module PublishAll.

Import JSFacts EffFacts RetryFacts.

Lemma acceptedId_dec (spreadsheetId : jsstring) :
  {acceptedId spreadsheetId} + {~ acceptedId spreadsheetId}.
Proof.
  unfold acceptedId.
  destruct (trim spreadsheetId) as [|c r].
  - right. intros [H _]. now apply H.
  - destruct (le_dec 20 (List.length spreadsheetId)) as [H | H].
    + left. split; [discriminate | exact H].
    + right. intros [_ H']. now apply H.
Defined.

Lemma validateSpreadsheetId_rejects (spreadsheetId : jsstring) (w : World) :
  ~ acceptedId spreadsheetId ->
  exists e, validateSpreadsheetId spreadsheetId w = (Throw e, w).
Proof.
  intros Hnot. unfold validateSpreadsheetId.
  destruct (truthy spreadsheetId); cbn [negb]; [|eexists; reflexivity].
  destruct (trim spreadsheetId) as [|c r] eqn:Ht;
    [eexists; reflexivity|].
  cbn [List.length Nat.eqb].
  destruct (List.length spreadsheetId <? 20) eqn:Hl; [eexists; reflexivity|].
  exfalso. apply Hnot. split; [rewrite Ht; discriminate|].
  now apply Nat.ltb_ge.
Qed.

Lemma publish_fails_run (svc : Sheets.Service)
    (api : nat -> Sheets.SheetsOutcome) (spreadsheetId : jsstring)
    (tariffs : list TariffExportRow) (w : World) :
  publishFails svc api spreadsheetId ->
  exists e w',
    Sheets.updateSpreadsheet svc api spreadsheetId tariffs w = (Throw e, w').
Proof.
  intros [Hid | Hall].
  - destruct (validateSpreadsheetId_rejects spreadsheetId w Hid) as [e He].
    exists e, w. unfold Sheets.updateSpreadsheet.
    now apply bind_throw.
  - destruct (acceptedId_dec spreadsheetId) as [Hid | Hid].
    + set (errs := fun k => match sheetsFailure spreadsheetId (api k) with
                            | Some e => e
                            | None => newAppError []
                            end).
      assert (Hfail : forall k, 1 <= k <= Sheets.maxRetries svc ->
                sheetsFailure spreadsheetId (api k) = Some (errs k)).
      { intros k Hk. unfold errs. specialize (Hall k Hk).
        destruct (sheetsFailure spreadsheetId (api k)); congruence. }
      eexists. eexists.
      apply (publish_exhausted svc api spreadsheetId tariffs w errs Hid Hfail).
    + destruct (validateSpreadsheetId_rejects spreadsheetId w Hid) as [e He].
      exists e, w. unfold Sheets.updateSpreadsheet.
      now apply bind_throw.
Qed.

Lemma publish_succeeds_run (svc : Sheets.Service)
    (api : nat -> Sheets.SheetsOutcome) (spreadsheetId : jsstring)
    (tariffs : list TariffExportRow) (w : World) :
  publishSucceeds svc api spreadsheetId ->
  exists w',
    Sheets.updateSpreadsheet svc api spreadsheetId tariffs w = (Return tt, w').
Proof.
  intros (Hid & n & Hn & Hbefore & Hok).
  set (errs := fun k => match sheetsFailure spreadsheetId (api k) with
                        | Some e => e
                        | None => newAppError []
                        end).
  assert (Hfail : forall k, 1 <= k <= n ->
            sheetsFailure spreadsheetId (api k) = Some (errs k)).
  { intros k Hk. unfold errs. specialize (Hbefore k Hk).
    destruct (sheetsFailure spreadsheetId (api k)); congruence. }
  rewrite (publish_after_failures svc api spreadsheetId tariffs w errs n Hid
             (Nat.lt_le_incl _ _ Hn) Hfail).
  cbv zeta.
  destruct (Sheets.maxRetries svc - n) as [|rem] eqn:E; [lia|].
  cbn [retryLoop].
  unfold bind at 1. unfold bind at 1. unfold settle at 1.
  unfold bind at 1.
  rewrite (updateSpreadsheetInternal_done _ _ _ _ Hok).
  unfold bind at 1. rewrite log_run. unfold ret.
  eexists. reflexivity.
Qed.

Lemma first_success (P : nat -> bool) (n : nat) :
  (forall k, 1 <= k <= n -> P k = false)
  \/ (exists m, m < n /\ (forall k, 1 <= k <= m -> P k = false)
                /\ P (1 + m) = true).
Proof.
  induction n as [|n [IH | (m & Hm & Hbefore & Hok)]].
  - left. intros k Hk. lia.
  - destruct (P (S n)) eqn:E.
    + right. exists n. split; [lia|]. split; [exact IH | exact E].
    + left. intros k Hk.
      destruct (Nat.eq_dec k (S n)) as [-> | Hne]; [exact E|].
      apply IH. lia.
  - right. exists m. split; [lia|]. now split.
Qed.

(** The publish of a destination either fails or succeeds. *)
Lemma publish_fails_or_succeeds (svc : Sheets.Service)
    (api : nat -> Sheets.SheetsOutcome) (spreadsheetId : jsstring) :
  publishFails svc api spreadsheetId \/ publishSucceeds svc api spreadsheetId.
Proof.
  destruct (acceptedId_dec spreadsheetId) as [Hid | Hid]; [|left; now left].
  set (P := fun k => match sheetsFailure spreadsheetId (api k) with
                     | None => true
                     | Some _ => false
                     end).
  destruct (first_success P (Sheets.maxRetries svc))
    as [Hall | (m & Hm & Hbefore & Hok)].
  - left. right. intros k Hk. specialize (Hall k Hk). unfold P in Hall.
    destruct (sheetsFailure spreadsheetId (api k)); congruence.
  - right. split; [exact Hid|]. exists m. split; [exact Hm|]. split.
    + intros k Hk. specialize (Hbefore k Hk). unfold P in Hbefore.
      destruct (sheetsFailure spreadsheetId (api k)); congruence.
    + unfold P in Hok.
      destruct (sheetsFailure spreadsheetId (api (1 + m))); congruence.
Qed.

(** Every publish settles, whatever the others do. *)
Lemma settleAll_settles (svc : Sheets.Service)
    (api : jsstring -> nat -> Sheets.SheetsOutcome)
    (tariffs : list TariffExportRow) (ids : list jsstring) :
  forall w, exists rs w',
    Sheets.settleAll svc api ids tariffs w = (Return rs, w')
    /\ Forall2 (settledAs svc api) ids rs.
Proof.
  induction ids as [|id ids IH]; intros w.
  - exists [], w. split; [reflexivity | constructor].
  - cbn [Sheets.settleAll].
    destruct (Sheets.updateSpreadsheet svc (api id) id tariffs w)
      as [o w1] eqn:Hrun.
    destruct (IH w1) as (rs & w2 & Hrest & Hall).
    exists (o :: rs), w2. split.
    + unfold bind at 1. unfold settle at 1. rewrite Hrun.
      unfold bind at 1. rewrite Hrest. reflexivity.
    + constructor; [|exact Hall]. split.
      * intros Hf.
        destruct (publish_fails_run svc (api id) id tariffs w Hf)
          as (e & w' & He).
        rewrite He in Hrun. injection Hrun as <- _. reflexivity.
      * intros Hs.
        destruct (publish_succeeds_run svc (api id) id tariffs w Hs)
          as (w' & He).
        rewrite He in Hrun. now injection Hrun as <- _.
Qed.

(** The counting loop. *)
Lemma tally_counts (ids : list jsstring) :
  forall (rs : list (Outcome unit)) (s f : nat) (w : World),
    List.length ids = List.length rs ->
    exists evs,
      Sheets.tally ids rs s f w
      = (Return (s + successes rs, f + failures rs), record evs w).
Proof.
  induction ids as [|id ids IH]; intros [|r rs] s f w Hlen;
    try discriminate.
  - exists []. cbn. now rewrite record_nil, !Nat.add_0_r.
  - injection Hlen as Hlen. cbn [Sheets.tally].
    destruct r as [[]|e].
    + unfold bind at 1. rewrite log_run.
      match goal with
      | |- context [Sheets.tally ids rs (S s) f ?w1] =>
          destruct (IH rs (S s) f w1 Hlen) as [evs ->]
      end.
      eexists. rewrite record_record.
      unfold successes, failures. cbn [List.filter fulfilled negb List.length].
      do 3 f_equal. lia.
    + unfold bind at 1. rewrite log_run.
      match goal with
      | |- context [Sheets.tally ids rs s (S f) ?w1] =>
          destruct (IH rs s (S f) w1 Hlen) as [evs ->]
      end.
      eexists. rewrite record_record.
      unfold successes, failures. cbn [List.filter fulfilled negb List.length].
      do 3 f_equal. lia.
Qed.

Lemma successes_failures {A : Type} (rs : list (Outcome A)) :
  successes rs + failures rs = List.length rs.
Proof.
  unfold successes, failures.
  induction rs as [|[a|e] rs IH]; cbn [List.filter fulfilled negb List.length];
    lia.
Qed.

Lemma getSpreadsheetIds_run (w : World) :
  Sheets.getSpreadsheetIds None w
  = (Return (spreadsheetsTable w),
     record [Log LSheets LvDebug
               (js "Found " ++ natToString (List.length (spreadsheetsTable w))
                ++ js " registered spreadsheets") None] w).
Proof. reflexivity. Qed.

(** [updateAllSpreadsheets] with destinations registered. *)
Lemma updateAll_run (svc : Sheets.Service)
    (api : jsstring -> nat -> Sheets.SheetsOutcome)
    (tariffs : list TariffExportRow) (w : World) :
  spreadsheetsTable w <> [] ->
  let ids := spreadsheetsTable w in
  exists rs w',
    Forall2 (settledAs svc api) ids rs
    /\ Sheets.updateAllSpreadsheets svc None api tariffs w
       = (if failures rs =? List.length ids
          then Throw (newGoogleSheetsError (js "All spreadsheet updates failed"))
          else Return tt, w')
    /\ In (Log LSheets LvInfo
             (Sheets.summaryText (successes rs) (failures rs)
                (List.length ids)) None)
          (trace w').
Proof.
  intros Hne. cbv zeta. unfold Sheets.updateAllSpreadsheets.
  unfold bind at 1. rewrite log_run.
  unfold bind at 1. rewrite getSpreadsheetIds_run.
  cbn [spreadsheetsTable record].
  destruct (List.length (spreadsheetsTable w) =? 0) eqn:E.
  { apply Nat.eqb_eq, length_zero_iff_nil in E. contradiction. }
  unfold bind at 1.
  match goal with
  | |- context [Sheets.settleAll svc api _ tariffs ?w2] =>
      destruct (settleAll_settles svc api tariffs (spreadsheetsTable w) w2)
        as (rs & w3 & Hsettle & Hall)
  end.
  pose proof (Forall2_length Hall) as Hlen.
  destruct (tally_counts (spreadsheetsTable w) rs 0 0 w3 Hlen) as [evs Htally].
  exists rs. eexists. split; [exact Hall|].
  rewrite Hsettle.
  unfold bind at 1. rewrite Htally. cbn [Nat.add].
  unfold bind at 1. rewrite log_run.
  split.
  - destruct (failures rs =? List.length (spreadsheetsTable w)); reflexivity.
  - cbn [trace record]. apply in_or_app. right. now left.
Qed.

Lemma all_failed (svc : Sheets.Service)
    (api : jsstring -> nat -> Sheets.SheetsOutcome) (ids : list jsstring)
    (rs : list (Outcome unit)) :
  Forall2 (settledAs svc api) ids rs ->
  Forall (fun id => publishFails svc (api id) id) ids ->
  failures rs = List.length ids.
Proof.
  induction 1 as [|id r ids rs [Hf _] Hrest IH]; intros Hall; [reflexivity|].
  inversion Hall as [|? ? Hid Hids]; subst.
  unfold failures in *. cbn [List.filter List.length].
  rewrite (Hf Hid). cbn [negb List.length]. now rewrite IH.
Qed.

Lemma some_succeeded (svc : Sheets.Service)
    (api : jsstring -> nat -> Sheets.SheetsOutcome) (ids : list jsstring)
    (rs : list (Outcome unit)) :
  Forall2 (settledAs svc api) ids rs ->
  Exists (fun id => publishSucceeds svc (api id) id) ids ->
  failures rs < List.length ids.
Proof.
  intros Hall Hex. pose proof (Forall2_length Hall) as Hlen.
  pose proof (successes_failures rs) as Hsum.
  enough (0 < successes rs) by lia.
  clear Hlen Hsum. induction Hall as [|id r ids rs [_ Hs] Hrest IH].
  - inversion Hex.
  - unfold successes in *. cbn [List.filter].
    inversion Hex as [? ? Hid | ? ? Hids]; subst.
    + rewrite (Hs Hid). cbn. lia.
    + specialize (IH Hids). destruct (fulfilled r); cbn [List.length]; lia.
Qed.

(** C2. [publishAll] settles the publish of every registered
    destination and counts the outcomes.  Without any registered
    destination it returns at once, having written nowhere.  With
    destinations, it logs the numbers of successes and failures, which add
    up to the number of destinations; it throws the aggregate error when
    the publish of every destination fails, and it returns when the
    publish of at least one destination succeeds, however many of the
    others fail. *)
Theorem publishAll_partial_failure (svc : Sheets.Service)
    (api : jsstring -> nat -> Sheets.SheetsOutcome)
    (tariffs : list TariffExportRow) (w : World) :
  let ids := spreadsheetsTable w in
  let res := Sheets.updateAllSpreadsheets svc None api tariffs w in
  (ids = [] ->
   exists evs, res = (Return tt, record evs w) /\ sheetAttempts evs = 0)
  /\ (ids <> [] ->
      exists rs,
        Forall2 (settledAs svc api) ids rs
        /\ successes rs + failures rs = List.length ids
        /\ In (Log LSheets LvInfo
                 (Sheets.summaryText (successes rs) (failures rs)
                    (List.length ids)) None)
              (trace (snd res)))
  /\ (ids <> [] ->
      Forall (fun id => publishFails svc (api id) id) ids ->
      fst res
      = Throw (newGoogleSheetsError (js "All spreadsheet updates failed")))
  /\ (Exists (fun id => publishSucceeds svc (api id) id) ids ->
      fst res = Return tt).
Proof.
  cbv zeta. split; [|split; [|split]].
  - intros Hnil. unfold Sheets.updateAllSpreadsheets.
    unfold bind at 1. rewrite log_run.
    unfold bind at 1. rewrite getSpreadsheetIds_run.
    cbn [spreadsheetsTable record]. rewrite Hnil. cbn [List.length Nat.eqb].
    rewrite log_run, !record_record. eexists. split; reflexivity.
  - intros Hne.
    destruct (updateAll_run svc api tariffs w Hne) as (rs & w' & Hall & Hrun & Hin).
    exists rs. split; [exact Hall|]. split.
    + rewrite successes_failures. symmetry. exact (Forall2_length Hall).
    + rewrite Hrun. exact Hin.
  - intros Hne Hfail.
    destruct (updateAll_run svc api tariffs w Hne) as (rs & w' & Hall & Hrun & _).
    rewrite Hrun. cbn [fst].
    now rewrite (all_failed svc api _ rs Hall Hfail), Nat.eqb_refl.
  - intros Hex.
    assert (Hne : spreadsheetsTable w <> []).
    { intros Hnil. rewrite Hnil in Hex. inversion Hex. }
    destruct (updateAll_run svc api tariffs w Hne) as (rs & w' & Hall & Hrun & _).
    rewrite Hrun. cbn [fst].
    pose proof (some_succeeded svc api _ rs Hall Hex) as Hlt.
    destruct (failures rs =? List.length (spreadsheetsTable w)) eqn:E;
      [|reflexivity].
    apply Nat.eqb_eq in E. lia.
Qed.

Lemma publishAll_partial_failure_witness :
  fst (Sheets.updateAllSpreadsheets Sheets.defaultService None
         Samples.secondDenied [] Samples.threeSheets)
  = Return tt.
Proof.
  apply (proj2 (proj2 (proj2
           (publishAll_partial_failure Sheets.defaultService
              Samples.secondDenied [] Samples.threeSheets)))).
  apply Exists_cons_hd. split.
  - split; [vm_compute; discriminate | vm_compute; lia].
  - exists 0. split; [|split].
    + unfold Sheets.defaultService, Config.SHEETS_MAX_RETRIES. simpl. lia.
    + intros k Hk. lia.
    + reflexivity.
Defined.

(** Three destinations of which exactly one fails: the call returns and
    the summary reads 2 successful, 1 failed; when all three fail, the
    call throws. *)
Example publishAll_two_of_three :
  let res := Sheets.updateAllSpreadsheets Sheets.defaultService None
               Samples.secondDenied [] Samples.threeSheets in
  fst res = Return tt
  /\ last (trace (snd res)) (Sleep 0)
     = Log LSheets LvInfo
         (js "Spreadsheet update summary: 2 successful, 1 failed out of 3 total")
         None.
Proof. split; vm_compute; reflexivity. Qed.

Example publishAll_none_of_three :
  fst (Sheets.updateAllSpreadsheets Sheets.defaultService None
         Samples.allDenied [] Samples.threeSheets)
  = Throw (newGoogleSheetsError (js "All spreadsheet updates failed")).
Proof. vm_compute. reflexivity. Qed.

End PublishAll.

(* ===================================================================== *)
(** * The scheduler (services/scheduler.ts) *)
(* ===================================================================== *)

Module SchedulerFacts.

Import Scheduler.

(** A tick that fires while the flag is set starts nothing: it is logged
    and that is all. *)
Lemma tick_skipped_while_in_progress (s : State) :
  tasks s <> 0 -> syncInProgress s = true ->
  step s CronFires
  = mkState (tasks s) true (inFlight s) (started s)
            (journal s ++ [skipWarning]).
Proof.
  intros Ht Hf. unfold step.
  destruct (tasks s =? 0) eqn:E; [apply Nat.eqb_eq in E; contradiction|].
  rewrite Hf. unfold say. now rewrite Hf.
Qed.

(** The flag is raised when a run starts. *)
Lemma flag_raised_on_start (s : State) :
  syncInProgress (runSyncBegin s) = true
  /\ inFlight (runSyncBegin s) = started s :: inFlight s.
Proof. split; reflexivity. Qed.

(** The flag is cleared when a run settles, fulfilled or rejected. *)
Lemma flag_cleared_on_settle (s : State) (r : nat) (result : option Err)
    (elapsed : jsstring) :
  In r (inFlight s) ->
  syncInProgress (step s (SyncSettles r result elapsed)) = false
  /\ ~ In r (inFlight (step s (SyncSettles r result elapsed))).
Proof.
  intros Hin. unfold step.
  assert (E : existsb (Nat.eqb r) (inFlight s) = true).
  { apply existsb_exists. exists r. split; [exact Hin | apply Nat.eqb_refl]. }
  rewrite E. unfold runSyncEnd. split; [reflexivity|].
  cbn [inFlight]. intros Hr. apply filter_In in Hr. destruct Hr as [_ Hr].
  rewrite Nat.eqb_refl in Hr. discriminate.
Qed.

Lemma stopTasks_keeps (n : nat) :
  forall k st,
    inFlight (stopTasks n k st) = inFlight st
    /\ syncInProgress (stopTasks n k st) = syncInProgress st.
Proof.
  induction n as [|n IH]; intros k st; [now split|].
  cbn [stopTasks].
  destruct (IH (S k) (say LvDebug (js "Stopped task " ++ natToString (k + 1))
                          None st)) as [H1 H2].
  rewrite H1, H2. now split.
Qed.

(** [stop] does not interrupt a run in flight. *)
Lemma stop_keeps (s : State) :
  inFlight (step s Stop) = inFlight s
  /\ syncInProgress (step s Stop) = syncInProgress s.
Proof.
  unfold step.
  set (s1 := say LvInfo (js "Stopping " ++ natToString (tasks s)
                         ++ js " scheduled task(s)") None s).
  destruct (stopTasks_keeps (tasks s1) 0 s1) as [H1 H2].
  unfold say at 1. cbn [inFlight syncInProgress].
  rewrite H1, H2. now split.
Qed.

Lemma flagExact_step (s : State) (i : Input) :
  flagExact s -> respectful s i -> flagExact (step s i).
Proof.
  intros Hs Hi. destruct i as [| | |r result elapsed|].
  - exact Hs.
  - unfold step. destruct (tasks s =? 0); [exact Hs|].
    destruct Hs as [[Hnil Hf] | (r & Hr & Hf)]; rewrite Hf.
    + right. exists (started s). cbn. rewrite Hnil. now split.
    + right. exists r. cbn. now split.
  - cbn in Hi. right. exists (started s). cbn. rewrite Hi. now split.
  - unfold step. destruct (existsb (Nat.eqb r) (inFlight s)) eqn:E; [|exact Hs].
    left. unfold runSyncEnd. cbn [syncInProgress inFlight]. split; [|reflexivity].
    destruct Hs as [[Hnil _] | (r0 & Hr & _)].
    + rewrite Hnil in E. discriminate.
    + assert (Hs1 : forall (lvl : Level) msg att,
                inFlight (say lvl msg att s) = inFlight s) by reflexivity.
      destruct result; rewrite Hs1, Hr; rewrite Hr in E; cbn in E |- *;
        rewrite orb_false_r in E; rewrite Nat.eqb_sym in E; rewrite E;
        reflexivity.
  - destruct (stop_keeps s) as [H1 H2].
    unfold flagExact. rewrite H1, H2. exact Hs.
Qed.

(** As long as [runImmediateSync] is only called while nothing is in
    flight, at most one run is in flight and the flag tells so. *)
Lemma flagExact_run (inputs : list Input) :
  forall s,
    flagExact s ->
    (forall pre i post, inputs = pre ++ i :: post -> respectful (run s pre) i) ->
    flagExact (run s inputs).
Proof.
  induction inputs as [|i inputs IH]; intros s Hs Hres; [exact Hs|].
  cbn [run fold_left]. apply IH.
  - apply flagExact_step; [exact Hs|]. exact (Hres [] i inputs eq_refl).
  - intros pre j post E. apply (Hres (i :: pre) j post). now rewrite E.
Qed.

(** C1 (the code departs from it). The scheduler has registered its hourly
    task, a tick has started run 0 and the flag is set; [runImmediateSync]
    is then called.  It is not skipped: a second run of the orchestrator
    starts while the first is in flight, and nothing is logged about a
    skip.  When run 0 then settles the flag is cleared although run 1 is
    still in flight, so that the next tick starts a third run next to
    it. *)
Theorem runImmediateSync_ignores_flag :
  let s2 := run initial [StartHourlySync; CronFires] in
  let s3 := step s2 RunImmediateSync in
  let s4 := step s3 (SyncSettles 0 None (js "1.00")) in
  let s5 := step s4 CronFires in
  syncInProgress s2 = true
  /\ inFlight s2 = [0]
  /\ inFlight s3 = [1; 0]
  /\ ~ In skipWarning (journal s3)
  /\ syncInProgress s4 = false
  /\ inFlight s4 = [1]
  /\ inFlight s5 = [2; 1].
Proof.
  cbv zeta. repeat split; try reflexivity.
  vm_compute. intros H.
  repeat (destruct H as [H | H]; [discriminate H|]). exact H.
Qed.

End SchedulerFacts.

(* ===================================================================== *)
(** * Frames: what the services leave alone *)
(* ===================================================================== *)

Module Frames.

Import JSFacts EffFacts.

Lemma oo_ret {A : Type} (a : A) : observesOnly (ret a).
Proof. intros w. simpl. repeat split. exists []. now rewrite app_nil_r. Qed.

Lemma oo_throw {A : Type} (e : Err) : observesOnly (@throw A e).
Proof. intros w. simpl. repeat split. exists []. now rewrite app_nil_r. Qed.

Lemma oo_emit (e : Event) : observesOnly (emit e).
Proof. intros w. simpl. repeat split. now exists [e]. Qed.

Lemma oo_log (lg : Logger) (lvl : Level) (msg : jsstring) :
  observesOnly (log lg lvl msg).
Proof. apply oo_emit. Qed.

Lemma oo_logWith (lg : Logger) (lvl : Level) (msg : jsstring) (e : Err) :
  observesOnly (logWith lg lvl msg e).
Proof. apply oo_emit. Qed.

Lemma oo_sleep (ms : Z) : observesOnly (sleep ms).
Proof. intros w. simpl. repeat split. now exists [Sleep ms]. Qed.

Lemma oo_dateNow : observesOnly dateNow.
Proof. intros w. simpl. repeat split. exists []. now rewrite app_nil_r. Qed.

Lemma oo_getWorld : observesOnly getWorld.
Proof. intros w. simpl. repeat split. exists []. now rewrite app_nil_r. Qed.

Lemma oo_bind {A B : Type} (m : M A) (k : A -> M B) :
  observesOnly m -> (forall a, observesOnly (k a)) -> observesOnly (bind m k).
Proof.
  intros Hm Hk w. unfold bind.
  destruct (Hm w) as (H1 & H2 & H3 & evs & H4).
  destruct (m w) as [[a|e] w1]; simpl in *.
  - destruct (Hk a w1) as (K1 & K2 & K3 & evs' & K4).
    rewrite K1, K2, K3, K4, H1, H2, H3, H4. repeat split.
    exists (evs ++ evs'). now rewrite app_assoc.
  - repeat split; try assumption. now exists evs.
Qed.

Lemma oo_tryCatch {A : Type} (m : M A) (h : Err -> M A) :
  observesOnly m -> (forall e, observesOnly (h e)) ->
  observesOnly (tryCatch m h).
Proof.
  intros Hm Hh w. unfold tryCatch.
  destruct (Hm w) as (H1 & H2 & H3 & evs & H4).
  destruct (m w) as [[a|e] w1]; simpl in *.
  - repeat split; try assumption. now exists evs.
  - destruct (Hh e w1) as (K1 & K2 & K3 & evs' & K4).
    rewrite K1, K2, K3, K4, H1, H2, H3, H4. repeat split.
    exists (evs ++ evs'). now rewrite app_assoc.
Qed.

Lemma oo_settle {A : Type} (m : M A) :
  observesOnly m -> observesOnly (settle m).
Proof.
  intros Hm w. unfold settle. specialize (Hm w).
  destruct (m w) as [o w1]. exact Hm.
Qed.

Lemma oo_mapMi {A B : Type} (f : nat -> A -> M B) (l : list A) :
  (forall i x, observesOnly (f i x)) -> forall i, observesOnly (mapMi f i l).
Proof.
  intros Hf. induction l as [|x l IH]; intros i; cbn [mapMi].
  - apply oo_ret.
  - apply oo_bind; [apply Hf|]. intros y.
    apply oo_bind; [apply IH|]. intros ys. apply oo_ret.
Qed.

Create HintDb frames.
#[export] Hint Resolve oo_ret oo_throw oo_emit oo_log oo_logWith oo_sleep
  oo_dateNow oo_getWorld : frames.

(** Takes a computation apart along its binds, handlers and branches. *)
Ltac frame :=
  repeat first
    [ apply oo_bind; [|intro]
    | apply oo_tryCatch; [|intro]
    | apply oo_settle
    | match goal with
      | |- observesOnly (if ?c then _ else _) => destruct c
      | |- observesOnly (match ?x with _ => _ end) => destruct x
      | |- observesOnly (let (_, _) := ?x in _) => destruct x
      end
    | solve [eauto with frames] ].

Lemma oo_retryLoop {A : Type} (lg : Logger) (op : nat -> M A)
    (onSuccess : A -> M unit) (failureText : nat -> Err -> jsstring)
    (maxRetries : nat) (retryDelay : Z) (remaining : nat) :
  (forall k, observesOnly (op k)) ->
  (forall a, observesOnly (onSuccess a)) ->
  forall attempt lastError,
    observesOnly (retryLoop lg op onSuccess failureText maxRetries retryDelay
                            remaining attempt lastError).
Proof.
  intros Hop Hon. induction remaining as [|remaining IH];
    intros attempt lastError; cbn [retryLoop].
  - apply oo_ret.
  - apply oo_bind.
    + apply oo_settle. apply oo_bind; [apply Hop|]. intros a.
      apply oo_bind; [apply Hon|]. intros _. apply oo_ret.
    + intros [a|e]; [apply oo_ret|].
      apply oo_bind; [apply oo_log|]. intros _.
      apply oo_bind; [frame|]. intros _. apply IH.
Qed.

Lemma oo_validateDate (dateParses : jsstring -> bool) (d : jsstring) :
  observesOnly (validateDate dateParses d).
Proof. unfold validateDate. frame. Qed.

Lemma oo_validateSpreadsheetId (spreadsheetId : jsstring) :
  observesOnly (validateSpreadsheetId spreadsheetId).
Proof. unfold validateSpreadsheetId. frame. Qed.

Lemma oo_fetchWithTimeout (answer : WBApi.HttpOutcome) (d : jsstring) :
  observesOnly (WBApi.fetchWithTimeout answer d).
Proof. unfold WBApi.fetchWithTimeout. frame. Qed.

Lemma oo_fetchBoxTariffs (svc : WBApi.Service) (dateParses : jsstring -> bool)
    (http : nat -> WBApi.HttpOutcome) (d : jsstring) :
  observesOnly (WBApi.fetchBoxTariffs svc dateParses http d).
Proof.
  unfold WBApi.fetchBoxTariffs.
  apply oo_bind; [apply oo_validateDate|]. intros _.
  apply oo_bind; [apply oo_log|]. intros _.
  apply oo_bind.
  - apply oo_retryLoop; intros; [apply oo_fetchWithTimeout | apply oo_log].
  - intros [l|last]; frame.
Qed.

Lemma oo_validateAndTrim (value fieldName : jsstring) (maxLength : nat) :
  observesOnly (WBApi.validateAndTrim value fieldName maxLength).
Proof. unfold WBApi.validateAndTrim. frame. Qed.

Lemma oo_parseCoefficient (value : jsstring) :
  observesOnly (WBApi.parseCoefficient value).
Proof. unfold WBApi.parseCoefficient. frame. Qed.

#[export] Hint Resolve oo_validateAndTrim oo_parseCoefficient : frames.

Lemma oo_transformOne (d : jsstring) (index : nat) (t : WBWarehouseTariff) :
  observesOnly (WBApi.transformOne d index t).
Proof. unfold WBApi.transformOne. frame. Qed.

Lemma oo_transformToDbFormat (tariffs : list WBWarehouseTariff)
    (d : jsstring) :
  observesOnly (WBApi.transformToDbFormat tariffs d).
Proof.
  unfold WBApi.transformToDbFormat.
  apply oo_bind; [apply oo_log|]. intros _.
  apply oo_mapMi. intros. apply oo_transformOne.
Qed.

Lemma oo_getTariffsByDate (queryFails : option Err)
    (collate : jsstring -> jsstring -> bool) (d : jsstring) :
  observesOnly (Repository.getTariffsByDate queryFails collate d).
Proof. unfold Repository.getTariffsByDate. frame. Qed.

Lemma oo_updateSpreadsheetInternal (answer : Sheets.SheetsOutcome)
    (spreadsheetId : jsstring) (tariffs : list TariffExportRow) :
  observesOnly (Sheets.updateSpreadsheetInternal answer spreadsheetId tariffs).
Proof.
  unfold Sheets.updateSpreadsheetInternal.
  apply oo_tryCatch; [frame|]. intros e.
  destruct (code e) as [[|p|p]|]; try apply oo_throw.
  repeat (destruct p as [p|p|]; try apply oo_throw).
Qed.

Lemma oo_updateSpreadsheet (svc : Sheets.Service)
    (api : nat -> Sheets.SheetsOutcome) (spreadsheetId : jsstring)
    (tariffs : list TariffExportRow) :
  observesOnly (Sheets.updateSpreadsheet svc api spreadsheetId tariffs).
Proof.
  unfold Sheets.updateSpreadsheet.
  apply oo_bind; [apply oo_validateSpreadsheetId|]. intros _.
  apply oo_bind; [apply oo_log|]. intros _.
  apply oo_bind.
  - apply oo_retryLoop; intros;
      [apply oo_updateSpreadsheetInternal | apply oo_log].
  - intros [l|last]; frame.
Qed.

Lemma oo_getSpreadsheetIds (queryFails : option Err) :
  observesOnly (Sheets.getSpreadsheetIds queryFails).
Proof. unfold Sheets.getSpreadsheetIds. frame. Qed.

Lemma oo_settleAll (svc : Sheets.Service)
    (api : jsstring -> nat -> Sheets.SheetsOutcome)
    (tariffs : list TariffExportRow) (ids : list jsstring) :
  observesOnly (Sheets.settleAll svc api ids tariffs).
Proof.
  induction ids as [|id ids IH]; cbn [Sheets.settleAll]; [apply oo_ret|].
  apply oo_bind; [apply oo_settle, oo_updateSpreadsheet|]. intros o.
  apply oo_bind; [apply IH|]. intros os. apply oo_ret.
Qed.

Lemma oo_tally (ids : list jsstring) :
  forall (results : list (Outcome unit)) (s f : nat),
    observesOnly (Sheets.tally ids results s f).
Proof.
  induction ids as [|id ids IH]; intros [|[a|e] rs] s f; cbn [Sheets.tally];
    try apply oo_ret.
  - apply oo_bind; [apply oo_log|]. intros _. apply IH.
  - apply oo_bind; [apply oo_log|]. intros _. apply IH.
Qed.

Lemma oo_updateAllSpreadsheets (svc : Sheets.Service)
    (idsQueryFails : option Err)
    (api : jsstring -> nat -> Sheets.SheetsOutcome)
    (tariffs : list TariffExportRow) :
  observesOnly (Sheets.updateAllSpreadsheets svc idsQueryFails api tariffs).
Proof.
  unfold Sheets.updateAllSpreadsheets.
  apply oo_bind; [apply oo_log|]. intros _.
  apply oo_bind; [apply oo_getSpreadsheetIds|]. intros ids.
  destruct (List.length ids =? 0); [apply oo_log|].
  apply oo_bind; [apply oo_settleAll|]. intros rs.
  apply oo_bind; [apply oo_tally|]. intros [s f].
  frame.
Qed.

End Frames.

(* ===================================================================== *)
(** * Decimal printing and [parseInt] *)
(* ===================================================================== *)

Module NumberFacts.

Import JSFacts.

Local Abbreviation digitStep :=
  (fun (acc : Z) (d : N) => (acc * 10 + (Z.of_N d - 48))%Z).

Lemma uintCodes_digits (d : Decimal.uint) :
  forallb isDigit (uintCodes d) = true.
Proof. induction d; simpl; auto. Qed.

Lemma digitsPrefix_all (l : list N) :
  forallb isDigit l = true -> digitsPrefix l = l.
Proof.
  induction l as [|c l IH]; simpl; [reflexivity|].
  intros H. apply andb_true_iff in H as [Hc Hl].
  rewrite Hc, IH; auto.
Qed.

Lemma uintCodes_nil (d : Decimal.uint) : uintCodes d = [] -> d = Decimal.Nil.
Proof. destruct d; simpl; congruence. Qed.

Lemma value_pos_acc (d : Decimal.uint) :
  forall acc : positive,
    fold_left digitStep (uintCodes d) (Zpos acc)
    = Zpos (Pos.of_uint_acc d acc).
Proof.
  induction d; intros acc; cbn [uintCodes fold_left Pos.of_uint_acc];
    try reflexivity; rewrite <- IHd; f_equal;
    change (Z.of_N 48) with 48%Z; change (Z.of_N 49) with 49%Z;
    change (Z.of_N 50) with 50%Z; change (Z.of_N 51) with 51%Z;
    change (Z.of_N 52) with 52%Z; change (Z.of_N 53) with 53%Z;
    change (Z.of_N 54) with 54%Z; change (Z.of_N 55) with 55%Z;
    change (Z.of_N 56) with 56%Z; change (Z.of_N 57) with 57%Z; lia.
Qed.

Lemma value_uint (d : Decimal.uint) :
  digitsValue (uintCodes d) = Z.of_N (Pos.of_uint d).
Proof.
  unfold digitsValue.
  induction d; cbn [uintCodes fold_left Pos.of_uint]; try reflexivity;
    try exact IHd;
    match goal with
    | |- _ = Z.of_N (N.pos (Pos.of_uint_acc _ ?p)) => exact (value_pos_acc d p)
    end.
Qed.

Lemma value_nat_acc (d : Decimal.uint) :
  forall acc : nat,
    fold_left digitStep (uintCodes d) (Z.of_nat acc)
    = Z.of_nat (Nat.of_uint_acc d acc).
Proof.
  induction d; intros acc; cbn [uintCodes fold_left Nat.of_uint_acc];
    try reflexivity; rewrite <- IHd; f_equal; rewrite Nat.tail_mul_spec;
    change (Z.of_N 48) with 48%Z; change (Z.of_N 49) with 49%Z;
    change (Z.of_N 50) with 50%Z; change (Z.of_N 51) with 51%Z;
    change (Z.of_N 52) with 52%Z; change (Z.of_N 53) with 53%Z;
    change (Z.of_N 54) with 54%Z; change (Z.of_N 55) with 55%Z;
    change (Z.of_N 56) with 56%Z; change (Z.of_N 57) with 57%Z; lia.
Qed.

(** A string of decimal digits is read back as the number it prints. *)
Lemma parseInt10_digits (ds : jsstring) :
  ds <> [] -> forallb isDigit ds = true ->
  parseInt10 ds = Some (digitsValue ds).
Proof.
  intros Hne Hd. unfold parseInt10.
  destruct ds as [|c r]; [congruence|].
  simpl in Hd. apply andb_true_iff in Hd as [Hc Hr].
  assert (Hws : trimStart (c :: r) = c :: r).
  { simpl. now rewrite (digit_not_ws c Hc). }
  destruct (digit_not_sign c Hc) as [Hm Hp].
  rewrite Hws, (splitSign_other c r Hm Hp).
  rewrite (digitsPrefix_all (c :: r)) by (simpl; now rewrite Hc, Hr).
  f_equal. lia.
Qed.

Lemma parseInt10_natToString (n : nat) :
  parseInt10 (natToString n) = Some (Z.of_nat n).
Proof.
  unfold natToString. rewrite parseInt10_digits.
  - f_equal. rewrite <- (DecimalNat.Unsigned.of_to n) at 2.
    exact (value_nat_acc (Nat.to_uint n) 0).
  - intros H. apply uintCodes_nil in H.
    generalize (DecimalNat.Unsigned.of_to n). rewrite H. simpl.
    intros <-. now vm_compute in H.
  - apply uintCodes_digits.
Qed.

Lemma zToString_pos (p : positive) :
  parseInt10 (uintCodes (Pos.to_uint p)) = Some (Zpos p).
Proof.
  rewrite parseInt10_digits.
  - now rewrite value_uint, DecimalPos.Unsigned.of_to.
  - intros H. apply uintCodes_nil in H.
    exact (DecimalPos.Unsigned.to_uint_nonnil p H).
  - apply uintCodes_digits.
Qed.

Lemma parseInt10_zToString (z : Z) : parseInt10 (zToString z) = Some z.
Proof.
  destruct z as [|p|p]; cbn [zToString].
  - reflexivity.
  - apply zToString_pos.
  - pose proof (zToString_pos p) as H. unfold parseInt10 in *.
    change (trimStart (45%N :: uintCodes (Pos.to_uint p)))
      with (45%N :: uintCodes (Pos.to_uint p)).
    cbn [splitSign].
    assert (Hd : forallb isDigit (uintCodes (Pos.to_uint p)) = true)
      by apply uintCodes_digits.
    destruct (uintCodes (Pos.to_uint p)) as [|c r] eqn:E.
    { apply uintCodes_nil in E.
      now destruct (DecimalPos.Unsigned.to_uint_nonnil p). }
    simpl in Hd. apply andb_true_iff in Hd as [Hc Hr].
    assert (Hws : trimStart (c :: r) = c :: r).
    { simpl. now rewrite (digit_not_ws c Hc). }
    destruct (digit_not_sign c Hc) as [Hm Hp].
    rewrite Hws, (splitSign_other c r Hm Hp) in H.
    destruct (digitsPrefix (c :: r)); [discriminate|].
    rewrite Z.mul_1_l in H. injection H as H. rewrite H. reflexivity.
Qed.

End NumberFacts.

(* ===================================================================== *)
(** * services/wbApi.ts: what the client leaves alone, and its edges *)
(* ===================================================================== *)

Module WBApiFacts.

Import JSFacts EffFacts NumberFacts Normalisation.

(** ** Trimming *)

Lemma trimStart_length (s : jsstring) :
  List.length (trimStart s) <= List.length s.
Proof.
  induction s as [|c r IH]; simpl; [lia|].
  destruct (isWhiteSpace c); simpl; lia.
Qed.

Lemma trimEnd_length (s : jsstring) :
  List.length (trimEnd s) <= List.length s.
Proof.
  unfold trimEnd. rewrite length_rev.
  pose proof (trimStart_length (rev s)) as H. now rewrite length_rev in H.
Qed.

Lemma trim_length (s : jsstring) : List.length (trim s) <= List.length s.
Proof.
  unfold trim. pose proof (trimEnd_length (trimStart s)).
  pose proof (trimStart_length s). lia.
Qed.

Lemma trimStart_keeps_last (c : N) (l : jsstring) :
  isWhiteSpace c = false -> exists p, trimStart (l ++ [c]) = p ++ [c].
Proof.
  intros Hc. induction l as [|x l IH]; simpl.
  - rewrite Hc. now exists [].
  - destruct (isWhiteSpace x); [exact IH|]. now exists (x :: l).
Qed.

Lemma trimEnd_keeps_first (c : N) (x : jsstring) :
  isWhiteSpace c = false -> exists y, trimEnd (c :: x) = c :: y.
Proof.
  intros Hc. unfold trimEnd. simpl rev.
  destruct (trimStart_keeps_last c (rev x) Hc) as [p Hp].
  rewrite Hp, rev_app_distr. simpl. now exists (rev p).
Qed.

(** A trimmed string that is not empty starts with a character that is
    not white space. *)
Lemma trim_head (s : jsstring) :
  trim s <> [] ->
  exists c y, trim s = c :: y /\ isWhiteSpace c = false.
Proof.
  intros Hne. unfold trim in *.
  destruct (trimStart_split s) as (ws & _ & _ & Hhead).
  destruct (trimStart s) as [|c r]; [now elim Hne|].
  destruct (trimEnd_keeps_first c r Hhead) as [y Hy].
  exists c, y. split; assumption.
Qed.

Lemma trim_of_trimmed_head (c : N) (x : jsstring) :
  isWhiteSpace c = false -> exists y, trim (c :: x) = c :: y.
Proof.
  intros Hc. unfold trim. simpl trimStart. rewrite Hc.
  now apply trimEnd_keeps_first.
Qed.

(** ** Coefficients *)

Lemma digitsPrefix_app (ds rest : jsstring) :
  forallb isDigit ds = true ->
  match rest with [] => True | c :: _ => isDigit c = false end ->
  digitsPrefix (ds ++ rest) = ds.
Proof.
  intros Hd Hrest. induction ds as [|c r IH]; simpl.
  - destruct rest as [|c r]; [reflexivity|]. simpl. now rewrite Hrest.
  - simpl in Hd. apply andb_true_iff in Hd as [Hc Hr].
    rewrite Hc, IH; auto.
Qed.

Lemma parseInt10_digits_then (ds rest : jsstring) :
  ds <> [] -> forallb isDigit ds = true ->
  match rest with [] => True | c :: _ => isDigit c = false end ->
  parseInt10 (ds ++ rest) = Some (digitsValue ds).
Proof.
  intros Hne Hd Hrest. unfold parseInt10.
  destruct ds as [|c r]; [congruence|].
  pose proof Hd as Hd'. simpl in Hd'. apply andb_true_iff in Hd' as [Hc Hr].
  assert (Hws : trimStart ((c :: r) ++ rest) = (c :: r) ++ rest).
  { simpl. now rewrite (digit_not_ws c Hc). }
  destruct (digit_not_sign c Hc) as [Hm Hp].
  rewrite Hws. change ((c :: r) ++ rest) with (c :: (r ++ rest)).
  rewrite (splitSign_other c (r ++ rest) Hm Hp).
  change (c :: (r ++ rest)) with ((c :: r) ++ rest).
  rewrite (digitsPrefix_app (c :: r) rest Hd Hrest).
  f_equal. lia.
Qed.

Lemma uintCodes_pos (p : positive) :
  exists c r, uintCodes (Pos.to_uint p) = c :: r
              /\ forallb isDigit (c :: r) = true
              /\ digitsValue (c :: r) = Zpos p.
Proof.
  pose proof (uintCodes_digits (Pos.to_uint p)) as Hd.
  pose proof (value_uint (Pos.to_uint p)) as Hv.
  rewrite DecimalPos.Unsigned.of_to in Hv.
  destruct (uintCodes (Pos.to_uint p)) as [|c r] eqn:E.
  - apply uintCodes_nil in E.
    now destruct (DecimalPos.Unsigned.to_uint_nonnil p).
  - now exists c, r.
Qed.

Lemma parseInt10_zToString_then (z : Z) (rest : jsstring) :
  match rest with [] => True | c :: _ => isDigit c = false end ->
  parseInt10 (zToString z ++ rest) = Some z.
Proof.
  intros Hrest. destruct z as [|p|p]; cbn [zToString].
  - now rewrite (parseInt10_digits_then [48%N] rest).
  - destruct (uintCodes_pos p) as (c & r & E & Hd & Hv).
    rewrite E, (parseInt10_digits_then (c :: r) rest); congruence.
  - destruct (uintCodes_pos p) as (c & r & E & Hd & Hv).
    rewrite E.
    pose proof (parseInt10_digits_then (c :: r) rest ltac:(congruence) Hd Hrest)
      as H.
    pose proof Hd as Hd'. simpl in Hd'. apply andb_true_iff in Hd' as [Hc Hr].
    destruct (digit_not_sign c Hc) as [Hm Hp].
    unfold parseInt10 in *.
    change (trimStart ((45%N :: c :: r) ++ rest))
      with (45%N :: (c :: r) ++ rest).
    cbn [splitSign].
    assert (Hws : trimStart ((c :: r) ++ rest) = (c :: r) ++ rest).
    { simpl. now rewrite (digit_not_ws c Hc). }
    rewrite Hws in H. change ((c :: r) ++ rest) with (c :: (r ++ rest)) in H.
    rewrite (splitSign_other c (r ++ rest) Hm Hp) in H.
    change ((c :: r) ++ rest) with (c :: (r ++ rest)).
    destruct (digitsPrefix (c :: r ++ rest)); [discriminate|].
    rewrite Z.mul_1_l in H. injection H as H. rewrite H, Hv. reflexivity.
Qed.

Lemma zToString_not_sentinel (z : Z) (rest : jsstring) :
  truthy (zToString z ++ rest) = true
  /\ str_eqb (zToString z ++ rest) (js "-") = false.
Proof.
  destruct z as [|p|p]; cbn [zToString].
  - split; reflexivity.
  - destruct (uintCodes_pos p) as (c & r & E & Hd & _). rewrite E.
    simpl in Hd. apply andb_true_iff in Hd as [Hc _].
    destruct (digit_not_sign c Hc) as [Hm _].
    split; [reflexivity|]. simpl.
    destruct (N.eqb_spec c 45); [contradiction|reflexivity].
  - destruct (uintCodes_pos p) as (c & r & E & _ & _). rewrite E.
    split; reflexivity.
Qed.

(** X1. A coefficient printed in decimal is read back as that integer, zero
    and negative numbers included, and whatever follows the digits is
    dropped without a warning.  The integer is one a JavaScript number
    holds exactly (at most 2^53 - 1 in absolute value): beyond that
    [parseInt] rounds to the nearest double, which [JS.parseInt10] does not
    model. *)
Theorem parseCoefficient_reads_decimal (z : Z) (rest : jsstring) (w : World) :
  safeInteger z ->
  match rest with [] => True | c :: _ => isDigit c = false end ->
  WBApi.parseCoefficient (zToString z ++ rest) w = (Return (Some z), w).
Proof.
  intros _ Hrest. unfold WBApi.parseCoefficient.
  destruct (zToString_not_sentinel z rest) as [Ht Hs].
  rewrite Ht, Hs, (parseInt10_zToString_then z rest Hrest). reflexivity.
Qed.

Lemma parseCoefficient_reads_decimal_witness :
  WBApi.parseCoefficient (zToString 0 ++ js ",5") Samples.emptyWorld
  = (Return (Some 0%Z), Samples.emptyWorld).
Proof.
  apply (parseCoefficient_reads_decimal 0 (js ",5") Samples.emptyWorld).
  - unfold safeInteger. lia.
  - reflexivity.
Defined.

(** ** The transformation *)

Lemma ro_ret {A : Type} (a : A) : recordsOnly (ret a).
Proof. intros w. exists []. simpl. now rewrite record_nil. Qed.

Lemma ro_throw {A : Type} (e : Err) : recordsOnly (@throw A e).
Proof. intros w. exists []. simpl. now rewrite record_nil. Qed.

Lemma ro_emit_log (lg : Logger) (lvl : Level) (msg : jsstring)
    (att : option Err) : recordsOnly (emit (Log lg lvl msg att)).
Proof. intros w. now exists [Log lg lvl msg att]. Qed.

Lemma ro_bind {A B : Type} (m : M A) (k : A -> M B) :
  recordsOnly m -> (forall a, recordsOnly (k a)) -> recordsOnly (bind m k).
Proof.
  intros Hm Hk w. unfold bind. destruct (Hm w) as [evs H].
  destruct (m w) as [[a|e] w1]; simpl in *; subst w1.
  - destruct (Hk a (record evs w)) as [evs' H']. rewrite H'.
    exists (evs ++ evs'). now rewrite record_record.
  - now exists evs.
Qed.

Lemma ro_validateAndTrim (value fieldName : jsstring) (maxLength : nat) :
  recordsOnly (WBApi.validateAndTrim value fieldName maxLength).
Proof.
  unfold WBApi.validateAndTrim.
  destruct (negb (truthy value)); [apply ro_throw|].
  destruct (List.length (trim value) =? 0); [apply ro_throw|].
  destruct (maxLength <? List.length (trim value)); [|apply ro_ret].
  apply ro_bind; [apply ro_emit_log|]. intros _. apply ro_ret.
Qed.

Lemma ro_parseCoefficient (value : jsstring) :
  recordsOnly (WBApi.parseCoefficient value).
Proof.
  intros w. destruct (parseCoefficient_run value w) as [evs H].
  exists evs. now rewrite H.
Qed.

(** When the callback throws, the last thing it did was to log the index
    with the error. *)
Lemma transformOne_throw_logs (d : jsstring) (i : nat) (t : WBWarehouseTariff)
    (w : World) (e : Err) :
  fst (WBApi.transformOne d i t w) = Throw e ->
  exists evs,
    snd (WBApi.transformOne d i t w) = record (evs ++ [transformFailure i e]) w.
Proof.
  unfold WBApi.transformOne, tryCatch.
  match goal with
  | |- context [match ?body w with _ => _ end] =>
      assert (Hro : recordsOnly body)
  end.
  { apply ro_bind; [apply ro_validateAndTrim|]. intros wn.
    apply ro_bind.
    { destruct (truthy (geoName t)); [|apply ro_ret].
      apply ro_bind; [apply ro_validateAndTrim|]. intros g. apply ro_ret. }
    intros gn.
    apply ro_bind; [apply ro_parseCoefficient|]. intros dc.
    apply ro_bind; [apply ro_parseCoefficient|]. intros mc.
    apply ro_bind; [apply ro_parseCoefficient|]. intros sc.
    apply ro_ret. }
  destruct (Hro w) as [evs Hw]. revert Hw.
  match goal with
  | |- context [match ?body w with _ => _ end] => destruct (body w) as [[r|e'] w1]
  end; simpl; intros -> Hthrow; [discriminate|].
  injection Hthrow as <-. exists evs.
  now rewrite record_record.
Qed.

Lemma mapMi_transform_prefix (d : jsstring) (bad : WBWarehouseTariff)
    (rest : list WBWarehouseTariff) (good : list WBWarehouseTariff) :
  forall (i : nat) (w : World),
    Forall namesPresent good -> ~ namesPresent bad ->
    exists e evs,
      mapMi (WBApi.transformOne d) i (good ++ bad :: rest) w
      = (Throw e,
         record (evs ++ [transformFailure (i + List.length good) e]) w)
      /\ errClass e = ValidationError.
Proof.
  induction good as [|t good IH]; intros i w Hgood Hbad; cbn [mapMi app].
  - destruct (transformOne_throws d i bad w Hbad) as (e & evs & Hrun & Hcls).
    destruct (transformOne_throw_logs d i bad w e) as [evs' Hlog].
    { now rewrite Hrun. }
    exists e, evs'. split; [|exact Hcls].
    apply bind_throw. rewrite Nat.add_0_r, <- Hlog, Hrun. reflexivity.
  - inversion Hgood as [|? ? Ht Hrest]; subst.
    destruct (transformOne_ok d i t w Ht) as (ev1 & H1 & _).
    destruct (IH (S i) (record ev1 w) Hrest Hbad) as (e & evs & Hrun & Hcls).
    exists e, (ev1 ++ evs). split; [|exact Hcls].
    erewrite bind_return by exact H1.
    apply bind_throw. rewrite Hrun, record_record, app_assoc.
    cbn [List.length]. now rewrite Nat.add_succ_r.
Qed.

(** X2. The transformation gives up at the first entry whose names do not
    pass: it throws that entry's ValidationError, the last thing logged is
    the failure with the index of that entry, and no record is returned. *)
Theorem transform_fails_at_first_bad_entry (good rest : list WBWarehouseTariff)
    (bad : WBWarehouseTariff) (d : jsstring) (w : World) :
  Forall namesPresent good -> ~ namesPresent bad ->
  exists e evs,
    WBApi.transformToDbFormat (good ++ bad :: rest) d w
    = (Throw e, record (evs ++ [transformFailure (List.length good) e]) w)
    /\ errClass e = ValidationError.
Proof.
  intros Hgood Hbad. unfold WBApi.transformToDbFormat.
  destruct (mapMi_transform_prefix d bad rest good 0
              (record [Log LApi LvDebug
                         (js "Transforming "
                          ++ natToString (List.length (good ++ bad :: rest))
                          ++ js " tariffs to database format") None] w)
              Hgood Hbad) as (e & evs & Hrun & Hcls).
  exists e. eexists. split; [|exact Hcls].
  erewrite bind_return by apply log_run.
  rewrite Hrun, record_record, app_assoc. reflexivity.
Qed.

Lemma transform_fails_at_first_bad_entry_witness :
  exists e evs,
    WBApi.transformToDbFormat
      ([Samples.plainEntry] ++ Samples.blankNameEntry :: [Samples.plainEntry])
      Samples.day Samples.emptyWorld
    = (Throw e,
       record (evs ++ [transformFailure (List.length [Samples.plainEntry]) e])
              Samples.emptyWorld)
    /\ errClass e = ValidationError.
Proof.
  apply (transform_fails_at_first_bad_entry [Samples.plainEntry]
           [Samples.plainEntry] Samples.blankNameEntry).
  - names_present.
  - intros [H _]. apply H. reflexivity.
Defined.

(** ** Names that were stored *)

Lemma truncated_name (v : jsstring) (maxLength : nat) :
  trim v <> [] -> 0 < maxLength ->
  exists c x,
    substring0 maxLength (trim v) = c :: x
    /\ isWhiteSpace c = false
    /\ List.length (c :: x) <= maxLength.
Proof.
  intros Hne Hmax. destruct (trim_head v Hne) as (c & y & Ht & Hc).
  destruct maxLength as [|n]; [lia|].
  exists c, (firstn n y). unfold substring0. rewrite Ht, firstn_cons.
  repeat split; [exact Hc|].
  cbn [List.length]. pose proof (firstn_le_length n y). lia.
Qed.

Lemma validateWarehouseName_accepts (c : N) (x : jsstring) (w : World) :
  isWhiteSpace c = false ->
  List.length (c :: x) <= Config.MAX_WAREHOUSE_NAME_LENGTH ->
  validateWarehouseName (c :: x) w = (Return tt, w).
Proof.
  intros Hc Hlen. unfold validateWarehouseName.
  destruct (trim_of_trimmed_head c x Hc) as [y Hy].
  pose proof (trim_length (c :: x)) as Hle.
  cbn [truthy negb]. rewrite Hy in *.
  change (List.length (c :: y) =? 0) with false. cbv iota.
  destruct (Nat.ltb_spec Config.MAX_WAREHOUSE_NAME_LENGTH
              (List.length (c :: y))); [lia|reflexivity].
Qed.

(** X3. Every record the transformation returns carries the date asked
    for, a warehouse name of 1 to 255 code units that passes
    [validateWarehouseName], and a region name that is absent or has 1 to
    255 code units; there is one record per entry. *)
Theorem stored_names_pass_validation (tariffs : list WBWarehouseTariff)
    (d : jsstring) (w : World) :
  Forall namesPresent tariffs ->
  exists recs w',
    WBApi.transformToDbFormat tariffs d w = (Return recs, w')
    /\ List.length recs = List.length tariffs
    /\ Forall
         (fun r =>
            date r = d
            /\ 1 <= List.length (warehouse_name r)
                 <= Config.MAX_WAREHOUSE_NAME_LENGTH
            /\ (forall w0,
                  validateWarehouseName (warehouse_name r) w0 = (Return tt, w0))
            /\ match geo_name r with
               | Some g => 1 <= List.length g <= Config.MAX_GEO_NAME_LENGTH
               | None => True
               end)
         recs.
Proof.
  intros Hall.
  destruct (transformToDbFormat_ok tariffs d w Hall) as (evs & Hrun & _).
  exists (List.map (normalized d) tariffs), (record evs w).
  split; [exact Hrun|]. split; [apply length_map|].
  apply Forall_forall. intros r Hr.
  apply in_map_iff in Hr as (t & <- & Ht).
  rewrite Forall_forall in Hall. destruct (Hall t Ht) as [Hname Hgeo].
  assert (Hpos : 0 < Config.MAX_WAREHOUSE_NAME_LENGTH)
    by (unfold Config.MAX_WAREHOUSE_NAME_LENGTH; lia).
  destruct (truncated_name (warehouseName t) _ Hname Hpos)
    as (c & x & Hsub & Hc & Hlen).
  cbn [normalized date warehouse_name geo_name]. rewrite Hsub.
  split; [reflexivity|]. split; [cbn [List.length] in *; lia|].
  split; [intros w0; now apply validateWarehouseName_accepts|].
  destruct (truthy (geoName t)) eqn:Hg; [|exact I].
  destruct Hgeo as [E|Hne]; [rewrite E in Hg; discriminate|].
  assert (Hpos' : 0 < Config.MAX_GEO_NAME_LENGTH)
    by (unfold Config.MAX_GEO_NAME_LENGTH; lia).
  destruct (truncated_name (geoName t) _ Hne Hpos')
    as (c' & x' & Hsub' & _ & Hlen').
  rewrite Hsub'. cbn [List.length] in *. lia.
Qed.

Lemma stored_names_pass_validation_witness :
  exists recs w',
    WBApi.transformToDbFormat [Samples.plainEntry; Samples.longNameEntry]
      Samples.day Samples.emptyWorld = (Return recs, w')
    /\ List.length recs
       = List.length [Samples.plainEntry; Samples.longNameEntry]
    /\ Forall
         (fun r =>
            date r = Samples.day
            /\ 1 <= List.length (warehouse_name r)
                 <= Config.MAX_WAREHOUSE_NAME_LENGTH
            /\ (forall w0,
                  validateWarehouseName (warehouse_name r) w0 = (Return tt, w0))
            /\ match geo_name r with
               | Some g => 1 <= List.length g <= Config.MAX_GEO_NAME_LENGTH
               | None => True
               end)
         recs.
Proof.
  apply (stored_names_pass_validation
           [Samples.plainEntry; Samples.longNameEntry] Samples.day
           Samples.emptyWorld).
  names_present.
Defined.

(** X4. Fetching and transforming change neither table nor the metrics
    collector, whatever the remote side answers and whether they return or
    throw; all they leave behind is in the trace. *)
Theorem client_changes_no_state (svc : WBApi.Service)
    (dateParses : jsstring -> bool) (http : nat -> WBApi.HttpOutcome)
    (tariffs : list WBWarehouseTariff) (d : jsstring) :
  observesOnly (WBApi.fetchBoxTariffs svc dateParses http d)
  /\ observesOnly (WBApi.transformToDbFormat tariffs d).
Proof.
  split; [apply Frames.oo_fetchBoxTariffs | apply Frames.oo_transformToDbFormat].
Qed.

End WBApiFacts.

(* ===================================================================== *)
(** * The retry loops: early exits and the time they take *)
(* ===================================================================== *)

Module RetryEdges.

Import JSFacts EffFacts RetryFacts SyncFacts PublishAll.

Lemma validateDate_rejects (dateParses : jsstring -> bool) (d : jsstring)
    (w : World) :
  ~ acceptedDate dateParses d ->
  exists e, validateDate dateParses d w = (Throw e, w)
            /\ errClass e = ValidationError
            /\ statusCode e = Some 400%Z.
Proof.
  unfold acceptedDate, validateDate. intros Hnot.
  destruct (truthy d); cbn [negb];
    [|eexists; repeat split; reflexivity].
  destruct (matchesDateFormat d); cbn [negb];
    [|eexists; repeat split; reflexivity].
  destruct (dateParses d); cbn [negb];
    [|eexists; repeat split; reflexivity].
  elim Hnot. split; reflexivity.
Qed.

Lemma validateSpreadsheetId_refuses (spreadsheetId : jsstring) (w : World) :
  ~ acceptedId spreadsheetId ->
  exists e, validateSpreadsheetId spreadsheetId w = (Throw e, w)
            /\ errClass e = ValidationError
            /\ statusCode e = Some 400%Z.
Proof.
  unfold acceptedId, validateSpreadsheetId. intros Hnot.
  destruct (truthy spreadsheetId); cbn [negb];
    [|eexists; repeat split; reflexivity].
  destruct (trim spreadsheetId) as [|c r] eqn:Ht.
  { eexists; repeat split; reflexivity. }
  change (List.length (c :: r) =? 0) with false. cbv iota.
  destruct (Nat.ltb_spec (List.length spreadsheetId) 20);
    [eexists; repeat split; reflexivity|].
  elim Hnot. split; [discriminate|assumption].
Qed.

(** X5. A date that does not pass validation ends the fetch at once, with
    the ValidationError (status 400) of the validator: nothing is logged,
    no request is sent, nothing is retried, and the error is not wrapped
    into a WBApiError. *)
Theorem fetch_rejects_invalid_date (svc : WBApi.Service)
    (dateParses : jsstring -> bool) (http : nat -> WBApi.HttpOutcome)
    (d : jsstring) (w : World) :
  ~ acceptedDate dateParses d ->
  exists e,
    WBApi.fetchBoxTariffs svc dateParses http d w = (Throw e, w)
    /\ errClass e = ValidationError
    /\ statusCode e = Some 400%Z.
Proof.
  intros Hnot.
  destruct (validateDate_rejects dateParses d w Hnot) as (e & Hrun & Hcls).
  exists e. split; [|exact Hcls].
  unfold WBApi.fetchBoxTariffs. now apply bind_throw.
Qed.

Lemma fetch_rejects_invalid_date_witness :
  exists e,
    WBApi.fetchBoxTariffs WBApi.defaultService (fun _ => true)
      Samples.apiDown (js "2025-1-20") Samples.emptyWorld
    = (Throw e, Samples.emptyWorld)
    /\ errClass e = ValidationError
    /\ statusCode e = Some 400%Z.
Proof.
  apply (fetch_rejects_invalid_date WBApi.defaultService (fun _ => true)
           Samples.apiDown (js "2025-1-20") Samples.emptyWorld).
  intros [H _]. vm_compute in H. discriminate.
Defined.

(** X6. A spreadsheet id that does not pass validation (empty, blank, or
    shorter than 20 code units) ends the publish at once with a
    ValidationError: the Sheets API is not called and nothing is
    retried. *)
Theorem publish_rejects_invalid_id (svc : Sheets.Service)
    (api : nat -> Sheets.SheetsOutcome) (spreadsheetId : jsstring)
    (tariffs : list TariffExportRow) (w : World) :
  ~ acceptedId spreadsheetId ->
  exists e,
    Sheets.updateSpreadsheet svc api spreadsheetId tariffs w = (Throw e, w)
    /\ errClass e = ValidationError
    /\ statusCode e = Some 400%Z.
Proof.
  intros Hnot.
  destruct (validateSpreadsheetId_refuses spreadsheetId w Hnot)
    as (e & Hrun & Hcls).
  exists e. split; [|exact Hcls].
  unfold Sheets.updateSpreadsheet. now apply bind_throw.
Qed.

Lemma publish_rejects_invalid_id_witness :
  exists e,
    Sheets.updateSpreadsheet Sheets.defaultService (fun _ => Sheets.sheetsOk)
      (js "too-short-id") [] Samples.emptyWorld
    = (Throw e, Samples.emptyWorld)
    /\ errClass e = ValidationError
    /\ statusCode e = Some 400%Z.
Proof.
  apply (publish_rejects_invalid_id Sheets.defaultService
           (fun _ => Sheets.sheetsOk) (js "too-short-id") []
           Samples.emptyWorld).
  intros [_ H]. vm_compute in H. lia.
Defined.

(** ** Time *)

Lemma sum_app (a b : list Z) :
  fold_right Z.add 0%Z (a ++ b)
  = (fold_right Z.add 0 a + fold_right Z.add 0 b)%Z.
Proof. induction a as [|x a IH]; simpl; [reflexivity|]. rewrite IH. lia. Qed.

Lemma linearBackoff_total (retryDelay : Z) (n : nat) :
  (2 * fold_right Z.add 0 (linearBackoff retryDelay (S n))
   = retryDelay * Z.of_nat n * (Z.of_nat n + 1))%Z.
Proof.
  unfold linearBackoff. rewrite Nat.sub_succ, Nat.sub_0_r.
  induction n as [|n IH]; [simpl; lia|].
  rewrite seq_S, map_app, sum_app, Z.mul_add_distr_l, IH.
  cbn [List.map fold_right]. lia.
Qed.

Lemma clock_advance (evs : list Event) (w : World) :
  clock (advance evs w) = (clock w + fold_right Z.add 0 (sleepsOf evs))%Z.
Proof. reflexivity. Qed.

Lemma sleeps_before_success (lg : Logger)
    (failureText : nat -> Err -> jsstring) (maxRetries : nat)
    (retryDelay : Z) (errs : nat -> Err) (opEvents : nat -> list Event)
    (n : nat) :
  (forall k, sleepsOf (opEvents k) = []) ->
  n < maxRetries ->
  sleepsOf (failedAttempts lg failureText maxRetries retryDelay errs
              opEvents 1 n)
  = linearBackoff retryDelay (S n).
Proof.
  intros Hop Hn. rewrite sleeps_failedAttempts by exact Hop.
  rewrite filter_below_seq. unfold linearBackoff.
  rewrite Nat.sub_succ, Nat.sub_0_r.
  replace (Nat.min n (maxRetries - 1)) with n by lia. reflexivity.
Qed.

(** X7. The fetch stops at the first request that is answered: after [n]
    failed requests and an answer it returns the list received, having
    sent [n + 1] requests and slept [delay * 1, ..., delay * n] in
    between, [delay * n * (n + 1) / 2] in all. *)
Theorem fetch_stops_at_first_answer (svc : WBApi.Service)
    (dateParses : jsstring -> bool) (http : nat -> WBApi.HttpOutcome)
    (d : jsstring) (w : World) (errs : nat -> Err) (n : nat)
    (l : list WBWarehouseTariff) :
  acceptedDate dateParses d ->
  n < WBApi.maxRetries svc ->
  (forall k, 1 <= k <= n -> httpFailure (http k) = Some (errs k)) ->
  http (1 + n) = WBApi.HttpJson (Some l) ->
  exists evs w',
    WBApi.fetchBoxTariffs svc dateParses http d w = (Return l, w')
    /\ trace w' = trace w ++ evs
    /\ httpRequests evs = n + 1
    /\ sleepsOf evs = linearBackoff (WBApi.retryDelay svc) (S n)
    /\ (2 * (clock w' - clock w)
        = WBApi.retryDelay svc * Z.of_nat n * (Z.of_nat n + 1))%Z.
Proof.
  intros Hd Hn Hfail Hok.
  pose proof (fetch_answered svc dateParses http d w errs n l Hd Hn Hfail Hok)
    as Hrun. cbv zeta in Hrun.
  match type of Hrun with _ = (_, advance ?evs _) => set (evs0 := evs) in * end.
  assert (Hsleeps : sleepsOf evs0 = linearBackoff (WBApi.retryDelay svc) (S n)).
  { unfold evs0.
    change (?a :: ?m ++ ?z) with ([a] ++ m ++ z).
    rewrite !sleepsOf_app.
    rewrite (sleeps_before_success LApi _ _ _ errs (fun _ => [HttpGet d]) n)
      by (auto || exact Hn).
    simpl. now rewrite app_nil_r. }
  exists evs0, (advance evs0 w). split; [exact Hrun|].
  split; [reflexivity|]. split.
  - unfold evs0. rewrite httpRequests_log, httpRequests_app,
      httpRequests_failedAttempts. reflexivity.
  - split; [exact Hsleeps|].
    rewrite clock_advance, Hsleeps.
    replace (clock w + fold_right Z.add 0 (linearBackoff (WBApi.retryDelay svc) (S n)) - clock w)%Z
      with (fold_right Z.add 0 (linearBackoff (WBApi.retryDelay svc) (S n)))%Z
      by lia.
    apply linearBackoff_total.
Qed.

Lemma fetch_stops_at_first_answer_witness :
  exists evs w',
    WBApi.fetchBoxTariffs WBApi.defaultService (fun _ => true)
      (fun k => if k =? 3 then WBApi.HttpJson (Some [Samples.plainEntry])
                else Samples.apiDown k)
      Samples.day Samples.emptyWorld = (Return [Samples.plainEntry], w')
    /\ trace w' = trace Samples.emptyWorld ++ evs
    /\ httpRequests evs = 2 + 1
    /\ sleepsOf evs = linearBackoff (WBApi.retryDelay WBApi.defaultService) 3
    /\ (2 * (clock w' - clock Samples.emptyWorld)
        = WBApi.retryDelay WBApi.defaultService * Z.of_nat 2
          * (Z.of_nat 2 + 1))%Z.
Proof.
  apply (fetch_stops_at_first_answer WBApi.defaultService (fun _ => true)
           (fun k => if k =? 3 then WBApi.HttpJson (Some [Samples.plainEntry])
                     else Samples.apiDown k)
           Samples.day Samples.emptyWorld (fun _ => Samples.apiDownError) 2
           [Samples.plainEntry]).
  - split; reflexivity.
  - vm_compute. lia.
  - intros k Hk.
    assert (Hk' : k = 1 \/ k = 2) by lia.
    destruct Hk' as [-> | ->]; reflexivity.
  - reflexivity.
Defined.

Lemma backoff_bound (retryDelay : Z) (m max : nat) :
  (0 <= retryDelay)%Z -> m < max \/ (m = 0 /\ max = 0) ->
  (retryDelay * Z.of_nat m * (Z.of_nat m + 1)
   <= retryDelay * Z.of_nat max * (Z.of_nat max - 1))%Z.
Proof.
  intros Hd [Hm | [-> ->]]; [|simpl; lia].
  rewrite <- !Z.mul_assoc. apply Z.mul_le_mono_nonneg_l; [exact Hd|].
  rewrite (Z.mul_comm (Z.of_nat m)). apply Z.mul_le_mono_nonneg; lia.
Qed.

(** X8. Whatever the tariffs API answers, one call of the fetch sends at
    most [maxRetries] requests and waits at most
    [delay * max * (max - 1) / 2] in all (3 s with the configured 3
    attempts and 1 s), and the clock never goes back. *)
Theorem fetch_is_bounded (svc : WBApi.Service)
    (dateParses : jsstring -> bool) (http : nat -> WBApi.HttpOutcome)
    (d : jsstring) (w : World) :
  (0 <= WBApi.retryDelay svc)%Z ->
  let w' := snd (WBApi.fetchBoxTariffs svc dateParses http d w) in
  let max := Z.of_nat (WBApi.maxRetries svc) in
  (exists evs, trace w' = trace w ++ evs
               /\ httpRequests evs <= WBApi.maxRetries svc)
  /\ (clock w <= clock w')%Z
  /\ (2 * (clock w' - clock w) <= WBApi.retryDelay svc * max * (max - 1))%Z.
Proof.
  intros Hdelay. cbv zeta.
  assert (Hdec : acceptedDate dateParses d \/ ~ acceptedDate dateParses d).
  { unfold acceptedDate.
    destruct (matchesDateFormat d), (dateParses d); intuition congruence. }
  destruct Hdec as [Hd | Hnot].
  2:{ destruct (validateDate_rejects dateParses d w Hnot) as (e & Hrun & _).
      unfold WBApi.fetchBoxTariffs.
      erewrite bind_throw by exact Hrun. cbn [snd].
      split; [exists []; rewrite app_nil_r; split; [reflexivity|unfold httpRequests; simpl; lia]|].
      split; [lia|].
      pose proof (backoff_bound (WBApi.retryDelay svc) 0
                    (WBApi.maxRetries svc) Hdelay) as Hb.
      assert (0 < WBApi.maxRetries svc
              \/ 0 = 0 /\ WBApi.maxRetries svc = 0) as Hc by lia.
      specialize (Hb Hc). simpl in Hb. lia. }
  set (errs := fun k => match httpFailure (http k) with
                        | Some e => e
                        | None => newAppError []
                        end).
  destruct (first_success
              (fun k => match httpFailure (http k) with
                        | None => true
                        | Some _ => false
                        end)
              (WBApi.maxRetries svc)) as [Hall | (m & Hm & Hbefore & Hok)].
  - assert (Hfail : forall k, 1 <= k <= WBApi.maxRetries svc ->
                      httpFailure (http k) = Some (errs k)).
    { intros k Hk. specialize (Hall k Hk). unfold errs.
      destruct (httpFailure (http k)); [reflexivity|discriminate]. }
    pose proof (fetch_exhausted svc dateParses http d w errs Hd Hfail) as Hrun.
    cbv zeta in Hrun. rewrite Hrun. cbn [snd].
    match goal with |- context [advance ?evs w] => set (evs0 := evs) end.
    assert (Hsleeps : sleepsOf evs0
                      = linearBackoff (WBApi.retryDelay svc)
                          (WBApi.maxRetries svc)).
    { unfold evs0. rewrite sleepsOf_framed by reflexivity.
      now apply sleeps_exhausted. }
    split.
    + exists evs0. split; [reflexivity|].
      unfold evs0. rewrite httpRequests_log, httpRequests_app,
        httpRequests_failedAttempts.
      unfold httpRequests. cbn [List.filter List.length]. lia.
    + rewrite clock_advance, Hsleeps.
      destruct (WBApi.maxRetries svc) as [|k].
      * unfold linearBackoff. cbn [Nat.sub seq List.map fold_right Z.of_nat].
        lia.
      * pose proof (linearBackoff_total (WBApi.retryDelay svc) k) as Ht.
        pose proof (backoff_bound (WBApi.retryDelay svc) k (S k) Hdelay
                      ltac:(lia)) as Hb.
        assert (0 <= WBApi.retryDelay svc * Z.of_nat k * (Z.of_nat k + 1))%Z
          by (apply Z.mul_nonneg_nonneg; [apply Z.mul_nonneg_nonneg|]; lia).
        lia.
  - assert (Hfail : forall k, 1 <= k <= m ->
                      httpFailure (http k) = Some (errs k)).
    { intros k Hk. specialize (Hbefore k Hk). unfold errs.
      destruct (httpFailure (http k)); [reflexivity|discriminate]. }
    assert (Hans : exists l, http (1 + m) = WBApi.HttpJson (Some l)).
    { destruct (http (1 + m)) as [[l|]| | |]; try discriminate. now exists l. }
    destruct Hans as [l Hans].
    pose proof (fetch_answered svc dateParses http d w errs m l Hd Hm Hfail Hans)
      as Hrun. cbv zeta in Hrun. rewrite Hrun. cbn [snd].
    match goal with |- context [advance ?evs w] => set (evs0 := evs) end.
    assert (Hsleeps : sleepsOf evs0
                      = linearBackoff (WBApi.retryDelay svc) (S m)).
    { unfold evs0.
      change (?a :: ?mid ++ ?z) with ([a] ++ mid ++ z).
      rewrite !sleepsOf_app.
      rewrite (sleeps_before_success LApi _ _ _ errs (fun _ => [HttpGet d]) m)
        by (auto || exact Hm).
      simpl. now rewrite app_nil_r. }
    split.
    + exists evs0. split; [reflexivity|].
      unfold evs0. rewrite httpRequests_log, httpRequests_app,
        httpRequests_failedAttempts.
      unfold httpRequests. cbn [List.filter List.length]. lia.
    + rewrite clock_advance, Hsleeps.
      pose proof (linearBackoff_total (WBApi.retryDelay svc) m) as Ht.
      pose proof (backoff_bound (WBApi.retryDelay svc) m
                    (WBApi.maxRetries svc) Hdelay ltac:(lia)) as Hb.
      assert (0 <= WBApi.retryDelay svc * Z.of_nat m * (Z.of_nat m + 1))%Z
        by (apply Z.mul_nonneg_nonneg; [apply Z.mul_nonneg_nonneg|]; lia).
      lia.
Qed.

Lemma fetch_is_bounded_witness :
  let w' := snd (WBApi.fetchBoxTariffs WBApi.defaultService (fun _ => true)
                   Samples.apiDown Samples.day Samples.emptyWorld) in
  let max := Z.of_nat (WBApi.maxRetries WBApi.defaultService) in
  (exists evs, trace w' = trace Samples.emptyWorld ++ evs
               /\ httpRequests evs <= WBApi.maxRetries WBApi.defaultService)
  /\ (clock Samples.emptyWorld <= clock w')%Z
  /\ (2 * (clock w' - clock Samples.emptyWorld)
      <= WBApi.retryDelay WBApi.defaultService * max * (max - 1))%Z.
Proof.
  apply (fetch_is_bounded WBApi.defaultService (fun _ => true)
           Samples.apiDown Samples.day Samples.emptyWorld).
  vm_compute. discriminate.
Defined.

(** ** Publishing *)

Lemma publish_answered (svc : Sheets.Service)
    (api : nat -> Sheets.SheetsOutcome) (spreadsheetId : jsstring)
    (tariffs : list TariffExportRow) (w : World) (errs : nat -> Err)
    (n : nat) :
  acceptedId spreadsheetId ->
  n < Sheets.maxRetries svc ->
  (forall k, 1 <= k <= n ->
             sheetsFailure spreadsheetId (api k) = Some (errs k)) ->
  sheetsFailure spreadsheetId (api (1 + n)) = None ->
  let max := Sheets.maxRetries svc in
  Sheets.updateSpreadsheet svc api spreadsheetId tariffs w
  = (Return tt,
     advance
       ((Log LSheets LvInfo
           (js "Updating spreadsheet " ++ spreadsheetId ++ js " with "
            ++ natToString (List.length tariffs) ++ js " tariffs") None
         :: failedAttempts LSheets (publishFailureText max spreadsheetId) max
              (Sheets.retryDelay svc) errs
              (fun k => sheetsRequests spreadsheetId tariffs (api k)) 1 n)
        ++ sheetsRequests spreadsheetId tariffs (api (1 + n))
        ++ [Log LSheets LvInfo
              (js "Successfully updated spreadsheet " ++ spreadsheetId) None])
       w).
Proof.
  intros Hid Hn Hfail Hok. cbv zeta.
  rewrite (publish_after_failures svc api spreadsheetId tariffs w errs n Hid
             (Nat.lt_le_incl _ _ Hn) Hfail).
  cbv zeta.
  destruct (Sheets.maxRetries svc - n) as [|rem] eqn:E; [lia|].
  cbn [retryLoop].
  unfold bind at 1. unfold bind at 1. unfold settle at 1.
  unfold bind at 1.
  rewrite (updateSpreadsheetInternal_done _ _ _ _ Hok).
  unfold bind at 1. rewrite log_run. unfold ret.
  rewrite record_record, record_advance.
  - now rewrite advance_advance.
  - rewrite sleepsOf_app, sheetsRequests_no_sleep. reflexivity.
Qed.

Lemma sheetsRequests_done (spreadsheetId : jsstring)
    (tariffs : list TariffExportRow) (answer : Sheets.SheetsOutcome) :
  sheetsFailure spreadsheetId answer = None ->
  sheetsRequests spreadsheetId tariffs answer
  = [SheetsClear spreadsheetId (Config.SHEETS_SHEET_NAME ++ js "!A:H");
     SheetsUpdate spreadsheetId (Config.SHEETS_SHEET_NAME ++ js "!A1")
       (Sheets.headers :: List.map Sheets.dataRow tariffs)].
Proof.
  unfold sheetsFailure, sheetsApiError, sheetsRequests.
  destruct (Sheets.clearFails answer); [discriminate|reflexivity].
Qed.

(** X9. The publish stops at the first write that goes through: after [n]
    failed attempts it clears columns A to H of the sheet, writes the
    header row and one row of 8 cells per record, in the order given, from
    cell A1, logs the success and returns; the delays slept before are
    [delay * 1, ..., delay * n]. *)
Theorem publish_stops_at_first_success (svc : Sheets.Service)
    (api : nat -> Sheets.SheetsOutcome) (spreadsheetId : jsstring)
    (tariffs : list TariffExportRow) (w : World) (errs : nat -> Err)
    (n : nat) :
  acceptedId spreadsheetId ->
  n < Sheets.maxRetries svc ->
  (forall k, 1 <= k <= n ->
             sheetsFailure spreadsheetId (api k) = Some (errs k)) ->
  sheetsFailure spreadsheetId (api (1 + n)) = None ->
  let values := Sheets.headers :: List.map Sheets.dataRow tariffs in
  exists pre w',
    Sheets.updateSpreadsheet svc api spreadsheetId tariffs w = (Return tt, w')
    /\ trace w'
       = trace w ++ pre
         ++ [SheetsClear spreadsheetId (Config.SHEETS_SHEET_NAME ++ js "!A:H");
             SheetsUpdate spreadsheetId (Config.SHEETS_SHEET_NAME ++ js "!A1")
               values;
             Log LSheets LvInfo
               (js "Successfully updated spreadsheet " ++ spreadsheetId) None]
    /\ sheetAttempts pre = n
    /\ sleepsOf pre = linearBackoff (Sheets.retryDelay svc) (S n)
    /\ List.length values = 1 + List.length tariffs
    /\ Forall (fun row => List.length row = 8) values.
Proof.
  intros Hid Hn Hfail Hok. cbv zeta.
  pose proof (publish_answered svc api spreadsheetId tariffs w errs n Hid Hn
                Hfail Hok) as Hrun.
  cbv zeta in Hrun. rewrite (sheetsRequests_done _ _ _ Hok) in Hrun.
  eexists. eexists. split; [exact Hrun|].
  split; [cbn [trace advance]; reflexivity|].
  split.
  { change (?a :: ?l) with ([a] ++ l) at 1.
    unfold sheetAttempts. rewrite filter_app. cbn [List.filter app].
    apply sheetAttempts_failedAttempts. }
  split.
  { change (?a :: ?l) with ([a] ++ l) at 1.
    rewrite sleepsOf_app.
    rewrite (sleeps_before_success LSheets _ _ _ errs
               (fun k => sheetsRequests spreadsheetId tariffs (api k)) n)
      by (intros; apply sheetsRequests_no_sleep || exact Hn).
    reflexivity. }
  split; [cbn [List.length]; now rewrite length_map|].
  constructor; [reflexivity|].
  apply Forall_forall. intros row Hrow.
  apply in_map_iff in Hrow as (t & <- & _). reflexivity.
Qed.

Lemma publish_stops_at_first_success_witness :
  let values := Sheets.headers
                :: List.map Sheets.dataRow
                     [Repository.exportRow Samples.rowB] in
  exists pre w',
    Sheets.updateSpreadsheet Sheets.defaultService
      (fun k => if k =? 2 then Sheets.sheetsOk else Samples.sheetsDenied k)
      Samples.sheetId [Repository.exportRow Samples.rowB] Samples.emptyWorld
    = (Return tt, w')
    /\ trace w'
       = trace Samples.emptyWorld ++ pre
         ++ [SheetsClear Samples.sheetId (Config.SHEETS_SHEET_NAME ++ js "!A:H");
             SheetsUpdate Samples.sheetId (Config.SHEETS_SHEET_NAME ++ js "!A1")
               values;
             Log LSheets LvInfo
               (js "Successfully updated spreadsheet " ++ Samples.sheetId) None]
    /\ sheetAttempts pre = 1
    /\ sleepsOf pre = linearBackoff (Sheets.retryDelay Sheets.defaultService) 2
    /\ List.length values = 1 + List.length [Repository.exportRow Samples.rowB]
    /\ Forall (fun row => List.length row = 8) values.
Proof.
  apply (publish_stops_at_first_success Sheets.defaultService
           (fun k => if k =? 2 then Sheets.sheetsOk else Samples.sheetsDenied k)
           Samples.sheetId [Repository.exportRow Samples.rowB]
           Samples.emptyWorld (fun _ => Samples.sheetsDeniedError) 1).
  - split; [vm_compute; discriminate | vm_compute; lia].
  - vm_compute. lia.
  - intros k Hk. assert (k = 1) as -> by lia. reflexivity.
  - reflexivity.
Defined.

(** X10. Whatever the Sheets API answers, one publish to a spreadsheet makes
    at most [maxRetries] write attempts and waits at most
    [delay * max * (max - 1) / 2] in all (6 s with the configured 3
    attempts and 2 s). *)
Theorem publish_is_bounded (svc : Sheets.Service)
    (api : nat -> Sheets.SheetsOutcome) (spreadsheetId : jsstring)
    (tariffs : list TariffExportRow) (w : World) :
  (0 <= Sheets.retryDelay svc)%Z ->
  let w' := snd (Sheets.updateSpreadsheet svc api spreadsheetId tariffs w) in
  let max := Z.of_nat (Sheets.maxRetries svc) in
  (exists evs, trace w' = trace w ++ evs
               /\ sheetAttempts evs <= Sheets.maxRetries svc)
  /\ (clock w <= clock w')%Z
  /\ (2 * (clock w' - clock w) <= Sheets.retryDelay svc * max * (max - 1))%Z.
Proof.
  intros Hdelay. cbv zeta.
  destruct (acceptedId_dec spreadsheetId) as [Hid | Hnot].
  2:{ destruct (validateSpreadsheetId_refuses spreadsheetId w Hnot)
        as (e & Hrun & _).
      unfold Sheets.updateSpreadsheet.
      erewrite bind_throw by exact Hrun. cbn [snd].
      split; [exists []; rewrite app_nil_r; split;
              [reflexivity|unfold sheetAttempts; simpl; lia]|].
      split; [lia|].
      pose proof (backoff_bound (Sheets.retryDelay svc) 0
                    (Sheets.maxRetries svc) Hdelay) as Hb.
      assert (0 < Sheets.maxRetries svc
              \/ 0 = 0 /\ Sheets.maxRetries svc = 0) as Hc by lia.
      specialize (Hb Hc). simpl in Hb. lia. }
  set (errs := fun k => match sheetsFailure spreadsheetId (api k) with
                        | Some e => e
                        | None => newAppError []
                        end).
  destruct (first_success
              (fun k => match sheetsFailure spreadsheetId (api k) with
                        | None => true
                        | Some _ => false
                        end)
              (Sheets.maxRetries svc)) as [Hall | (m & Hm & Hbefore & Hok)].
  - assert (Hfail : forall k, 1 <= k <= Sheets.maxRetries svc ->
                      sheetsFailure spreadsheetId (api k) = Some (errs k)).
    { intros k Hk. specialize (Hall k Hk). unfold errs.
      destruct (sheetsFailure spreadsheetId (api k));
        [reflexivity|discriminate]. }
    pose proof (publish_exhausted svc api spreadsheetId tariffs w errs Hid
                  Hfail) as Hrun.
    cbv zeta in Hrun. rewrite Hrun. cbn [snd].
    match goal with |- context [advance ?evs w] => set (evs0 := evs) end.
    assert (Hsleeps : sleepsOf evs0
                      = linearBackoff (Sheets.retryDelay svc)
                          (Sheets.maxRetries svc)).
    { unfold evs0. rewrite sleepsOf_framed by reflexivity.
      apply sleeps_exhausted. intros k. apply sheetsRequests_no_sleep. }
    split.
    + exists evs0. split; [reflexivity|].
      unfold evs0. change (?a :: ?l ++ ?z) with ([a] ++ l ++ z).
      unfold sheetAttempts. rewrite !filter_app, !length_app.
      fold (sheetAttempts
              (failedAttempts LSheets
                 (publishFailureText (Sheets.maxRetries svc) spreadsheetId)
                 (Sheets.maxRetries svc) (Sheets.retryDelay svc) errs
                 (fun k => sheetsRequests spreadsheetId tariffs (api k)) 1
                 (Sheets.maxRetries svc))).
      rewrite sheetAttempts_failedAttempts. cbn [List.filter List.length]. lia.
    + rewrite clock_advance, Hsleeps.
      destruct (Sheets.maxRetries svc) as [|k].
      * unfold linearBackoff. cbn [Nat.sub seq List.map fold_right Z.of_nat].
        lia.
      * pose proof (linearBackoff_total (Sheets.retryDelay svc) k) as Ht.
        pose proof (backoff_bound (Sheets.retryDelay svc) k (S k) Hdelay
                      ltac:(lia)) as Hb.
        assert (0 <= Sheets.retryDelay svc * Z.of_nat k * (Z.of_nat k + 1))%Z
          by (apply Z.mul_nonneg_nonneg; [apply Z.mul_nonneg_nonneg|]; lia).
        lia.
  - assert (Hfail : forall k, 1 <= k <= m ->
                      sheetsFailure spreadsheetId (api k) = Some (errs k)).
    { intros k Hk. specialize (Hbefore k Hk). unfold errs.
      destruct (sheetsFailure spreadsheetId (api k));
        [reflexivity|discriminate]. }
    assert (Hdone : sheetsFailure spreadsheetId (api (1 + m)) = None).
    { destruct (sheetsFailure spreadsheetId (api (1 + m)));
        [discriminate|reflexivity]. }
    pose proof (publish_answered svc api spreadsheetId tariffs w errs m Hid Hm
                  Hfail Hdone) as Hrun.
    cbv zeta in Hrun. rewrite Hrun. cbn [snd].
    match goal with |- context [advance ?evs w] => set (evs0 := evs) end.
    assert (Hsleeps : sleepsOf evs0
                      = linearBackoff (Sheets.retryDelay svc) (S m)).
    { unfold evs0. change (?a :: ?l) with ([a] ++ l) at 1.
      rewrite !sleepsOf_app.
      rewrite (sleeps_before_success LSheets _ _ _ errs
                 (fun k => sheetsRequests spreadsheetId tariffs (api k)) m)
        by (intros; apply sheetsRequests_no_sleep || exact Hm).
      rewrite sheetsRequests_no_sleep. simpl. now rewrite app_nil_r. }
    split.
    + exists evs0. split; [reflexivity|].
      unfold evs0. rewrite (sheetsRequests_done _ _ _ Hdone).
      change (?a :: ?l) with ([a] ++ l) at 1.
      unfold sheetAttempts. rewrite !filter_app, !length_app.
      fold (sheetAttempts
              (failedAttempts LSheets
                 (publishFailureText (Sheets.maxRetries svc) spreadsheetId)
                 (Sheets.maxRetries svc) (Sheets.retryDelay svc) errs
                 (fun k => sheetsRequests spreadsheetId tariffs (api k)) 1 m)).
      rewrite sheetAttempts_failedAttempts. cbn [List.filter List.length]. lia.
    + rewrite clock_advance, Hsleeps.
      pose proof (linearBackoff_total (Sheets.retryDelay svc) m) as Ht.
      pose proof (backoff_bound (Sheets.retryDelay svc) m
                    (Sheets.maxRetries svc) Hdelay ltac:(lia)) as Hb.
      assert (0 <= Sheets.retryDelay svc * Z.of_nat m * (Z.of_nat m + 1))%Z
        by (apply Z.mul_nonneg_nonneg; [apply Z.mul_nonneg_nonneg|]; lia).
      lia.
Qed.

Lemma publish_is_bounded_witness :
  let w' := snd (Sheets.updateSpreadsheet Sheets.defaultService
                   Samples.sheetsDenied Samples.sheetId []
                   Samples.emptyWorld) in
  let max := Z.of_nat (Sheets.maxRetries Sheets.defaultService) in
  (exists evs, trace w' = trace Samples.emptyWorld ++ evs
               /\ sheetAttempts evs <= Sheets.maxRetries Sheets.defaultService)
  /\ (clock Samples.emptyWorld <= clock w')%Z
  /\ (2 * (clock w' - clock Samples.emptyWorld)
      <= Sheets.retryDelay Sheets.defaultService * max * (max - 1))%Z.
Proof.
  apply (publish_is_bounded Sheets.defaultService Samples.sheetsDenied
           Samples.sheetId [] Samples.emptyWorld).
  vm_compute. discriminate.
Defined.

End RetryEdges.

(* ===================================================================== *)
(** * repositories/tariffRepository.ts: invariants, frames and reading back *)
(* ===================================================================== *)

Module StoreInvariants.

Import JSFacts EffFacts NumberFacts Store ReadBack Frames.

(** ** What an upsert keeps *)

Lemma upsertRow_length (now : Z) (t : BoxTariff) (tb : list Row) :
  List.length tb <= List.length (Repository.upsertRow now t tb)
  <= S (List.length tb).
Proof.
  induction tb as [|r tb IH]; cbn [Repository.upsertRow List.length]; [lia|].
  destruct (Repository.sameKey (row_tariff r) t); cbn [List.length]; lia.
Qed.

Lemma insertChunk_length (now : Z) (l : list BoxTariff) :
  forall tb,
    List.length tb <= List.length (Repository.insertChunk now l tb)
    <= List.length tb + List.length l.
Proof.
  induction l as [|t l IH]; intros tb.
  - cbn. lia.
  - rewrite insertChunk_cons. specialize (IH (Repository.upsertRow now t tb)).
    pose proof (upsertRow_length now t tb). cbn [List.length]. lia.
Qed.

(** A row that was there is still there, under the same key and with its
    time of creation. *)
Lemma upsertRow_keeps (now : Z) (t : BoxTariff) (tb : list Row) (r : Row) :
  In r tb ->
  exists r', In r' (Repository.upsertRow now t tb)
             /\ rowKey r' = rowKey r /\ created_at r' = created_at r.
Proof.
  induction tb as [|x tb IH]; intros Hin; [contradiction|].
  cbn [Repository.upsertRow].
  destruct (Repository.sameKey (row_tariff x) t) eqn:Hk.
  - destruct Hin as [-> | Hin].
    + exists (Repository.mergeRow now r t). split; [now left|].
      split; [apply mergeRow_key | reflexivity].
    + exists r. split; [now right|]. split; reflexivity.
  - destruct Hin as [-> | Hin].
    + exists r. split; [now left|]. split; reflexivity.
    + destruct (IH Hin) as (r' & Hin' & Hkey & Hc).
      exists r'. split; [now right|]. split; assumption.
Qed.

Lemma insertChunk_keeps (now : Z) (l : list BoxTariff) :
  forall (tb : list Row) (r : Row),
    In r tb ->
    exists r', In r' (Repository.insertChunk now l tb)
               /\ rowKey r' = rowKey r /\ created_at r' = created_at r.
Proof.
  induction l as [|t l IH]; intros tb r Hin.
  - exists r. repeat split. exact Hin.
  - rewrite insertChunk_cons.
    destruct (upsertRow_keeps now t tb r Hin) as (r1 & Hin1 & Hk1 & Hc1).
    destruct (IH _ r1 Hin1) as (r2 & Hin2 & Hk2 & Hc2).
    exists r2. split; [exact Hin2|]. split; congruence.
Qed.

Lemma insertChunk_has_key (now : Z) (l : list BoxTariff) (t : BoxTariff) :
  forall tb,
    In t l ->
    exists r, In r (Repository.insertChunk now l tb) /\ rowKey r = keyOf t.
Proof.
  induction l as [|x l IH]; intros tb Hin; [contradiction|].
  rewrite insertChunk_cons. destruct Hin as [-> | Hin].
  - destruct (upsertRow_has now t tb) as [c Hc].
    destruct (insertChunk_keeps now l _ _ Hc) as (r & Hr & Hk & _).
    exists r. split; [exact Hr|]. rewrite Hk. reflexivity.
  - now apply IH.
Qed.

(** X11. An upsert keeps the unique constraint of the table whatever
    PostgreSQL answers, never drops a row, and adds at most one row per
    tariff given. *)
Theorem upsert_keeps_unique_keys (faults : Repository.DbFaults)
    (tariffs : list BoxTariff) (w : World) :
  uniqueKeys (tariffsTable w) ->
  let table' := tariffsTable (snd (Repository.upsertTariffs faults tariffs w)) in
  uniqueKeys table'
  /\ List.length (tariffsTable w) <= List.length table'
     <= List.length (tariffsTable w) + List.length tariffs.
Proof.
  intros Huniq. cbv zeta.
  destruct (upsert_outcome faults tariffs w) as ([[_ Ht] | [_ Ht]] & _);
    rewrite Ht.
  - split; [now apply insertChunk_unique | apply insertChunk_length].
  - split; [exact Huniq | lia].
Qed.

Lemma upsert_keeps_unique_keys_witness :
  let table' :=
    tariffsTable (snd (Repository.upsertTariffs Samples.secondStatementFails
                         Samples.manyTariffs Samples.worldAB)) in
  uniqueKeys table'
  /\ List.length (tariffsTable Samples.worldAB) <= List.length table'
     <= List.length (tariffsTable Samples.worldAB)
        + List.length Samples.manyTariffs.
Proof.
  apply (upsert_keeps_unique_keys Samples.secondStatementFails
           Samples.manyTariffs Samples.worldAB).
  unfold uniqueKeys. cbn.
  repeat constructor; cbn; intuition discriminate.
Defined.

(** X12. An upsert touches only the keys it is given.  The table shows
    what PostgreSQL holds and the batch is of records it stores as they
    are (the date an ISO text, so that two date texts differ exactly when
    the days differ), no two of them of the same key (PostgreSQL refuses a
    statement that proposes a key twice).  Then the table still shows what
    is held; the rows of every day and warehouse that no record of the
    batch has are exactly as before; and a row that was there before is
    still there under its key with its time of creation, whether the
    transaction commits or rolls back. *)
Theorem upsert_leaves_other_keys (faults : Repository.DbFaults)
    (tariffs : list BoxTariff) (w : World) :
  asStored (tariffsTable w) ->
  Forall storable tariffs ->
  NoDup (List.map keyOf tariffs) ->
  let table' := tariffsTable (snd (Repository.upsertTariffs faults tariffs w)) in
  asStored table'
  /\ (forall t, (forall u, In u tariffs -> sameDayKey u t = false) ->
             rowsOfDayKey t table' = rowsOfDayKey t (tariffsTable w))
  /\ (forall r, In r (tariffsTable w) ->
        exists r', In r' table' /\ rowKey r' = rowKey r
                   /\ created_at r' = created_at r).
Proof.
  intros Hst Hbatch _. cbv zeta.
  destruct (upsert_outcome faults tariffs w) as ([[_ Ht] | [_ Ht]] & _);
    rewrite Ht.
  - assert (Hst' : asStored (Repository.insertChunk (clock w) tariffs
                               (tariffsTable w)))
      by now apply DayFacts.insertChunk_asStored.
    split; [exact Hst'|]. split.
    + intros t Hnone. destruct (isoDate (date t)) eqn:Hiso.
      * rewrite !DayFacts.rowsOfDayKey_text by assumption.
        apply insertChunk_other. intros Hin.
        apply in_map_iff in Hin as (u & Hk & Hu).
        specialize (Hnone u Hu).
        rewrite Forall_forall in Hbatch.
        rewrite DayFacts.sameDayKey_sameKey in Hnone;
          [|apply DayFacts.storable_date, Hbatch, Hu | exact Hiso].
        apply sameKey_false_iff in Hnone. congruence.
      * now rewrite !DayFacts.rowsOfDayKey_none.
    + intros r Hin. now apply insertChunk_keeps.
  - split; [exact Hst|]. split; [reflexivity|].
    intros r Hin. exists r. repeat split. exact Hin.
Qed.

Lemma upsert_leaves_other_keys_witness :
  let batch := [Samples.tariffOf (js "C") (Some (js "North")) (Some 2%Z)] in
  let table' :=
    tariffsTable (snd (Repository.upsertTariffs Repository.noFaults batch
                         Samples.worldAB)) in
  asStored table'
  /\ (forall t, (forall u, In u batch -> sameDayKey u t = false) ->
             rowsOfDayKey t table' = rowsOfDayKey t (tariffsTable Samples.worldAB))
  /\ (forall r, In r (tariffsTable Samples.worldAB) ->
        exists r', In r' table' /\ rowKey r' = rowKey r
                   /\ created_at r' = created_at r).
Proof.
  apply (upsert_leaves_other_keys Repository.noFaults
           [Samples.tariffOf (js "C") (Some (js "North")) (Some 2%Z)]
           Samples.worldAB).
  - repeat constructor.
  - repeat constructor.
  - cbn. repeat constructor; cbn; intuition.
Defined.

(** ** Reading back *)

Lemma selectByDate_has (collate : jsstring -> jsstring -> bool)
    (d : jsstring) (tb : list Row) (r : Row) :
  In r tb -> date (row_tariff r) = d ->
  In (Repository.exportRow r) (Repository.selectByDate collate d tb).
Proof.
  intros Hin Hd. unfold Repository.selectByDate.
  apply (Permutation_in _ (Permutation_sym (orderBy_perm collate _))).
  apply in_map, filter_In. split; [exact Hin|].
  rewrite Hd. apply str_eqb_refl.
Qed.

Lemma selectByDate_length (collate : jsstring -> jsstring -> bool)
    (d : jsstring) (tb : list Row) :
  List.length (Repository.selectByDate collate d tb)
  = List.length
      (List.filter (fun r => str_eqb (date (row_tariff r)) d) tb).
Proof.
  unfold Repository.selectByDate.
  rewrite (Permutation_length (orderBy_perm collate _)). apply length_map.
Qed.

(** X13. What an upsert saved is what the next read returns.  The table
    shows what PostgreSQL holds and respects the unique constraint, and the
    batch is of records it stores as they are, with distinct keys.  After
    an upsert that went through, the read of a tariff's date returns the
    eight export columns of that very tariff, so it is never empty. *)
Theorem saved_tariffs_are_read_back (faults : Repository.DbFaults)
    (tariffs : list BoxTariff) (w : World)
    (collate : jsstring -> jsstring -> bool) (t : BoxTariff) :
  asStored (tariffsTable w) ->
  Forall storable tariffs ->
  uniqueKeys (tariffsTable w) ->
  NoDup (List.map keyOf tariffs) ->
  In t tariffs ->
  fst (Repository.upsertTariffs faults tariffs w) = Return tt ->
  exists rows w',
    Repository.getTariffsByDate None collate (date t)
      (snd (Repository.upsertTariffs faults tariffs w)) = (Return rows, w')
    /\ asStored (tariffsTable w')
    /\ In (exportColumns t) rows
    /\ List.length rows <> 0.
Proof.
  intros Hst Hbatch Huniq Hnodup Hin Hok.
  destruct (upsert_outcome faults tariffs w) as ([[_ Ht] | [[e He] _]] & _);
    [|congruence].
  destruct (getTariffsByDate_run collate (date t)
              (snd (Repository.upsertTariffs faults tariffs w)))
    as [evs Hrun].
  rewrite Hrun, Ht. eexists. eexists. split; [reflexivity|].
  split.
  { change (tariffsTable (record evs ?x)) with (tariffsTable x).
    rewrite Ht. now apply DayFacts.insertChunk_asStored. }
  destruct (insertChunk_last_wins (clock w) t tariffs (tariffsTable w)
              Hnodup Hin Huniq) as [c Hrow].
  assert (Hthere : In (mkRow t c (clock w))
                      (Repository.insertChunk (clock w) tariffs (tariffsTable w))).
  { assert (H : In (mkRow t c (clock w))
                   (rowsWithKey t (Repository.insertChunk (clock w) tariffs
                                     (tariffsTable w))))
      by (rewrite Hrow; now left).
    unfold rowsWithKey in H. now apply filter_In in H. }
  pose proof (selectByDate_has collate (date t) _ _ Hthere eq_refl) as Hsel.
  change (Repository.exportRow (mkRow t c (clock w)))
    with (exportColumns t) in Hsel.
  split; [exact Hsel|].
  intros Hlen. apply length_zero_iff_nil in Hlen. rewrite Hlen in Hsel.
  contradiction.
Qed.

Lemma saved_tariffs_are_read_back_witness :
  let t := Samples.tariffOf (js "C") (Some (js "North")) (Some 2%Z) in
  exists rows w',
    Repository.getTariffsByDate None Repository.codeUnitLe (date t)
      (snd (Repository.upsertTariffs Repository.noFaults [t] Samples.worldAB))
    = (Return rows, w')
    /\ asStored (tariffsTable w')
    /\ In (exportColumns t) rows
    /\ List.length rows <> 0.
Proof.
  apply (saved_tariffs_are_read_back Repository.noFaults
           [Samples.tariffOf (js "C") (Some (js "North")) (Some 2%Z)]
           Samples.worldAB Repository.codeUnitLe).
  - repeat constructor.
  - repeat constructor.
  - unfold uniqueKeys. cbn. repeat constructor; cbn; intuition discriminate.
  - cbn. repeat constructor; cbn; intuition.
  - now left.
  - reflexivity.
Defined.

(** X14. The count of a date is the number of rows the read of that date
    returns; neither query changes anything. *)
Theorem count_agrees_with_read_back (collate : jsstring -> jsstring -> bool)
    (d : jsstring) (w : World) :
  exists rows evs1 evs2,
    Repository.getTariffsByDate None collate d w
    = (Return rows, record evs1 w)
    /\ Repository.getTariffCountByDate None d w
       = (Return (Z.of_nat (List.length rows)), record evs2 w).
Proof.
  destruct (getTariffsByDate_run collate d w) as [evs1 Hrun].
  exists (Repository.selectByDate collate d (tariffsTable w)), evs1.
  eexists. split; [exact Hrun|].
  unfold Repository.getTariffCountByDate.
  apply tryCatch_return.
  unfold bind at 1. unfold getWorld at 1.
  rewrite parseInt10_natToString, selectByDate_length.
  unfold bind at 1. rewrite log_run. unfold ret. reflexivity.
Qed.

(** X15. The two reads change neither table nor the collector, and a query
    that fails is reported as a DatabaseError (status 500) whose message
    names the date and carries the message of the driver's error. *)
Theorem reads_change_no_state (queryFails : option Err)
    (collate : jsstring -> jsstring -> bool) (d : jsstring) :
  observesOnly (Repository.getTariffsByDate queryFails collate d)
  /\ observesOnly (Repository.getTariffCountByDate queryFails d)
  /\ (forall e w,
        fst (Repository.getTariffsByDate (Some e) collate d w)
        = Throw (newDatabaseError
                   (js "Failed to fetch tariffs for date " ++ d ++ js ": "
                    ++ message e))
        /\ fst (Repository.getTariffCountByDate (Some e) d w)
           = Throw (newDatabaseError
                      (js "Failed to count tariffs for date " ++ d ++ js ": "
                       ++ message e))).
Proof.
  split; [apply oo_getTariffsByDate|]. split.
  - unfold Repository.getTariffCountByDate. frame.
  - intros e w. split; reflexivity.
Qed.

End StoreInvariants.

(* ===================================================================== *)
(** * utils/metrics.ts: the history and the figures computed from it *)
(* ===================================================================== *)

Module MetricsInvariants.

Import JSFacts MetricsFacts.

Lemma calls_snoc (ops : list MetricsCall) (op : MetricsCall) :
  calls (ops ++ [op]) = call (calls ops) op.
Proof. unfold calls. now rewrite fold_left_app. Qed.

Lemma completeSync_shape (now : Z) (h : nat) (ok : bool) (err : option Err)
    (c : MetricsCollector) :
  metrics (Metrics.completeSync now h ok err c) = metrics c
  /\ List.length (objects (Metrics.completeSync now h ok err c))
     = List.length (objects c).
Proof. split; [reflexivity|]. apply updateObject_length. Qed.

Lemma window_push (n : nat) :
  olderKept (seq (n - Nat.min n maxHistory) (Nat.min n maxHistory)) ++ [n]
  = seq (S n - Nat.min (S n) maxHistory) (Nat.min (S n) maxHistory).
Proof.
  unfold olderKept. rewrite length_seq.
  assert (Hpos : 0 < maxHistory) by (unfold maxHistory; lia).
  destruct (Nat.leb_spec maxHistory (Nat.min n maxHistory)) as [Hfull | Hroom].
  - assert (Hn : maxHistory <= n) by lia.
    replace (Nat.min n maxHistory) with maxHistory by lia.
    replace (Nat.min (S n) maxHistory) with maxHistory by lia.
    destruct maxHistory as [|k]; [lia|].
    rewrite (seq_S k (S n - S k)).
    change (tl (seq (n - S k) (S k))) with (seq (S (n - S k)) k).
    replace (S (n - S k)) with (S n - S k) by lia.
    f_equal. f_equal. lia.
  - replace (Nat.min n maxHistory) with n by lia.
    replace (Nat.min (S n) maxHistory) with (S n) by lia.
    rewrite !Nat.sub_diag. now rewrite seq_S.
Qed.

(** X16. After any sequence of [startSync] and [completeSync] calls on a new
    collector, the history holds the references of the most recent runs,
    at most [maxHistory] = 100 of them, in the order they were started,
    and each reference points to an object. *)
Theorem history_is_a_window (ops : list MetricsCall) :
  let c := calls ops in
  let n := List.length (objects c) in
  metrics c = seq (n - Nat.min n maxHistory) (Nat.min n maxHistory)
  /\ List.length (metrics c) <= maxHistory
  /\ wellFormed c.
Proof.
  cbv zeta.
  assert (Hseq : metrics (calls ops)
                 = seq (List.length (objects (calls ops))
                        - Nat.min (List.length (objects (calls ops))) maxHistory)
                       (Nat.min (List.length (objects (calls ops))) maxHistory)).
  { induction ops as [|op ops IH] using rev_ind; [reflexivity|].
    rewrite calls_snoc. destruct op as [now | now h ok err]; cbn [call].
    - rewrite startSync_metrics, startSync_objects, length_app, IH.
      cbn [List.length]. rewrite Nat.add_1_r. apply window_push.
    - destruct (completeSync_shape now h ok err (calls ops)) as [-> ->].
      exact IH. }
  split; [exact Hseq|]. split.
  - rewrite Hseq, length_seq. lia.
  - unfold wellFormed. rewrite Hseq. apply Forall_forall.
    intros h Hh. apply in_seq in Hh. lia.
Qed.

(** ** The figures *)

Lemma history_length (c : MetricsCollector) :
  List.length (Metrics.history c) = List.length (metrics c).
Proof. apply length_map. Qed.

Lemma filter_length_le {A : Type} (f : A -> bool) (l : list A) :
  List.length (List.filter f l) <= List.length l.
Proof.
  induction l as [|x l IH]; simpl; [lia|]. destruct (f x); simpl; lia.
Qed.

(** X17. The success rate is a percentage: between 0 and 100 for every
    collector, and 0 when there is no history. *)
Theorem success_rate_is_a_percentage (c : MetricsCollector) :
  (0 <= Metrics.getSuccessRate c)%Q
  /\ (Metrics.getSuccessRate c <= 100)%Q
  /\ (metrics c = [] -> Metrics.getSuccessRate c = 0%Q).
Proof.
  unfold Metrics.getSuccessRate.
  destruct (metrics c) as [|h l] eqn:Hm.
  { cbn. repeat split; discriminate. }
  change (List.length (h :: l) =? 0) with false. cbv iota.
  pose proof (filter_length_le success (Metrics.history c)) as Hle.
  rewrite history_length, Hm in Hle.
  set (s := List.length (List.filter success (Metrics.history c))) in *.
  set (n := List.length (h :: l)) in *.
  assert (Hn : n <> 0) by (unfold n; discriminate).
  assert (Hpos : Z.pos (Pos.of_nat n) = Z.of_nat n).
  { rewrite <- (Nat2Pos.id n Hn) at 2. now rewrite positive_nat_Z. }
  split; [|split; [|discriminate]].
  - unfold Qle. cbn [Qnum Qden Qmult]. lia.
  - unfold Qle. cbn [Qnum Qden Qmult].
    rewrite Pos.mul_1_r, Hpos. lia.
Qed.

(** X18. [getRecentMetrics(k)] returns the last [k] entries of the history,
    all of them when there are fewer, in their order, for a positive [k];
    for [k = 0] it returns the whole history, since [slice(-0)] is
    [slice(0)]. *)
Theorem recent_metrics_window (k : nat) (c : MetricsCollector) :
  Metrics.getRecentMetrics (Z.of_nat k) c
  = (if k =? 0 then Metrics.history c
     else skipn (List.length (Metrics.history c) - k) (Metrics.history c))
  /\ List.length (Metrics.getRecentMetrics (Z.of_nat k) c)
     = (if k =? 0 then List.length (Metrics.history c)
        else Nat.min k (List.length (Metrics.history c))).
Proof.
  assert (Heq : Metrics.getRecentMetrics (Z.of_nat k) c
                = if k =? 0 then Metrics.history c
                  else skipn (List.length (Metrics.history c) - k)
                             (Metrics.history c)).
  { unfold Metrics.getRecentMetrics, sliceFrom.
    destruct k as [|k].
    - change (- Z.of_nat 0 <? 0)%Z with false. cbv iota.
      change (- Z.of_nat 0)%Z with 0%Z. rewrite Z.min_l by lia. reflexivity.
    - change (S k =? 0) with false. cbv iota.
      destruct (Z.ltb_spec (- Z.of_nat (S k)) 0) as [_|H]; [|lia].
      f_equal. lia. }
  split; [exact Heq|]. rewrite Heq.
  destruct (k =? 0) eqn:E; [reflexivity|].
  apply Nat.eqb_neq in E. rewrite length_skipn. lia.
Qed.

Lemma completed_fresh (now : Z) (l : list SyncMetrics) :
  List.filter
    (fun m => match duration m with Some _ => true | None => false end)
    (l ++ [freshMetric now])
  = List.filter
      (fun m => match duration m with Some _ => true | None => false end) l.
Proof. rewrite filter_app. cbn. apply app_nil_r. Qed.

(** X19. A run that has started and not completed does not enter the
    average duration: while the history has room, [startSync] leaves
    [getAverageDuration] as it was. *)
Theorem average_ignores_run_in_flight (now : Z) (c : MetricsCollector) :
  wellFormed c ->
  List.length (metrics c) < maxHistory ->
  Metrics.getAverageDuration (snd (Metrics.startSync now c))
  = Metrics.getAverageDuration c.
Proof.
  intros Hwf Hroom. unfold Metrics.getAverageDuration.
  rewrite (startSync_history now c Hwf).
  unfold olderKept. rewrite history_length.
  destruct (Nat.leb_spec maxHistory (List.length (metrics c))); [lia|].
  now rewrite completed_fresh.
Qed.

Lemma average_ignores_run_in_flight_witness :
  Metrics.getAverageDuration (snd (Metrics.startSync 7 Samples.oneSuccess))
  = Metrics.getAverageDuration Samples.oneSuccess.
Proof.
  apply (average_ignores_run_in_flight 7 Samples.oneSuccess).
  - repeat constructor.
  - vm_compute. lia.
Defined.

End MetricsInvariants.

(* ===================================================================== *)
(** * services/tariffSync.ts: what every run leaves behind *)
(* ===================================================================== *)

Module SyncRun.

Import JSFacts EffFacts Store MetricsFacts SyncFacts Frames WBApiFacts
       StoreInvariants.

(** ** The collector during a run *)

Lemma sameRun_refl (h : nat) (c : MetricsCollector) : sameRun h c c.
Proof. repeat split. Qed.

Lemma sameRun_trans (h : nat) (c1 c2 c3 : MetricsCollector) :
  sameRun h c1 c2 -> sameRun h c2 c3 -> sameRun h c1 c3.
Proof.
  intros (L1 & M1 & O1 & S1 & E1) (L2 & M2 & O2 & S2 & E2).
  repeat split; try congruence.
  intros h' Hh'. rewrite (O2 h' Hh'). now apply O1.
Qed.

Lemma nth_updateObject_field {B : Type} (g : SyncMetrics -> B)
    (f : SyncMetrics -> SyncMetrics) (d : SyncMetrics) :
  (forall m, g (f m) = g m) ->
  forall (l : list SyncMetrics) (h : nat),
    g (nth h (Metrics.updateObject h f l) d) = g (nth h l d).
Proof.
  intros Hg. induction l as [|m l IH]; intros [|h]; cbn; auto.
Qed.

Lemma sameRun_mutate (h : nat) (f : SyncMetrics -> SyncMetrics)
    (c : MetricsCollector) :
  (forall m, startTime (f m) = startTime m) ->
  (forall m, error (f m) = error m) ->
  sameRun h c (Metrics.mutate h f c).
Proof.
  intros Hs He. unfold sameRun, Metrics.mutate, Metrics.deref.
  cbn [objects metrics].
  split; [apply updateObject_length|]. split; [reflexivity|].
  split; [intros h' Hh'; now apply nth_updateObject_other|].
  split; now apply nth_updateObject_field.
Qed.

Lemma kr_same {A : Type} (h : nat) (m : M A) :
  (forall w, collector (snd (m w)) = collector w) -> keepsRun h m.
Proof. intros H w. rewrite H. apply sameRun_refl. Qed.

Lemma kr_observes {A : Type} (h : nat) (m : M A) :
  observesOnly m -> keepsRun h m.
Proof. intros H. apply kr_same. intros w. apply (H w). Qed.

Lemma kr_bind {A B : Type} (h : nat) (m : M A) (k : A -> M B) :
  keepsRun h m -> (forall a, keepsRun h (k a)) -> keepsRun h (bind m k).
Proof.
  intros Hm Hk w. unfold bind. specialize (Hm w).
  destruct (m w) as [[a|e] w1]; cbn [snd] in *; [|exact Hm].
  exact (sameRun_trans _ _ _ _ Hm (Hk a w1)).
Qed.

Lemma kr_upsert (h : nat) (faults : Repository.DbFaults)
    (tariffs : list BoxTariff) :
  keepsRun h (Repository.upsertTariffs faults tariffs).
Proof.
  apply kr_same. intros w.
  now destruct (upsert_outcome faults tariffs w) as (_ & _ & Hc & _).
Qed.

Lemma kr_setFetchedCount (h n : nat) : keepsRun h (Metrics.setFetchedCount h n).
Proof. intros w. now apply sameRun_mutate. Qed.

Lemma kr_setSavedCount (h n : nat) : keepsRun h (Metrics.setSavedCount h n).
Proof. intros w. now apply sameRun_mutate. Qed.

Lemma kr_setExportedCount (h n : nat) :
  keepsRun h (Metrics.setExportedCount h n).
Proof. intros w. now apply sameRun_mutate. Qed.

Lemma kr_readMetric (h h' : nat) : keepsRun h (Metrics.readMetric h').
Proof. apply kr_same. reflexivity. Qed.

Lemma kr_completeSyncM (h : nat) (ok : bool) :
  keepsRun h (Metrics.completeSyncM h ok None).
Proof. intros w. now apply sameRun_mutate. Qed.

Create HintDb runs.
#[local] Hint Resolve kr_upsert kr_setFetchedCount kr_setSavedCount
  kr_setExportedCount kr_readMetric kr_completeSyncM : runs.
#[local] Hint Extern 1 (keepsRun _ _) =>
  apply kr_observes;
  first [ apply oo_fetchBoxTariffs | apply oo_transformToDbFormat
        | apply oo_getTariffsByDate | apply oo_updateAllSpreadsheets
        | solve [eauto with frames] ] : runs.

Ltac keeps_run :=
  solve
    [ repeat first
        [ solve [eauto with runs]
        | apply kr_bind; [|intro]
        | match goal with
          | |- keepsRun _ (if ?c then _ else _) => destruct c
          end ] ].

(** ** Completion *)

Lemma cr_throw {A : Type} (h : nat) (start : Z) (e : Err) :
  completesRun h start (@throw A e).
Proof. intros w _ _. exact I. Qed.

Lemma cr_bind {A B : Type} (h : nat) (start : Z) (m : M A) (k : A -> M B) :
  keepsRun h m -> (forall a, completesRun h start (k a)) ->
  completesRun h start (bind m k).
Proof.
  intros Hm Hk w Hh Hs. unfold bind.
  destruct (Hm w) as (L & _ & _ & S & _).
  destruct (m w) as [[a|e] w1]; cbn [snd] in *; [|exact I].
  apply Hk; congruence.
Qed.

Lemma cr_then {A B : Type} (h : nat) (start : Z) (m : M A) (k : A -> M B) :
  completesRun h start m -> (forall a, recordsOnly (k a)) ->
  completesRun h start (bind m k).
Proof.
  intros Hm Hk w Hh Hs. unfold bind. specialize (Hm w Hh Hs).
  destruct (m w) as [[a|e] w1]; [|exact I].
  destruct (Hk a w1) as [evs Hw].
  destruct (k a w1) as [[b|e] w2]; [|exact I].
  cbn [snd] in Hw. subst w2. exact Hm.
Qed.

Lemma cr_completeSyncM (h : nat) (start : Z) :
  completesRun h start (Metrics.completeSyncM h true None).
Proof.
  intros w Hh Hs. rewrite completeSyncM_run. cbn [withCollector collector clock].
  unfold Metrics.completeSync. rewrite deref_mutate_same by exact Hh.
  cbn [success endTime duration]. rewrite Hs. repeat split.
Qed.

Lemma ro_log (lg : Logger) (lvl : Level) (msg : jsstring) :
  recordsOnly (log lg lvl msg).
Proof. apply ro_emit_log. Qed.

Lemma ro_readMetric (h : nat) : recordsOnly (Metrics.readMetric h).
Proof. intros w. exists []. cbn. now rewrite record_nil. Qed.

Lemma ro_getWorld : recordsOnly getWorld.
Proof. intros w. exists []. cbn. now rewrite record_nil. Qed.

Ltac records_only :=
  repeat first
    [ apply ro_bind; [|intro]
    | apply ro_log | apply ro_readMetric | apply ro_getWorld | apply ro_ret ].

(** ** The tables during a run *)

Lemma tableGrows_refl (tb : list Row) : tableGrows tb tb.
Proof. split; [trivial|]. intros r Hr. exists r. repeat split. exact Hr. Qed.

Lemma tableGrows_trans (t1 t2 t3 : list Row) :
  tableGrows t1 t2 -> tableGrows t2 t3 -> tableGrows t1 t3.
Proof.
  intros [U1 K1] [U2 K2]. split; [auto|].
  intros r Hr. destruct (K1 r Hr) as (r1 & H1 & Hk1 & Hc1).
  destruct (K2 r1 H1) as (r2 & H2 & Hk2 & Hc2).
  exists r2. split; [exact H2|]. split; congruence.
Qed.

Lemma gt_same {A : Type} (m : M A) :
  (forall w, tariffsTable (snd (m w)) = tariffsTable w
             /\ spreadsheetsTable (snd (m w)) = spreadsheetsTable w) ->
  growsTable m.
Proof.
  intros H w. destruct (H w) as [-> ->]. split; [apply tableGrows_refl|reflexivity].
Qed.

Lemma gt_observes {A : Type} (m : M A) : observesOnly m -> growsTable m.
Proof.
  intros H. apply gt_same. intros w. destruct (H w) as (Ht & Hs & _).
  now split.
Qed.

Lemma gt_bind {A B : Type} (m : M A) (k : A -> M B) :
  growsTable m -> (forall a, growsTable (k a)) -> growsTable (bind m k).
Proof.
  intros Hm Hk w. unfold bind. destruct (Hm w) as [Hg Hs].
  destruct (m w) as [[a|e] w1]; cbn [snd] in *; [|now split].
  destruct (Hk a w1) as [Hg' Hs'].
  split; [exact (tableGrows_trans _ _ _ Hg Hg') | congruence].
Qed.

Lemma gt_tryCatch {A : Type} (m : M A) (h : Err -> M A) :
  growsTable m -> (forall e, growsTable (h e)) -> growsTable (tryCatch m h).
Proof.
  intros Hm Hh w. unfold tryCatch. destruct (Hm w) as [Hg Hs].
  destruct (m w) as [[a|e] w1]; cbn [snd] in *; [now split|].
  destruct (Hh e w1) as [Hg' Hs'].
  split; [exact (tableGrows_trans _ _ _ Hg Hg') | congruence].
Qed.

Lemma gt_upsert (faults : Repository.DbFaults) (tariffs : list BoxTariff) :
  growsTable (Repository.upsertTariffs faults tariffs).
Proof.
  intros w.
  destruct (upsert_outcome faults tariffs w) as ([[_ Ht] | [_ Ht]] & Hs & _);
    rewrite Ht; (split; [|exact Hs]).
  - split; [apply insertChunk_unique | apply insertChunk_keeps].
  - apply tableGrows_refl.
Qed.

Lemma gt_startSyncM : growsTable Metrics.startSyncM.
Proof. apply gt_same. intros w. rewrite startSyncM_run. now split. Qed.

Lemma gt_completeSyncM (h : nat) (ok : bool) (err : option Err) :
  growsTable (Metrics.completeSyncM h ok err).
Proof. apply gt_same. intros w. now split. Qed.

Lemma gt_readMetric (h : nat) : growsTable (Metrics.readMetric h).
Proof. apply gt_same. intros w. now split. Qed.

Lemma gt_setFetchedCount (h n : nat) : growsTable (Metrics.setFetchedCount h n).
Proof. apply gt_same. intros w. now split. Qed.

Lemma gt_setSavedCount (h n : nat) : growsTable (Metrics.setSavedCount h n).
Proof. apply gt_same. intros w. now split. Qed.

Lemma gt_setExportedCount (h n : nat) :
  growsTable (Metrics.setExportedCount h n).
Proof. apply gt_same. intros w. now split. Qed.

#[local] Hint Resolve gt_upsert gt_startSyncM gt_completeSyncM gt_readMetric
  gt_setFetchedCount gt_setSavedCount gt_setExportedCount : runs.
#[local] Hint Extern 1 (growsTable _) =>
  apply gt_observes;
  first [ apply oo_fetchBoxTariffs | apply oo_transformToDbFormat
        | apply oo_getTariffsByDate | apply oo_updateAllSpreadsheets
        | solve [eauto with frames] ] : runs.

Ltac grows_table :=
  solve
    [ repeat first
        [ solve [eauto with runs]
        | apply gt_bind; [|intro]
        | apply gt_tryCatch; [|intro]
        | match goal with
          | |- growsTable (if ?c then _ else _) => destruct c
          end ] ].

(** ** The shape of a run *)

(** [syncTariffs] is its [try] block under its [catch] block, entered once
    the run is registered and announced; the [try] block keeps the run's
    record but for its counters and its completion, and the [catch] block
    completes the run as failed, logs, and throws the error again. *)
Lemma sync_shape (env : Sync.Env) (w : World) :
  let h := List.length (objects (collector w)) in
  let c0 := snd (Metrics.startSync (clock w) (collector w)) in
  exists (body : M unit) (handler : Err -> M unit) (evs0 : list Event),
    Sync.syncTariffs env w
    = tryCatch body handler (record evs0 (withCollector c0 w))
    /\ keepsRun h body
    /\ completesRun h (clock w) body
    /\ growsTable body
    /\ forall e w2, exists evs,
         handler e w2
         = (Throw e,
            record evs
              (withCollector
                 (Metrics.completeSync (clock w2) h false (Some e)
                    (collector w2)) w2)).
Proof.
  cbv zeta. unfold Sync.syncTariffs.
  unfold bind at 1. rewrite startSyncM_run.
  unfold bind at 1. rewrite log_run.
  unfold bind at 1. rewrite log_run.
  unfold bind at 1. rewrite log_run.
  rewrite !record_record.
  eexists. eexists. eexists. split; [reflexivity|].
  split; [keeps_run|]. split.
  - (* completion *)
    apply cr_bind; [keeps_run|]. intros _.
    apply cr_bind; [keeps_run|]. intros rawTariffs.
    apply cr_bind; [keeps_run|]. intros _.
    apply cr_bind; [keeps_run|]. intros m1.
    apply cr_bind; [keeps_run|]. intros _.
    destruct (fetchedCount m1 =? 0).
    { apply cr_bind; [keeps_run|]. intros _. apply cr_completeSyncM. }
    apply cr_bind; [keeps_run|]. intros _.
    apply cr_bind; [keeps_run|]. intros dbTariffs.
    apply cr_bind; [keeps_run|]. intros _.
    apply cr_bind; [keeps_run|]. intros _.
    apply cr_bind; [keeps_run|]. intros m2.
    apply cr_bind; [keeps_run|]. intros _.
    apply cr_bind; [keeps_run|]. intros _.
    apply cr_bind; [keeps_run|]. intros exportTariffs.
    destruct (List.length exportTariffs =? 0); [apply cr_throw|].
    apply cr_bind; [keeps_run|]. intros _.
    apply cr_bind; [keeps_run|]. intros _.
    apply cr_bind; [keeps_run|]. intros m3.
    apply cr_bind; [keeps_run|]. intros _.
    apply cr_then; [apply cr_completeSyncM|]. intros _.
    records_only.
  - split; [grows_table|].
    intros e w2.
    unfold bind at 1. rewrite completeSyncM_run.
    unfold bind at 1. rewrite readMetric_run.
    unfold bind at 1. rewrite log_run.
    unfold bind at 1. rewrite log_run.
    unfold bind at 1. rewrite log_run.
    unfold bind at 1. rewrite log_run.
    unfold bind at 1.
    match goal with
    | |- context [if ?c then _ else _] => destruct c
    end; [rewrite log_run | unfold ret]; unfold throw;
      rewrite ?record_record; eexists; reflexivity.
Qed.

(** X20. Every run ends with its record completed.  Whatever the remote
    sides answer, after [syncTariffs] the run is the newest entry of the
    history, the records of earlier runs are untouched, and its record
    carries the start time, the end time and their difference; if the call
    returned the run is marked successful without an error text, and if it
    threw the run is marked failed with the message of the error thrown. *)
Theorem sync_records_its_outcome (env : Sync.Env) (w : World) :
  let h := List.length (objects (collector w)) in
  let res := Sync.syncTariffs env w in
  let w' := snd res in
  let m := Metrics.deref (collector w') h in
  metrics (collector w') = olderKept (metrics (collector w)) ++ [h]
  /\ (forall h', h' < h ->
        Metrics.deref (collector w') h' = Metrics.deref (collector w) h')
  /\ startTime m = clock w
  /\ endTime m = Some (clock w')
  /\ duration m = Some (clock w' - clock w)%Z
  /\ match fst res with
     | Return _ => success m = true /\ error m = None
     | Throw e => success m = false /\ error m = Some (message e)
     end.
Proof.
  cbv zeta.
  destruct (sync_shape env w)
    as (body & handler & evs0 & Hrun & Hkr & Hcr & _ & Hcatch).
  cbv zeta in Hrun, Hkr, Hcr, Hcatch. rewrite Hrun. clear Hrun.
  set (h := List.length (objects (collector w))) in *.
  set (c0 := snd (Metrics.startSync (clock w) (collector w))) in *.
  set (w1 := record evs0 (withCollector c0 w)) in *.
  assert (Hlen0 : List.length (objects c0) = S h).
  { unfold c0. rewrite startSync_objects, length_app. cbn. unfold h. lia. }
  assert (Hnew : Metrics.deref c0 h = freshMetric (clock w))
    by apply startSync_deref_new.
  assert (Hold : forall h', h' < h ->
                   Metrics.deref c0 h' = Metrics.deref (collector w) h')
    by (intros h' Hh'; now apply startSync_deref_old).
  assert (Hmet : metrics c0 = olderKept (metrics (collector w)) ++ [h])
    by apply startSync_metrics.
  destruct (Hkr w1) as (L & M & O & S & E).
  change (collector w1) with c0 in L, M, O, S, E.
  assert (Hcr1 := Hcr w1). change (collector w1) with c0 in Hcr1.
  specialize (Hcr1 ltac:(lia) ltac:(now rewrite Hnew)).
  unfold tryCatch.
  destruct (body w1) as [[a|e] w2]; cbn [snd] in *.
  - cbn [fst snd]. destruct Hcr1 as (Hs & He & Hd).
    split; [congruence|].
    split; [intros h' Hh'; rewrite O by lia; now apply Hold|].
    split; [rewrite S, Hnew; reflexivity|].
    split; [exact He|]. split; [exact Hd|].
    split; [exact Hs|]. rewrite E, Hnew. reflexivity.
  - destruct (Hcatch e w2) as [evs Hrun]. rewrite Hrun. cbn [fst snd].
    cbn [record withCollector collector clock].
    unfold Metrics.completeSync.
    rewrite deref_mutate_same by lia.
    cbn [startTime endTime duration success error].
    split; [cbn [Metrics.mutate metrics]; congruence|].
    split.
    { intros h' Hh'. rewrite deref_mutate_other by lia.
      rewrite O by lia. now apply Hold. }
    rewrite S, Hnew. cbn [freshMetric startTime]. repeat split.
Qed.

Lemma gt_syncTariffs (env : Sync.Env) : growsTable (Sync.syncTariffs env).
Proof. unfold Sync.syncTariffs. cbv zeta. grows_table. Qed.

(** X21. A run never loses what is stored.  Whatever the remote sides answer
    and whether the run returns or throws, [syncTariffs] leaves the
    registry of spreadsheets as it was, every tariff row that was stored
    is still stored under its key with its time of creation, and the
    unique constraint of the table still holds. *)
Theorem sync_keeps_stored_tariffs (env : Sync.Env) (w : World) :
  let w' := snd (Sync.syncTariffs env w) in
  spreadsheetsTable w' = spreadsheetsTable w
  /\ (uniqueKeys (tariffsTable w) -> uniqueKeys (tariffsTable w'))
  /\ (forall r, In r (tariffsTable w) ->
        exists r', In r' (tariffsTable w') /\ rowKey r' = rowKey r
                   /\ created_at r' = created_at r).
Proof.
  cbv zeta. destruct (gt_syncTariffs env w) as [[Hu Hk] Hs].
  split; [exact Hs|]. split; assumption.
Qed.

End SyncRun.

(* ===================================================================== *)
(** * services/googleSheets.ts: what publishing leaves alone *)
(* ===================================================================== *)

Module SheetsFacts.

Import JSFacts EffFacts Frames.

(** X22. Publishing changes nothing in the process or the database: a
    write to one spreadsheet and the update of all of them leave both
    tables and the metrics collector as they were, whatever the Sheets API
    answers; and when the registry of spreadsheets cannot be read, the
    update of all fails with a GoogleSheetsError carrying the message of
    the query's error, before any request is sent to the Sheets API. *)
Theorem publishing_changes_no_state (svc : Sheets.Service)
    (idsQueryFails : option Err)
    (api : jsstring -> nat -> Sheets.SheetsOutcome)
    (spreadsheetId : jsstring) (tariffs : list TariffExportRow) :
  observesOnly (Sheets.updateSpreadsheet svc (api spreadsheetId) spreadsheetId
                  tariffs)
  /\ observesOnly (Sheets.updateAllSpreadsheets svc idsQueryFails api tariffs)
  /\ (forall e w,
        exists evs,
          Sheets.updateAllSpreadsheets svc (Some e) api tariffs w
          = (Throw (newGoogleSheetsError
                      (js "Failed to fetch spreadsheet IDs: " ++ message e)),
             record evs w)
          /\ sheetAttempts evs = 0).
Proof.
  split; [apply oo_updateSpreadsheet|].
  split; [apply oo_updateAllSpreadsheets|].
  intros e w. eexists. split.
  - unfold Sheets.updateAllSpreadsheets.
    unfold bind at 1. rewrite log_run.
    apply bind_throw. unfold Sheets.getSpreadsheetIds.
    erewrite tryCatch_throw by reflexivity.
    unfold bind at 1. rewrite logWith_run. unfold throw.
    rewrite record_record. reflexivity.
  - reflexivity.
Qed.

End SheetsFacts.

(* ===================================================================== *)
(** * services/scheduler.ts: the scheduler as the application drives it *)
(* ===================================================================== *)

Module SchedulerDiscipline.

Import Scheduler SchedulerFacts.

Lemma run_cons (s : State) (i : Input) (inputs : list Input) :
  run s (i :: inputs) = run (step s i) inputs.
Proof. reflexivity. Qed.

(** X23. When [runImmediateSync] is called once, before anything else, as
    [main] does, then whatever follows of cron ticks, settled runs,
    [startHourlySync] and [stop], in any order, at most one run is in
    flight at any time and the flag says exactly whether one is. *)
Theorem one_run_at_a_time (inputs : list Input) :
  Forall (fun i => i <> RunImmediateSync) inputs ->
  let s := run initial (RunImmediateSync :: inputs) in
  flagExact s /\ List.length (inFlight s) <= 1.
Proof.
  intros Hin. cbv zeta. rewrite run_cons.
  assert (Hflag : flagExact (run (step initial RunImmediateSync) inputs)).
  { apply flagExact_run.
    - apply flagExact_step; [left; split; reflexivity | reflexivity].
    - intros pre i post ->.
      apply Forall_app in Hin as [_ Hi]. inversion Hi as [|? ? Hne _]; subst.
      destruct i; try exact I. now elim Hne. }
  split; [exact Hflag|].
  destruct Hflag as [[-> _] | (r & -> & _)]; cbn; lia.
Qed.

Lemma one_run_at_a_time_witness :
  let inputs :=
    [SyncSettles 0 (Some (newAppError (js "boom"))) (js "0.50");
     StartHourlySync; CronFires; CronFires;
     SyncSettles 1 None (js "2.00"); CronFires; Stop] in
  let s := run initial (RunImmediateSync :: inputs) in
  flagExact s /\ List.length (inFlight s) <= 1.
Proof.
  apply (one_run_at_a_time
           [SyncSettles 0 (Some (newAppError (js "boom"))) (js "0.50");
            StartHourlySync; CronFires; CronFires;
            SyncSettles 1 None (js "2.00"); CronFires; Stop]).
  repeat constructor; discriminate.
Defined.

Lemma ticks_without_tasks (n : nat) (s : State) :
  tasks s = 0 -> run s (repeat CronFires n) = s.
Proof.
  intros Ht. induction n as [|n IH]; [reflexivity|].
  cbn [repeat]. rewrite run_cons. cbn [step]. rewrite Ht. exact IH.
Qed.

Lemma stopTasks_started (n : nat) :
  forall k st, started (stopTasks n k st) = started st.
Proof.
  induction n as [|n IH]; intros k st; [reflexivity|].
  cbn [stopTasks]. now rewrite IH.
Qed.

Lemma stop_no_tasks (s : State) : tasks (step s Stop) = 0.
Proof. reflexivity. Qed.

(** X24. [stop] unschedules without interrupting: after it the status
    reports no task, cron ticks start no run and log nothing, and a run
    that is in flight stays in flight with the flag as it was, until it
    settles. *)
Theorem stop_cancels_schedule (s : State) (n : nat) :
  let s' := step s Stop in
  getStatus s' = (0, syncInProgress s)
  /\ inFlight s' = inFlight s
  /\ started s' = started s
  /\ run s' (repeat CronFires n) = s'
  /\ (forall r result elapsed,
        In r (inFlight s) ->
        syncInProgress (step s' (SyncSettles r result elapsed)) = false).
Proof.
  cbv zeta. destruct (stop_keeps s) as [Hin Hflag].
  split; [unfold getStatus; now rewrite stop_no_tasks, Hflag|].
  split; [exact Hin|]. split.
  { unfold step. cbn [started say]. now rewrite stopTasks_started. }
  split; [apply ticks_without_tasks, stop_no_tasks|].
  intros r result elapsed Hr.
  apply flag_cleared_on_settle. now rewrite Hin.
Qed.

End SchedulerDiscipline.

(* ===================================================================== *)
(** * postgres/seeds/spreadsheets.js: seeding the registry *)
(* ===================================================================== *)

Module SeedsFacts.

Import JSFacts WBApiFacts.








End SeedsFacts.

(* ===================================================================== *)
(** * services/tariffSync.ts: a run with data, end to end *)
(* ===================================================================== *)

Module SyncEndToEnd.

Import JSFacts EffFacts Normalisation Store ReadBack MetricsFacts RetryFacts
       SyncFacts PublishAll Frames StoreInvariants.

(** ** Stepping through a computation *)

Lemma ew_observes {A B : Type} (k : A -> M B) (w : World)
    (P : Outcome B -> World -> Prop)
    (T : list Row) (S : list jsstring) (C : MetricsCollector)
    (HT : tariffsTable w = T) (HS : spreadsheetsTable w = S)
    (HC : collector w = C) (m : M A) (a : A) :
  observesOnly m -> fst (m w) = Return a ->
  (forall w1, tariffsTable w1 = T -> spreadsheetsTable w1 = S ->
              collector w1 = C -> endsWith (k a) w1 P) ->
  endsWith (bind m k) w P.
Proof.
  intros Ho Hr Hk. unfold endsWith, bind.
  destruct (Ho w) as (T1 & S1 & C1 & _).
  destruct (m w) as [o w1]. cbn [fst snd] in *. subst o.
  apply Hk; congruence.
Qed.

Lemma ew_observes_throw {A B : Type} (k : A -> M B) (w : World)
    (P : Outcome B -> World -> Prop)
    (T : list Row) (S : list jsstring) (C : MetricsCollector)
    (HT : tariffsTable w = T) (HS : spreadsheetsTable w = S)
    (HC : collector w = C) (m : M A) (e : Err) :
  observesOnly m -> fst (m w) = Throw e ->
  (forall w1, tariffsTable w1 = T -> spreadsheetsTable w1 = S ->
              collector w1 = C -> P (Throw e) w1) ->
  endsWith (bind m k) w P.
Proof.
  intros Ho Hr Hk. unfold endsWith, bind.
  destruct (Ho w) as (T1 & S1 & C1 & _).
  destruct (m w) as [o w1]. cbn [fst snd] in *. subst o. cbn [fst snd].
  apply Hk; congruence.
Qed.

Lemma ew_collector {B : Type} (k : unit -> M B) (w : World)
    (P : Outcome B -> World -> Prop)
    (T : list Row) (S : list jsstring) (C : MetricsCollector)
    (HT : tariffsTable w = T) (HS : spreadsheetsTable w = S)
    (HC : collector w = C) (op : M unit) (f : World -> MetricsCollector) :
  (forall w0, op w0 = (Return tt, withCollector (f w0) w0)) ->
  (forall w1, tariffsTable w1 = T -> spreadsheetsTable w1 = S ->
              collector w1 = f w -> clock w1 = clock w ->
              endsWith (k tt) w1 P) ->
  endsWith (bind op k) w P.
Proof.
  intros Hop Hk. unfold endsWith, bind. rewrite Hop.
  apply Hk; assumption || reflexivity.
Qed.

Lemma ew_upsert {B : Type} (k : unit -> M B) (w : World)
    (P : Outcome B -> World -> Prop)
    (T : list Row) (S : list jsstring) (C : MetricsCollector)
    (HT : tariffsTable w = T) (HS : spreadsheetsTable w = S)
    (HC : collector w = C) (faults : Repository.DbFaults)
    (recs : list BoxTariff) :
  dbAccepts faults ->
  (forall w1,
     tariffsTable w1 = Repository.insertChunk (clock w) recs T ->
     spreadsheetsTable w1 = S -> collector w1 = C ->
     endsWith (k tt) w1 P) ->
  endsWith (bind (Repository.upsertTariffs faults recs) k) w P.
Proof.
  intros (Hb & Hc & Hch) Hk. unfold endsWith, bind.
  pose proof (upsert_succeeds faults recs w Hb Hc (fun j _ => Hch j _)) as Hok.
  destruct (upsert_outcome faults recs w)
    as ([[_ Ht] | [[e He] _]] & Hs & Hcol & _); [|congruence].
  destruct (Repository.upsertTariffs faults recs w) as [o w1].
  cbn [fst snd] in *. subst o. apply Hk; congruence.
Qed.

Lemma ew_tryCatch {A : Type} (m : M A) (h : Err -> M A) (w : World)
    (P : Outcome A -> World -> Prop) :
  endsWith m w
    (fun o w1 => match o with
                 | Return a => P (Return a) w1
                 | Throw e => endsWith (h e) w1 P
                 end) ->
  endsWith (tryCatch m h) w P.
Proof.
  unfold endsWith, tryCatch. destruct (m w) as [[a|e] w1]; cbn; trivial.
Qed.

Lemma mutate_length (h : nat) (f : SyncMetrics -> SyncMetrics)
    (c : MetricsCollector) :
  List.length (objects (Metrics.mutate h f c)) = List.length (objects c).
Proof. apply updateObject_length. Qed.

(** ** The export step *)

Lemma updateAll_returns (svc : Sheets.Service)
    (api : jsstring -> nat -> Sheets.SheetsOutcome)
    (tariffs : list TariffExportRow) (w : World) :
  spreadsheetsTable w = []
  \/ Exists (fun id => publishSucceeds svc (api id) id) (spreadsheetsTable w) ->
  fst (Sheets.updateAllSpreadsheets svc None api tariffs w) = Return tt.
Proof.
  intros [Hnone | Hsome].
  - unfold Sheets.updateAllSpreadsheets.
    unfold bind at 1. rewrite log_run.
    unfold bind at 1. rewrite getSpreadsheetIds_run. cbn [spreadsheetsTable record].
    rewrite Hnone. reflexivity.
  - assert (Hne : spreadsheetsTable w <> []).
    { intros E. rewrite E in Hsome. inversion Hsome. }
    destruct (updateAll_run svc api tariffs w Hne) as (rs & w' & Hset & Hrun & _).
    rewrite Hrun. cbn [fst].
    pose proof (some_succeeded svc api _ rs Hset Hsome) as Hlt.
    destruct (Nat.eqb_spec (failures rs) (List.length (spreadsheetsTable w)));
      [lia|reflexivity].
Qed.

Lemma updateAll_throws (svc : Sheets.Service)
    (api : jsstring -> nat -> Sheets.SheetsOutcome)
    (tariffs : list TariffExportRow) (w : World) :
  spreadsheetsTable w <> [] ->
  Forall (fun id => publishFails svc (api id) id) (spreadsheetsTable w) ->
  fst (Sheets.updateAllSpreadsheets svc None api tariffs w)
  = Throw (newGoogleSheetsError (js "All spreadsheet updates failed")).
Proof.
  intros Hne Hall.
  destruct (updateAll_run svc api tariffs w Hne) as (rs & w' & Hset & Hrun & _).
  rewrite Hrun. cbn [fst].
  rewrite (all_failed svc api _ rs Hset Hall), Nat.eqb_refl. reflexivity.
Qed.

(** ** The run *)

Lemma ew_start {B : Type} (k : nat -> M B) (w : World)
    (P : Outcome B -> World -> Prop) :
  (forall u,
     tariffsTable u = tariffsTable w ->
     spreadsheetsTable u = spreadsheetsTable w ->
     collector u = snd (Metrics.startSync (clock w) (collector w)) ->
     endsWith (k (List.length (objects (collector w)))) u P) ->
  endsWith (bind Metrics.startSyncM k) w P.
Proof.
  intros Hk. unfold endsWith, bind. rewrite startSyncM_run.
  apply Hk; reflexivity.
Qed.

Lemma ew_last {A : Type} (m : M A) (w : World) (a : A)
    (P : Outcome A -> World -> Prop)
    (T : list Row) (S : list jsstring) (C : MetricsCollector) :
  tariffsTable w = T -> spreadsheetsTable w = S -> collector w = C ->
  observesOnly m -> fst (m w) = Return a ->
  (forall w1, tariffsTable w1 = T -> spreadsheetsTable w1 = S ->
              collector w1 = C -> P (Return a) w1) ->
  endsWith m w P.
Proof.
  intros HT HS HC Ho Hr Hk. unfold endsWith.
  destruct (Ho w) as (T1 & S1 & C1 & _). rewrite Hr. apply Hk; congruence.
Qed.

Ltac facts_then tac :=
  match goal with
  | HT : tariffsTable ?u = _, HS : spreadsheetsTable ?u = _,
    HC : collector ?u = _ |- endsWith _ ?u _ => tac u HT HS HC
  end.

Ltac observes_only :=
  first [ apply oo_fetchBoxTariffs | apply oo_transformToDbFormat
        | apply oo_getTariffsByDate | apply oo_updateAllSpreadsheets
        | solve [eauto with frames]
        | match goal with
          | |- observesOnly (if ?c then _ else _) =>
              destruct c; solve [eauto with frames]
          end ].

(** The facts about the world a step leaves replace those about the world
    it started in. *)
Ltac next_world u HT HS HC :=
  clear HT HS HC; try clear u;
  let u' := fresh "u" in
  let HT' := fresh "HT" in
  let HS' := fresh "HS" in
  let HC' := fresh "HC" in
  intros u' HT' HS' HC'.

(** One step that only observes and returns [val]. *)
Ltac observe val :=
  facts_then ltac:(fun u HT HS HC =>
    eapply (ew_observes _ _ _ _ _ _ HT HS HC) with (a := val);
    [ observes_only | | next_world u HT HS HC ]).

Ltac say := observe tt; [reflexivity|].

(** One step that replaces the collector. *)
Ltac set_collector :=
  facts_then ltac:(fun u HT HS HC =>
    eapply (ew_collector _ _ _ _ _ _ HT HS HC);
    [ intros ?; first [ apply completeSyncM_run | reflexivity ]
    | let u' := fresh "u" in
      let HT' := fresh "HT" in
      let HS' := fresh "HS" in
      let HC' := fresh "HC" in
      intros u' HT' HS' HC' _; cbv beta in HC'; rewrite ?HC in HC';
      clear HT HS HC; try clear u ]).

(** The step [m <- readMetric h]. *)
Ltac read_metric h :=
  facts_then ltac:(fun u HT HS HC =>
    match type of HC with
    | _ = ?C =>
        eapply (ew_observes _ _ _ _ _ _ HT HS HC) with (a := Metrics.deref C h);
        [ observes_only
        | rewrite <- HC; reflexivity
        | next_world u HT HS HC ]
    end).

(** The fields of the run's record after the setters. *)
Ltac run_record Hlen0 Hnew :=
  unfold Metrics.completeSync;
  rewrite ?deref_mutate_same by (rewrite ?mutate_length; lia);
  rewrite ?Hnew;
  cbn [freshMetric startTime endTime duration fetchedCount savedCount
       exportedCount success error].

Lemma readMetric_value (h : nat) (w : World) (C : MetricsCollector) :
  collector w = C -> fst (Metrics.readMetric h w) = Return (Metrics.deref C h).
Proof. intros <-. reflexivity. Qed.

Lemma saved_rows_are_selected (collate : jsstring -> jsstring -> bool)
    (d : jsstring) (now : Z) (raw : list WBWarehouseTariff)
    (table : list Row) :
  raw <> [] ->
  Repository.selectByDate collate d
    (Repository.insertChunk now (List.map (normalized d) raw) table) <> [].
Proof.
  intros Hraw. destruct raw as [|t raw]; [congruence|].
  destruct (insertChunk_has_key now (List.map (normalized d) (t :: raw))
              (normalized d t) table) as (r & Hin & Hkey).
  { now left. }
  assert (Hdate : date (row_tariff r) = d).
  { unfold rowKey, keyOf in Hkey. now injection Hkey as -> _. }
  pose proof (selectByDate_has collate d _ r Hin Hdate) as Hsel.
  intros E. rewrite E in Hsel. contradiction.
Qed.

Local Abbreviation allFailed :=
  (newGoogleSheetsError (js "All spreadsheet updates failed")).

(** A run whose fetch, transformation, upsert and read-back go through:
    what it leaves, by the outcome of the export. *)
Lemma run_with_data (env : Sync.Env) (w : World) (n : nat)
    (raw : list WBWarehouseTariff) :
  answersAfter env n raw -> raw <> [] -> Forall namesPresent raw ->
  dbAccepts (Sync.upsertFaults env) ->
  Sync.readFails env = None -> Sync.idsQueryFails env = None ->
  let h := List.length (objects (collector w)) in
  let recs := List.map (normalized (Sync.today env)) raw in
  let ids := spreadsheetsTable w in
  endsWith (Sync.syncTariffs env) w
    (fun o w' =>
       let m := Metrics.deref (collector w') h in
       (exists now,
          tariffsTable w' = Repository.insertChunk now recs (tariffsTable w))
       /\ spreadsheetsTable w' = ids
       /\ fetchedCount m = List.length raw
       /\ savedCount m = List.length raw
       /\ (ids = []
           \/ Exists (fun id => publishSucceeds Sheets.defaultService
                                  (Sync.sheetsApi env id) id) ids ->
           o = Return tt
           /\ exportedCount m
              = List.length (Repository.selectByDate (Sync.collate env)
                               (Sync.today env) (tariffsTable w'))
           /\ 0 < exportedCount m
           /\ success m = true /\ error m = None)
       /\ (ids <> [] ->
           Forall (fun id => publishFails Sheets.defaultService
                               (Sync.sheetsApi env id) id) ids ->
           o = Throw allFailed
           /\ exportedCount m = 0
           /\ success m = false
           /\ error m = Some (message allFailed))).
Proof.
  intros (Hd & Hn & Hfail & Hans) Hraw Hnames Hdb Hread Hids. cbv zeta.
  set (errs := fun k => match httpFailure (Sync.http env k) with
                        | Some e => e
                        | None => newAppError []
                        end).
  assert (Hfail' : forall k, 1 <= k <= n ->
                     httpFailure (Sync.http env k) = Some (errs k)).
  { intros k Hk. specialize (Hfail k Hk). unfold errs.
    destruct (httpFailure (Sync.http env k)); congruence. }
  set (h := List.length (objects (collector w))).
  set (c0 := snd (Metrics.startSync (clock w) (collector w))).
  assert (Hlen0 : List.length (objects c0) = S h).
  { unfold c0. rewrite startSync_objects, length_app. cbn. unfold h. lia. }
  assert (Hnew : Metrics.deref c0 h = freshMetric (clock w))
    by apply startSync_deref_new.
  assert (Hnz : List.length raw <> 0).
  { intros E. apply length_zero_iff_nil in E. contradiction. }
  unfold Sync.syncTariffs. cbv zeta.
  apply ew_start. fold h c0. intros u HT HS HC.
  say. say. say.
  apply ew_tryCatch.
  say.
  observe raw.
  { rewrite (fetch_answered _ _ _ _ _ errs n raw Hd Hn Hfail' Hans).
    reflexivity. }
  set_collector.
  read_metric h.
  say.
  run_record Hlen0 Hnew.
  destruct (Nat.eqb_spec (List.length raw) 0) as [E|_]; [contradiction|].
  say.
  observe (List.map (normalized (Sync.today env)) raw).
  { match goal with
    | |- fst (_ _ _ ?u) = _ =>
        destruct (transformToDbFormat_ok raw (Sync.today env) u Hnames)
          as (evs & Hrun & _); now rewrite Hrun
    end. }
  facts_then ltac:(fun u HT HS HC =>
    eapply (ew_upsert _ _ _ _ _ _ HT HS HC); [exact Hdb|];
    set (now := clock u); clearbody now; next_world u HT HS HC).
  set_collector.
  read_metric h.
  say. say.
  set (recs := List.map (normalized (Sync.today env)) raw) in *.
  set (table' := Repository.insertChunk now recs (tariffsTable w)) in *.
  set (rows := Repository.selectByDate (Sync.collate env) (Sync.today env)
                 table').
  assert (Hrows : List.length rows <> 0).
  { intros E. apply length_zero_iff_nil in E.
    now apply (saved_rows_are_selected (Sync.collate env) (Sync.today env)
                 now raw (tariffsTable w) Hraw). }
  observe rows.
  { rewrite Hread.
    match goal with
    | |- fst (_ _ _ _ ?u) = _ =>
        destruct (getTariffsByDate_run (Sync.collate env) (Sync.today env) u)
          as (evs & Hrun)
    end.
    rewrite Hrun. cbn [fst]. unfold rows. congruence. }
  destruct (Nat.eqb_spec (List.length rows) 0) as [E|_]; [contradiction|].
  rewrite Hids.
  facts_then ltac:(fun u HT HS HC =>
    pose proof (updateAll_returns Sheets.defaultService (Sync.sheetsApi env)
                  rows u) as Hret;
    pose proof (updateAll_throws Sheets.defaultService (Sync.sheetsApi env)
                  rows u) as Hthr;
    rewrite HS in Hret, Hthr;
    destruct (fst (Sheets.updateAllSpreadsheets Sheets.defaultService None
                     (Sync.sheetsApi env) rows u)) as [[]|e] eqn:Hup).
  - (* the export returned *)
    observe tt; [exact Hup|]. clear Hup.
    set_collector.
    read_metric h.
    say.
    set_collector.
    read_metric h.
    facts_then ltac:(fun u HT HS HC => observe u; [reflexivity|]).
    say. say. say. say.
    facts_then ltac:(fun u HT HS HC =>
      apply (ew_last _ _ tt _ _ _ _ HT HS HC);
      [ observes_only | reflexivity | next_world u HT HS HC ]).
    match goal with
    | HT : tariffsTable ?u = _, HS : spreadsheetsTable ?u = _,
      HC : collector ?u = _ |- _ => rewrite HT, HS, HC
    end.
    run_record Hlen0 Hnew.
    split; [now exists now|]. split; [reflexivity|].
    split; [reflexivity|]. split; [apply length_map|].
    split.
    + intros _. fold rows. repeat split. lia.
    + intros Hne Hall. specialize (Hthr Hne Hall). discriminate.
  - (* the export threw *)
    facts_then ltac:(fun u HT HS HC =>
      eapply (ew_observes_throw _ _ _ _ _ _ HT HS HC) with (e := e);
      [ observes_only | exact Hup | next_world u HT HS HC ]).
    set_collector.
    read_metric h.
    say. say. say. say.
    observe tt.
    { match goal with
      | |- fst ((if ?c then _ else _) _) = _ => destruct c; reflexivity
      end. }
    unfold endsWith. cbn [throw fst snd].
    match goal with
    | HT : tariffsTable ?u = _, HS : spreadsheetsTable ?u = _,
      HC : collector ?u = _ |- _ => rewrite HT, HS, HC
    end.
    run_record Hlen0 Hnew.
    split; [now exists now|]. split; [reflexivity|].
    split; [reflexivity|]. split; [apply length_map|].
    split.
    + intros Hok. specialize (Hret Hok). discriminate.
    + intros Hne Hall. specialize (Hthr Hne Hall). injection Hthr as ->.
      repeat split.
Qed.



(** X26. A run with data, end to end.  When the tariffs API answers with a
    non-empty list whose entries have their names, PostgreSQL accepts the
    upsert and the read-back, and the registry is empty or at least one
    destination takes the export, [syncTariffs] returns; the table is the
    old one with the normalised records upserted, the registry is
    untouched, and the run's record counts every entry as fetched and
    saved, the rows read back (at least one) as exported, and says
    success. *)
Theorem run_with_data_succeeds (env : Sync.Env) (w : World) (n : nat)
    (raw : list WBWarehouseTariff) :
  answersAfter env n raw -> raw <> [] -> Forall namesPresent raw ->
  dbAccepts (Sync.upsertFaults env) ->
  Sync.readFails env = None -> Sync.idsQueryFails env = None ->
  spreadsheetsTable w = []
  \/ Exists (fun id => publishSucceeds Sheets.defaultService
                         (Sync.sheetsApi env id) id) (spreadsheetsTable w) ->
  exists w' now,
    Sync.syncTariffs env w = (Return tt, w')
    /\ tariffsTable w'
       = Repository.insertChunk now
           (List.map (normalized (Sync.today env)) raw) (tariffsTable w)
    /\ spreadsheetsTable w' = spreadsheetsTable w
    /\ (let m := Metrics.deref (collector w')
                   (List.length (objects (collector w))) in
        fetchedCount m = List.length raw
        /\ savedCount m = List.length raw
        /\ exportedCount m
           = List.length (Repository.selectByDate (Sync.collate env)
                            (Sync.today env) (tariffsTable w'))
        /\ 0 < exportedCount m
        /\ success m = true /\ error m = None).
Proof.
  intros Hans Hraw Hnames Hdb Hread Hids Hexport.
  pose proof (run_with_data env w n raw Hans Hraw Hnames Hdb Hread Hids) as H.
  cbv zeta in H. unfold endsWith in H.
  destruct (Sync.syncTariffs env w) as [o w']. cbn [fst snd] in H.
  destruct H as ([now Ht] & Hs & Hf & Hsv & Hok & _).
  destruct (Hok Hexport) as (-> & He & Hpos & Hsucc & Herr).
  exists w', now. repeat split; assumption.
Qed.

Lemma run_with_data_succeeds_witness :
  exists w' now,
    Sync.syncTariffs Samples.busyDay Samples.threeSheets = (Return tt, w')
    /\ tariffsTable w'
       = Repository.insertChunk now
           (List.map (normalized (Sync.today Samples.busyDay))
              [Samples.plainEntry])
           (tariffsTable Samples.threeSheets)
    /\ spreadsheetsTable w' = spreadsheetsTable Samples.threeSheets
    /\ (let m := Metrics.deref (collector w')
                   (List.length (objects (collector Samples.threeSheets))) in
        fetchedCount m = List.length [Samples.plainEntry]
        /\ savedCount m = List.length [Samples.plainEntry]
        /\ exportedCount m
           = List.length (Repository.selectByDate
                            (Sync.collate Samples.busyDay)
                            (Sync.today Samples.busyDay) (tariffsTable w'))
        /\ 0 < exportedCount m
        /\ success m = true /\ error m = None).
Proof.
  apply (run_with_data_succeeds Samples.busyDay Samples.threeSheets 0
           [Samples.plainEntry]).
  - split; [split; reflexivity|]. split; [vm_compute; lia|].
    split; [intros k Hk; lia | reflexivity].
  - discriminate.
  - names_present.
  - repeat split.
  - reflexivity.
  - reflexivity.
  - right. apply Exists_cons_hd.
    split; [split; [vm_compute; discriminate | vm_compute; lia]|].
    exists 0. split; [vm_compute; lia|].
    split; [intros k Hk; lia | reflexivity].
Defined.

(** X27. A failed export does not undo the save.  In such a run, when every
    registered destination fails, [syncTariffs] throws the
    GoogleSheetsError of the export, yet the table holds the records
    upserted; the run's record counts them as fetched and saved, nothing
    as exported, and says failure with that error's message. *)
Theorem failed_export_keeps_saved_data (env : Sync.Env) (w : World)
    (n : nat) (raw : list WBWarehouseTariff) :
  answersAfter env n raw -> raw <> [] -> Forall namesPresent raw ->
  dbAccepts (Sync.upsertFaults env) ->
  Sync.readFails env = None -> Sync.idsQueryFails env = None ->
  spreadsheetsTable w <> [] ->
  Forall (fun id => publishFails Sheets.defaultService
                      (Sync.sheetsApi env id) id) (spreadsheetsTable w) ->
  exists w' now,
    Sync.syncTariffs env w
    = (Throw (newGoogleSheetsError (js "All spreadsheet updates failed")), w')
    /\ tariffsTable w'
       = Repository.insertChunk now
           (List.map (normalized (Sync.today env)) raw) (tariffsTable w)
    /\ Repository.selectByDate (Sync.collate env) (Sync.today env)
         (tariffsTable w') <> []
    /\ (let m := Metrics.deref (collector w')
                   (List.length (objects (collector w))) in
        fetchedCount m = List.length raw
        /\ savedCount m = List.length raw
        /\ exportedCount m = 0
        /\ success m = false
        /\ error m
           = Some (js "Google Sheets Error: All spreadsheet updates failed")).
Proof.
  intros Hans Hraw Hnames Hdb Hread Hids Hne Hall.
  pose proof (run_with_data env w n raw Hans Hraw Hnames Hdb Hread Hids) as H.
  cbv zeta in H. unfold endsWith in H.
  destruct (Sync.syncTariffs env w) as [o w']. cbn [fst snd] in H.
  destruct H as ([now Ht] & Hs & Hf & Hsv & _ & Hfailed).
  destruct (Hfailed Hne Hall) as (-> & He & Hsucc & Herr).
  exists w', now. split; [reflexivity|]. split; [exact Ht|].
  split; [rewrite Ht; now apply saved_rows_are_selected|].
  cbv zeta. repeat split; assumption.
Qed.

Lemma failed_export_keeps_saved_data_witness :
  exists w' now,
    Sync.syncTariffs Samples.deniedDay Samples.threeSheets
    = (Throw (newGoogleSheetsError (js "All spreadsheet updates failed")), w')
    /\ tariffsTable w'
       = Repository.insertChunk now
           (List.map (normalized (Sync.today Samples.deniedDay))
              [Samples.plainEntry])
           (tariffsTable Samples.threeSheets)
    /\ Repository.selectByDate (Sync.collate Samples.deniedDay)
         (Sync.today Samples.deniedDay) (tariffsTable w') <> []
    /\ (let m := Metrics.deref (collector w')
                   (List.length (objects (collector Samples.threeSheets))) in
        fetchedCount m = List.length [Samples.plainEntry]
        /\ savedCount m = List.length [Samples.plainEntry]
        /\ exportedCount m = 0
        /\ success m = false
        /\ error m
           = Some (js "Google Sheets Error: All spreadsheet updates failed")).
Proof.
  apply (failed_export_keeps_saved_data Samples.deniedDay Samples.threeSheets
           0 [Samples.plainEntry]).
  - split; [split; reflexivity|]. split; [vm_compute; lia|].
    split; [intros k Hk; lia | reflexivity].
  - discriminate.
  - names_present.
  - repeat split.
  - reflexivity.
  - reflexivity.
  - discriminate.
  - unfold Samples.threeSheets. cbn [spreadsheetsTable].
    repeat (apply Forall_cons; [right; intros k _; vm_compute; discriminate|]).
    apply Forall_nil.
Defined.

End SyncEndToEnd.
